(** * The WebSocket tunnel client of gemini-chat-proxy

    A shallow embedding of [services/webSocketService.ts]: the request
    dispatcher ([handleHttpRequest]) and the connection manager
    ([connect], [disconnect], the socket handlers and the reconnect
    policy), followed by the properties the specification states about
    them.

    Platform objects the service only calls (the [URL] class, [JSON.parse],
    [fetch], [WebSocket], timers, [Math.random]) are either taken as
    parameters or appear as the outcome the host hands back. *)

From Stdlib Require Import ZArith QArith Qround Qpower Lia Lqa List Ascii String.
From Stdlib.Strings Require Import Byte.
From stdpp Require Import base option list strings pretty gmap.
Import ListNotations.

Local Open Scope Z_scope.

(** ** Wire messages (types.ts) *)

(** [Record<string, string>]. *)
Abbreviation Headers := (gmap string string).

(** Text produced by [TextDecoder]: a JavaScript string, as its sequence
    of UTF-16 code units. *)
Abbreviation DOMString := (list Z).

Inductive WebSocketProxyStatus :=
| IDLE | CONNECTING | CONNECTED | RECONNECTING | DISCONNECTED | ERROR.

Global Instance WebSocketProxyStatus_eq_dec : EqDecision WebSocketProxyStatus.
Proof. solve_decision. Defined.

(** The enum's string values, as interpolated into log lines. *)
Definition status_name (s : WebSocketProxyStatus) : string :=
  match s with
  | IDLE => "IDLE" | CONNECTING => "CONNECTING" | CONNECTED => "CONNECTED"
  | RECONNECTING => "RECONNECTING" | DISCONNECTED => "DISCONNECTED"
  | ERROR => "ERROR"
  end.

Record HttpResponseDetails := mkDetails {
  details_status : Z;
  details_headers : Headers;
  details_body : string
}.

(** [WSClientSentMessage]: the union of the messages the client sends. *)
Inductive WSClientSentMessage :=
| WSPingMessage
| WSHttpResponseMessage (id : string) (status : Z) (headers : Headers) (body : string)
| WSStreamStartMessage (id : string) (status : Z) (headers : Headers)
| WSStreamChunkMessage (id : string) (data : DOMString)
| WSStreamEndMessage (id : string)
| WSErrorMessage (id : string) (code message : string)
                 (http_response : option HttpResponseDetails).

Record WSHttpRequestPayload := mkPayload {
  method : string;
  url : string;
  headers : Headers;
  body : option string          (* [None]: undefined or null *)
}.

Record WSHttpRequestMessage := mkRequest {
  id : string;
  payload : WSHttpRequestPayload
}.

(** The [type] tag of a message and the exchange it belongs to. *)
Definition message_type (m : WSClientSentMessage) : string :=
  match m with
  | WSPingMessage => "ping"
  | WSHttpResponseMessage _ _ _ _ => "http_response"
  | WSStreamStartMessage _ _ _ => "stream_start"
  | WSStreamChunkMessage _ _ => "stream_chunk"
  | WSStreamEndMessage _ => "stream_end"
  | WSErrorMessage _ _ _ _ => "error"
  end.

Definition message_id (m : WSClientSentMessage) : option string :=
  match m with
  | WSPingMessage => None
  | WSHttpResponseMessage i _ _ _ | WSStreamStartMessage i _ _
  | WSStreamChunkMessage i _ | WSStreamEndMessage i
  | WSErrorMessage i _ _ _ => Some i
  end.

(** A terminal message closes an exchange. *)
Definition terminal (m : WSClientSentMessage) : bool :=
  match m with
  | WSHttpResponseMessage _ _ _ _ | WSStreamEndMessage _
  | WSErrorMessage _ _ _ _ => true
  | _ => false
  end.

(** ** The platform's UTF-8 [TextDecoder]

    The decoder of the Encoding standard, byte by byte: [handleHttpRequest]
    keeps one decoder per streamed response and relies on the state it
    carries from one [decode] call to the next. *)

Module Utf8.

Record Decoder := mkDecoder {
  code_point : Z;
  bytes_seen : Z;
  bytes_needed : Z;
  lower_boundary : Z;
  upper_boundary : Z
}.

Definition init : Decoder := mkDecoder 0 0 0 0x80 0xBF.

Definition in_range (lo hi b : Z) : bool := (lo <=? b) && (b <=? hi).

(** A byte met while no sequence is open. *)
Definition lead (b : Z) : Decoder * list Z :=
  if in_range 0x00 0x7F b then (init, [b])
  else if in_range 0xC2 0xDF b then
    (mkDecoder (Z.land b 0x1F) 0 1 0x80 0xBF, [])
  else if in_range 0xE0 0xEF b then
    (mkDecoder (Z.land b 0xF) 0 2
       (if b =? 0xE0 then 0xA0 else 0x80)
       (if b =? 0xED then 0x9F else 0xBF), [])
  else if in_range 0xF0 0xF4 b then
    (mkDecoder (Z.land b 0x7) 0 3
       (if b =? 0xF0 then 0x90 else 0x80)
       (if b =? 0xF4 then 0x8F else 0xBF), [])
  else (init, [0xFFFD]).

(** One byte through the handler, with the scalar values it emits. A byte
    that breaks an open sequence yields U+FFFD, is put back on the queue
    and is handled again by the reset decoder. *)
Definition handler (d : Decoder) (b : Z) : Decoder * list Z :=
  if bytes_needed d =? 0 then lead b
  else if negb (in_range (lower_boundary d) (upper_boundary d) b) then
    let '(d', out) := lead b in (d', 0xFFFD :: out)
  else
    let cp := Z.lor (Z.shiftl (code_point d) 6) (Z.land b 0x3F) in
    if bytes_seen d + 1 =? bytes_needed d then (init, [cp])
    else (mkDecoder cp (bytes_seen d + 1) (bytes_needed d) 0x80 0xBF, []).

Fixpoint run (d : Decoder) (bs : list Z) : Decoder * list Z :=
  match bs with
  | [] => (d, [])
  | b :: rest =>
      let '(d1, out1) := handler d b in
      let '(d2, out2) := run d1 rest in
      (d2, out1 ++ out2)
  end.

(** End of queue: an open sequence is reported as one U+FFFD. *)
Definition finish (d : Decoder) : Decoder * list Z :=
  if bytes_needed d =? 0 then (d, [])
  else (mkDecoder (code_point d) (bytes_seen d) 0
          (lower_boundary d) (upper_boundary d), [0xFFFD]).

End Utf8.

Record TextDecoder := mkTextDecoder {
  decoder : Utf8.Decoder;
  BOM_seen : bool;
  do_not_flush : bool
}.

(** [new TextDecoder()]: UTF-8, replacement error mode, BOM not ignored. *)
Definition new_TextDecoder : TextDecoder := mkTextDecoder Utf8.init false false.

(** Serialising the decoder's output drops a byte order mark when it is
    the first scalar value the decoder ever produces. *)
Definition serialize_io_queue (bom_seen : bool) (q : list Z) : bool * list Z :=
  match q with
  | [] => (bom_seen, [])
  | c :: rest => (true, if negb bom_seen && (c =? 0xFEFF) then rest else q)
  end.

(** A scalar value as UTF-16 code units. *)
Definition utf16 (c : Z) : list Z :=
  if c <? 0x10000 then [c]
  else [0xD800 + Z.shiftr (c - 0x10000) 10; 0xDC00 + Z.land (c - 0x10000) 0x3FF].

Definition byte_value (b : byte) : Z := Z.of_N (Byte.to_N b).

(** [decoder.decode(input, { stream })]. *)
Definition decode (input : list byte) (stream : bool) (t : TextDecoder)
  : TextDecoder * DOMString :=
  let t0 := if do_not_flush t then t else new_TextDecoder in
  let '(d1, out1) := Utf8.run (decoder t0) (map byte_value input) in
  let '(d2, out2) := if stream then (d1, []) else Utf8.finish d1 in
  let '(bom, out) := serialize_io_queue (BOM_seen t0) (out1 ++ out2) in
  (mkTextDecoder d2 bom stream, flat_map utf16 out).

(** ** The platform's [URL] class

    What [handleHttpRequest] uses of a parsed URL: its path, its query as
    the ordered list of name/value pairs behind [searchParams], and the
    rest, which the code never touches. *)

Record URL := mkURL {
  origin_part : string;   (* scheme, credentials, host and port, serialised *)
  pathname : string;
  searchParams : list (string * string);
  hash : string
}.

(** [searchParams.has(name)] and [searchParams.delete(name)]. *)
Definition searchParams_has (name : string) (u : URL) : bool :=
  bool_decide (name ∈ (searchParams u).*1).

Definition searchParams_delete (name : string) (u : URL) : URL :=
  mkURL (origin_part u) (pathname u)
        (filter (λ p, p.1 ≠ name) (searchParams u)) (hash u).

(** [String.prototype.endsWith]. *)
Definition endsWith (s suffix : string) : bool :=
  let n := String.length s in
  let m := String.length suffix in
  (m <=? n)%nat && String.eqb (substring (n - m) m s) suffix.

(** ** What the host hands back to the dispatcher *)

(** A value caught by [catch (error)]. *)
Inductive Thrown :=
| ErrorObject (message : string)                  (* instanceof Error *)
| ResponseObject (status : Z) (text : option string)
    (* instanceof Response; [text] is [None] when [error.text()] rejects *)
| OtherValue (str : string).                      (* anything else, with String(error) *)

(** The body of a fetched response. A readable body is the sequence of
    chunks its reader yields, closed by [done] or by a read that rejects;
    otherwise [response.text()] settles the body. *)
Inductive ResponseBody :=
| Readable (chunks : list (list byte)) (failure : option Thrown)
| NotReadable (text : string + Thrown).

Record Response := mkResponse {
  status : Z;
  response_headers : list (string * string);  (* as [headers.forEach] visits them *)
  response_body : ResponseBody
}.

Inductive FetchOutcome :=
| Rejected (e : Thrown)
| Resolved (response : Response).

Record RequestInit := mkInit {
  init_method : string;
  init_headers : Headers;
  init_body : option string
}.

Inductive Level := log | warn | error.

(** What one run of [handleHttpRequest] does, in program order. *)
Inductive Action :=
| Console (level : Level) (text : string)
| Fetch (url : string) (init : RequestInit)
| SendToServer (m : WSClientSentMessage).

Definition sent (acts : list Action) : list WSClientSentMessage :=
  omap (λ a, match a with SendToServer m => Some m | _ => None end) acts.

Definition fetched (acts : list Action) : list string :=
  omap (λ a, match a with Fetch u _ => Some u | _ => None end) acts.

(** ** The request dispatcher (webSocketService.ts, lines 60-185) *)

(** [String(error)] and [error.message]. *)
Definition error_message (e : Thrown) : string :=
  match e with
  | ErrorObject message => message
  | ResponseObject _ _ => "[object Response]"
  | OtherValue str => str
  end.

(** The [catch] block, lines 163-184. *)
Definition on_fetch_error (id method url : string) (e : Thrown) : list Action :=
  let '(code, http_response) :=
    match e with
    | ResponseObject status text =>
        if status =? 0 then ("FETCH_ERROR", None)
        else ("HTTP_ERROR",
              Some (mkDetails status ∅ (default "Could not read error body" text)))
    | _ => ("FETCH_ERROR", None)
    end in
  [ Console error ("WebSocket Proxy: Fetch error for request ID " +:+ id +:+
                   " (" +:+ method +:+ " " +:+ url +:+ "):");
    SendToServer (WSErrorMessage id code (error_message e) http_response) ].

(** The [while (true)] loop, lines 118-129, over the chunks the reader
    yields before it is done or fails. *)
Fixpoint read_loop (id : string) (decoder : TextDecoder) (chunks : list (list byte))
  : TextDecoder * list Action :=
  match chunks with
  | [] => (decoder, [])
  | value :: rest =>
      let '(decoder1, chunkData) := decode value true decoder in
      let '(decoder2, acts) := read_loop id decoder1 rest in
      (decoder2, SendToServer (WSStreamChunkMessage id chunkData) :: acts)
  end.

(** [responseHeaders], lines 100-103: an object literal filled by
    assignment, [hs] being the pairs [response.headers.forEach] visits.
    An assignment to the name [__proto__] runs the setter the literal
    inherits from [Object.prototype], which ignores a string: no property
    is created. Under any other name the value becomes an own property,
    or replaces the one of that name. *)
Definition collect_headers (hs : list (string * string)) : Headers :=
  foldl (λ responseHeaders kv,
           if bool_decide (kv.1 = "__proto__") then responseHeaders
           else <[kv.1 := kv.2]> responseHeaders) ∅ hs.

Section Dispatcher.

(** [new URL(url)], [None] when it throws, and [parsedUrl.toString()]. *)
Variable new_URL : string → option URL.
Variable URL_toString : URL → string.

(** Lines 64-79: the URL the outbound call is made with, and what is
    logged on the way. *)
Definition egress_url (id method url : string) : string * list Action :=
  if String.eqb method "GET" then
    match new_URL url with
    | Some parsedUrl =>
        if endsWith (pathname parsedUrl) "/v1beta/models"
           || endsWith (pathname parsedUrl) "/v1beta/models/" then
          if searchParams_has "key" parsedUrl then
            let url' := URL_toString (searchParams_delete "key" parsedUrl) in
            (url', [Console log ("WebSocket Proxy: Modified URL for " +:+ id +:+
                                 " to remove 'key' param: " +:+ url')])
          else (url, [])
        else (url, [])
    | None =>
        (url, [Console error
                 ("WebSocket Proxy: Error parsing URL for modification for request ID "
                  +:+ id +:+ ": " +:+ url)])
    end
  else (url, []).

(** Lines 82-94. *)
Definition fetch_options (p : WSHttpRequestPayload) : RequestInit :=
  mkInit (method p) (headers p)
    (if negb (String.eqb (method p) "GET") && negb (String.eqb (method p) "HEAD")
     then body p else None).

(** Lines 105-162: relaying a response that [fetch] resolved with. *)
Definition relay (id method url : string) (response : Response) : list Action :=
  let responseHeaders := collect_headers (response_headers response) in
  match response_body response with
  | Readable chunks failure =>
      let '(decoder, chunk_sends) := read_loop id new_TextDecoder chunks in
      SendToServer (WSStreamStartMessage id (status response) responseHeaders)
      :: chunk_sends ++
      match failure with
      | Some e => on_fetch_error id method url e
      | None =>
          let finalChunk := (decode [] false decoder).2 in
          (match finalChunk with
           | [] => []
           | _ :: _ => [SendToServer (WSStreamChunkMessage id finalChunk)]
           end)
          ++ [SendToServer (WSStreamEndMessage id)]
      end
  | NotReadable (inl responseBodyText) =>
      [SendToServer (WSHttpResponseMessage id (status response) responseHeaders
                       responseBodyText)]
  | NotReadable (inr e) => on_fetch_error id method url e
  end.

Definition handleHttpRequest (request : WSHttpRequestMessage) (outcome : FetchOutcome)
  : list Action :=
  let p := payload request in
  let '(url', logs) := egress_url (id request) (method p) (url p) in
  logs ++ Fetch url' (fetch_options p) ::
  match outcome with
  | Rejected e => on_fetch_error (id request) (method p) url' e
  | Resolved response => relay (id request) (method p) url' response
  end.

End Dispatcher.

(** ** A URL parser for plain URLs

    A stand-in for the platform's [URL] class where a concrete URL is
    run. It is exact on [http] and [https] URLs of the shape
    [scheme://host/path?name=value&...#fragment] in which the scheme and
    the host are in lower case, there are no credentials and no port, the
    path has no dot segments, the path's segments and the names and
    values of the query are made of letters, digits and the characters
    the platform's serialisers leave as they are (asterisk, hyphen, dot,
    underscore), every piece of the query is [name=value], and a
    fragment, where there is a [#], is not empty; and it rejects, as the
    platform does, a path on its own. On other URLs it may differ from
    the platform, which lower-cases the host, re-encodes the
    parameters it keeps when one is deleted (a value [b==] becomes
    [b%3D%3D]) and keeps a [#] that nothing follows. The theorems take
    the URL class as a parameter; this parser instantiates [new_URL] and
    [URL_toString] in examples only, on URLs of that shape. *)

Module PlainURL.

(** [s] up to the first [c], and what follows it. *)
Fixpoint break_at (c : ascii) (s : string) : string * option string :=
  match s with
  | EmptyString => (EmptyString, None)
  | String a rest =>
      if Ascii.eqb a c then (EmptyString, Some rest)
      else let '(pre, post) := break_at c rest in (String a pre, post)
  end.

Fixpoint split_on (c : ascii) (s : string) : list string :=
  match s with
  | EmptyString => [EmptyString]
  | String a rest =>
      let parts := split_on c rest in
      if Ascii.eqb a c then EmptyString :: parts
      else match parts with
           | part :: others => String a part :: others
           | [] => [String a EmptyString]
           end
  end.

Definition parse_query (q : string) : list (string * string) :=
  omap (λ piece,
          match piece with
          | EmptyString => None
          | _ => let '(name, value) := break_at "=" piece in
                 Some (name, default EmptyString value)
          end)
       (split_on "&" q).

Definition serialize_query (l : list (string * string)) : string :=
  match l with
  | [] => EmptyString
  | _ => "?" +:+ String.concat "&" (map (λ p, p.1 +:+ "=" +:+ p.2) l)
  end.

Definition new_URL (url : string) : option URL :=
  let '(front, fragment) := break_at "#" url in
  let '(location, query) := break_at "?" front in
  match break_at ":" location with
  | (String c scheme, Some (String "/" (String "/" (String h rest)))) =>
      let '(host, path) := break_at "/" (String h rest) in
      match host with
      | EmptyString => None
      | _ => Some (mkURL (String c scheme +:+ "://" +:+ host)
                         ("/" +:+ default EmptyString path)
                         (parse_query (default EmptyString query))
                         (match fragment with
                          | Some (String f fs) => "#" +:+ String f fs
                          | _ => EmptyString
                          end))
      end
  | _ => None
  end.

Definition toString (u : URL) : string :=
  origin_part u +:+ pathname u +:+ serialize_query (searchParams u) +:+ hash u.

End PlainURL.

(** ** The connection manager's state and its host *)

(** What [JSON.parse] returns. *)
#[warnings="-register-all"]
Inductive JSON :=
| JNull
| JBool (b : bool)
| JNumber (n : Q)
| JString (s : string)
| JArray (items : list JSON)
| JObject (members : list (string * JSON)).

(** Reading property [name] of a parsed value: [None] is [undefined]. *)
Definition property (name : string) (v : JSON) : option JSON :=
  match v with
  | JObject members => snd <$> find (λ m, String.eqb m.1 name) members
  | _ => None
  end.

(** Numeric constants for WebSocket readyState (lines 21-25). *)
Definition WS_CONNECTING : Z := 0.
Definition WS_OPEN : Z := 1.
Definition WS_CLOSING : Z := 2.
Definition WS_CLOSED : Z := 3.

Definition PING_INTERVAL_MS : Z := 25 * 1000.
Definition RECONNECT_INITIAL_DELAY_MS : Z := 1000.
Definition RECONNECT_MAX_DELAY_MS : Z := 30 * 1000.
Definition RECONNECT_JITTER_MS : Z := 500.

Record WebSocket := mkWebSocket {
  ws_url : string;
  readyState : Z
}.

(** Calls that leave the module. *)
Inductive Effect :=
| StatusCallback (status : WebSocketProxyStatus) (details : option string)
| ConsoleCall (level : Level) (text : string)
| NewWebSocket (url : string) (created : option nat)  (* [None]: the constructor threw *)
| SocketSend (sock : nat) (m : WSClientSentMessage)
| SocketClose (sock : nat) (code : Z) (reason : string)
| SetTimeout (handle : Z) (delay : Q)
| ClearTimeout (handle : Z)
| SetInterval (handle : Z) (delay : Z)
| ClearInterval (handle : Z)
| HandleHttpRequest (message : JSON).       (* a dispatcher task is started *)

Record State := mkState {
  socket : option nat;   (* the WebSocket object held, by identity *)
  currentStatus : WebSocketProxyStatus;
  onStatusChangeCallback : bool;   (* whether an observer is registered *)
  pingIntervalId : option Z;
  reconnectTimeoutId : option Z;
  currentReconnectDelay : Z;
  explicitClose : bool;
  currentJwtToken : option string;
  sockets : list WebSocket;   (* every WebSocket object constructed so far *)
  timeouts : list Z;   (* handles of the armed one-shot timers *)
  intervals : list Z;   (* handles of the armed repeating timers *)
  nextHandle : positive;   (* the next timer handle the window hands out *)
  randoms_drawn : nat;   (* how many times Math.random() was called *)
  trace : list Effect   (* what the module did to its host, newest first *)
}.

(** Assignments to one variable of the state. *)
Definition set_socket (v : option nat) (s : State) : State :=
  mkState v (currentStatus s) (onStatusChangeCallback s) (pingIntervalId s)
    (reconnectTimeoutId s) (currentReconnectDelay s) (explicitClose s)
    (currentJwtToken s) (sockets s) (timeouts s) (intervals s) (nextHandle s)
    (randoms_drawn s) (trace s).

Definition set_currentStatus (v : WebSocketProxyStatus) (s : State) : State :=
  mkState (socket s) v (onStatusChangeCallback s) (pingIntervalId s)
    (reconnectTimeoutId s) (currentReconnectDelay s) (explicitClose s)
    (currentJwtToken s) (sockets s) (timeouts s) (intervals s) (nextHandle s)
    (randoms_drawn s) (trace s).

Definition set_onStatusChangeCallback (v : bool) (s : State) : State :=
  mkState (socket s) (currentStatus s) v (pingIntervalId s)
    (reconnectTimeoutId s) (currentReconnectDelay s) (explicitClose s)
    (currentJwtToken s) (sockets s) (timeouts s) (intervals s) (nextHandle s)
    (randoms_drawn s) (trace s).

Definition set_pingIntervalId (v : option Z) (s : State) : State :=
  mkState (socket s) (currentStatus s) (onStatusChangeCallback s) v
    (reconnectTimeoutId s) (currentReconnectDelay s) (explicitClose s)
    (currentJwtToken s) (sockets s) (timeouts s) (intervals s) (nextHandle s)
    (randoms_drawn s) (trace s).

Definition set_reconnectTimeoutId (v : option Z) (s : State) : State :=
  mkState (socket s) (currentStatus s) (onStatusChangeCallback s)
    (pingIntervalId s) v (currentReconnectDelay s) (explicitClose s)
    (currentJwtToken s) (sockets s) (timeouts s) (intervals s) (nextHandle s)
    (randoms_drawn s) (trace s).

Definition set_currentReconnectDelay (v : Z) (s : State) : State :=
  mkState (socket s) (currentStatus s) (onStatusChangeCallback s)
    (pingIntervalId s) (reconnectTimeoutId s) v (explicitClose s)
    (currentJwtToken s) (sockets s) (timeouts s) (intervals s) (nextHandle s)
    (randoms_drawn s) (trace s).

Definition set_explicitClose (v : bool) (s : State) : State :=
  mkState (socket s) (currentStatus s) (onStatusChangeCallback s)
    (pingIntervalId s) (reconnectTimeoutId s) (currentReconnectDelay s) v
    (currentJwtToken s) (sockets s) (timeouts s) (intervals s) (nextHandle s)
    (randoms_drawn s) (trace s).

Definition set_currentJwtToken (v : option string) (s : State) : State :=
  mkState (socket s) (currentStatus s) (onStatusChangeCallback s)
    (pingIntervalId s) (reconnectTimeoutId s) (currentReconnectDelay s)
    (explicitClose s) v (sockets s) (timeouts s) (intervals s) (nextHandle s)
    (randoms_drawn s) (trace s).

Definition set_sockets (v : list WebSocket) (s : State) : State :=
  mkState (socket s) (currentStatus s) (onStatusChangeCallback s)
    (pingIntervalId s) (reconnectTimeoutId s) (currentReconnectDelay s)
    (explicitClose s) (currentJwtToken s) v (timeouts s) (intervals s)
    (nextHandle s) (randoms_drawn s) (trace s).

Definition set_timeouts (v : list Z) (s : State) : State :=
  mkState (socket s) (currentStatus s) (onStatusChangeCallback s)
    (pingIntervalId s) (reconnectTimeoutId s) (currentReconnectDelay s)
    (explicitClose s) (currentJwtToken s) (sockets s) v (intervals s)
    (nextHandle s) (randoms_drawn s) (trace s).

Definition set_intervals (v : list Z) (s : State) : State :=
  mkState (socket s) (currentStatus s) (onStatusChangeCallback s)
    (pingIntervalId s) (reconnectTimeoutId s) (currentReconnectDelay s)
    (explicitClose s) (currentJwtToken s) (sockets s) (timeouts s) v
    (nextHandle s) (randoms_drawn s) (trace s).

Definition set_nextHandle (v : positive) (s : State) : State :=
  mkState (socket s) (currentStatus s) (onStatusChangeCallback s)
    (pingIntervalId s) (reconnectTimeoutId s) (currentReconnectDelay s)
    (explicitClose s) (currentJwtToken s) (sockets s) (timeouts s) (intervals
    s) v (randoms_drawn s) (trace s).

Definition set_randoms_drawn (v : nat) (s : State) : State :=
  mkState (socket s) (currentStatus s) (onStatusChangeCallback s)
    (pingIntervalId s) (reconnectTimeoutId s) (currentReconnectDelay s)
    (explicitClose s) (currentJwtToken s) (sockets s) (timeouts s) (intervals
    s) (nextHandle s) v (trace s).

Definition set_trace (v : list Effect) (s : State) : State :=
  mkState (socket s) (currentStatus s) (onStatusChangeCallback s)
    (pingIntervalId s) (reconnectTimeoutId s) (currentReconnectDelay s)
    (explicitClose s) (currentJwtToken s) (sockets s) (timeouts s) (intervals
    s) (nextHandle s) (randoms_drawn s) v.
Definition emit (e : Effect) (s : State) : State := set_trace (e :: trace s) s.

(** The module's variables as declared (lines 27-34), in a fresh window. *)
Definition initial : State :=
  mkState None IDLE false None None RECONNECT_INITIAL_DELAY_MS false None
          [] [] [] 1%positive 0%nat [].

(** JavaScript truthiness of [string | null | undefined] and
    [number | null]. *)
Definition truthy (v : option string) : bool :=
  match v with
  | Some (String _ _) => true
  | _ => false
  end.

Definition truthy_number (v : option Z) : bool :=
  match v with
  | Some n => negb (n =? 0)
  | None => false
  end.

(** [socket.readyState] of the socket held, if any. *)
Definition held_readyState (s : State) : option Z :=
  k ← socket s; readyState <$> sockets s !! k.

Definition set_readyState (k : nat) (r : Z) (s : State) : State :=
  set_sockets (alter (λ w, mkWebSocket (ws_url w) r) k (sockets s)) s.

(** [window.clearTimeout], [window.clearInterval]. *)
Definition clearTimeout (h : Z) (s : State) : State :=
  emit (ClearTimeout h) (set_timeouts (filter (λ x, x ≠ h) (timeouts s)) s).

Definition clearInterval (h : Z) (s : State) : State :=
  emit (ClearInterval h) (set_intervals (filter (λ x, x ≠ h) (intervals s)) s).

(** ** The platform's Number arithmetic

    An ECMAScript Number is an IEEE 754 binary64 value, and [+], [*] and
    [/] return the exact result rounded to the nearest Number, to the one
    with the even significand when two are equally near. A finite Number
    is a rational; [round] is that rounding on the rationals whose
    magnitude is below the overflow threshold 2^1024 (the manager's
    delays stay below 2^15), and the operations divide by no zero here. *)

Module Binary64.

(** The integer part of the binary logarithm of [x], for [0 < x]. *)
Definition ilog2 (x : Q) : Z :=
  let k := Z.log2 (Qnum x) - Z.log2 (Z.pos (Qden x)) in
  if Qle_bool (2 ^ k) x then k else k - 1.

(** The exponent of the last place of a significand of 53 bits; it is
    -1074 throughout the subnormal range. *)
Definition last_place (x : Q) : Z := Z.max (ilog2 x - 52) (-1074).

(** The nearest integer, the even one of two equally near. *)
Definition nearest_even (x : Q) : Z :=
  let f := Qfloor x in
  match (x - inject_Z f ?= 1 # 2)%Q with
  | Lt => f
  | Gt => f + 1
  | Eq => if Z.even f then f else f + 1
  end.

Definition round_positive (x : Q) : Q :=
  let e := last_place x in
  Qred (inject_Z (nearest_even (x / 2 ^ e)) * 2 ^ e).

Definition round (x : Q) : Q :=
  match Qnum x with
  | 0 => 0%Q
  | Z.pos _ => round_positive x
  | Z.neg _ => (- round_positive (- x))%Q
  end.

Definition add (x y : Q) : Q := round (x + y).
Definition mul (x y : Q) : Q := round (x * y).
Definition div (x y : Q) : Q := round (x / y).

End Binary64.

(** ** The connection manager (webSocketService.ts, lines 36-58, 188-343) *)

Definition updateStatus (newStatus : WebSocketProxyStatus) (details : option string)
    (s : State) : State :=
  if bool_decide (currentStatus s = newStatus) && negb (truthy details) then s
  else
    let s := set_currentStatus newStatus s in
    let s := if onStatusChangeCallback s
             then emit (StatusCallback newStatus details) s else s in
    emit (ConsoleCall log
            ("WebSocket Proxy Status: " +:+ status_name newStatus +:+
             (if truthy details then " - " +:+ default EmptyString details
              else EmptyString))) s.

Definition sendToServer (message : WSClientSentMessage) (s : State) : State :=
  match socket s, held_readyState s with
  | Some k, Some r =>
      if r =? WS_OPEN then emit (SocketSend k message) s
      else emit (ConsoleCall warn
                   "WebSocket Proxy: Cannot send message, socket not open.") s
  | _, _ => emit (ConsoleCall warn
                    "WebSocket Proxy: Cannot send message, socket not open.") s
  end.

Definition stopPing (s : State) : State :=
  if truthy_number (pingIntervalId s) then
    set_pingIntervalId None (clearInterval (default 0 (pingIntervalId s)) s)
  else s.

Definition startPing (s : State) : State :=
  let s := stopPing s in
  let h := Z.pos (nextHandle s) in
  let s := set_nextHandle (Pos.succ (nextHandle s)) s in
  let s := set_intervals (h :: intervals s) s in
  set_pingIntervalId (Some h) (emit (SetInterval h PING_INTERVAL_MS) s).

Definition onSocketOpen (s : State) : State :=
  let s := updateStatus CONNECTED None s in
  let s := set_currentReconnectDelay RECONNECT_INITIAL_DELAY_MS s in
  let s := if truthy_number (reconnectTimeoutId s) then
             set_reconnectTimeoutId None
               (clearTimeout (default 0 (reconnectTimeoutId s)) s)
           else s in
  startPing s.

Definition onSocketError (s : State) : State :=
  emit (ConsoleCall error "WebSocket Proxy: Socket error:") s.

(** [Math.round]: the nearest integer, the greater one of two equally
    near. *)
Definition Math_round (x : Q) : Z := Qfloor (x + (1 # 2)).

Definition is_tag (tag : string) (v : option JSON) : bool :=
  match v with
  | Some (JString s) => String.eqb s tag
  | _ => false
  end.

Definition open_or_connecting (r : option Z) : bool :=
  match r with
  | Some r => (r =? WS_OPEN) || (r =? WS_CONNECTING)
  | None => false
  end.

Section Manager.

(** [process.env.WEBSOCKET_PROXY_URL], the parser behind [JSON.parse]
    ([None] when it throws), the message of the exception
    [new WebSocket(url)] throws for [url], if it does, and the successive
    results of [Math.random()], Numbers as the rationals they are. *)
Variable WEBSOCKET_PROXY_URL : option string.
Variable JSON_parse : string → option JSON.
Variable WebSocket_throws : string → option string.
Variable Math_random : nat → Q.

Definition BASE_WEBSOCKET_URL : string :=
  if truthy WEBSOCKET_PROXY_URL then default EmptyString WEBSOCKET_PROXY_URL
  else "ws://127.0.0.1:5345/v1/ws".

Definition onSocketMessage (data : string) (s : State) : State :=
  match JSON_parse data with
  | None | Some JNull =>
      (* a SyntaxError, or the TypeError of reading [null.type] *)
      emit (ConsoleCall error
              "WebSocket Proxy: Error parsing message from server or handling it:") s
  | Some message =>
      let type := property "type" message in
      if is_tag "http_request" type then emit (HandleHttpRequest message) s
      else if is_tag "pong" type then s
      else emit (ConsoleCall warn
                   "WebSocket Proxy: Received unknown message type") s
  end.

Definition scheduleReconnect (s : State) : State :=
  if explicitClose s || negb (truthy (currentJwtToken s)) then
    updateStatus IDLE
      (Some "Reconnection not attempted (explicit close or no token).") s
  else
    let s := if truthy_number (reconnectTimeoutId s)
             then clearTimeout (default 0 (reconnectTimeoutId s)) s else s in
    let delayWithJitter : Q :=
      Binary64.add (inject_Z (currentReconnectDelay s))
        (Binary64.mul (Math_random (randoms_drawn s)) (inject_Z RECONNECT_JITTER_MS)) in
    let s := set_randoms_drawn (S (randoms_drawn s)) s in
    let s := updateStatus RECONNECTING
               (Some ("Attempting to reconnect in " +:+
                      pretty (Math_round (Binary64.div delayWithJitter (inject_Z 1000))) +:+
                      "s...")) s in
    let h := Z.pos (nextHandle s) in
    let s := set_nextHandle (Pos.succ (nextHandle s)) s in
    let s := emit (SetTimeout h delayWithJitter) (set_timeouts (h :: timeouts s) s) in
    let s := set_reconnectTimeoutId (Some h) s in
    set_currentReconnectDelay
      (Z.min (currentReconnectDelay s * 2) RECONNECT_MAX_DELAY_MS) s.

Definition onSocketClose (code : Z) (reason : string) (s : State) : State :=
  let s := stopPing s in
  if truthy_number (reconnectTimeoutId s) then s
  else
    let s :=
      if explicitClose s then
        set_explicitClose false
          (updateStatus IDLE
             (Some ("Connection closed by client. Code: " +:+ pretty code)) s)
      else
        scheduleReconnect
          (updateStatus DISCONNECTED
             (Some ("Connection closed. Code: " +:+ pretty code +:+ ", Reason: " +:+
                    (if truthy (Some reason) then reason else "N/A"))) s) in
    set_socket None s.

Definition connect (jwtToken : string) (s : State) : State :=
  if negb (truthy (Some jwtToken)) then
    updateStatus ERROR (Some "JWT Token is required to connect.") s
  else
    let s := set_currentJwtToken (Some jwtToken) s in
    if open_or_connecting (held_readyState s) then
      emit (ConsoleCall log "WebSocket Proxy: Already connected or connecting.") s
    else
      let s := set_explicitClose false s in
      let s := updateStatus CONNECTING None s in
      let wsUrl := BASE_WEBSOCKET_URL +:+ "?auth_token=" +:+ jwtToken in
      let s := emit (ConsoleCall log
                       ("WebSocket Proxy: Attempting to connect to " +:+ wsUrl)) s in
      match WebSocket_throws wsUrl with
      | Some message =>
          let s := emit (NewWebSocket wsUrl None) s in
          let s := emit (ConsoleCall error "WebSocket Proxy: Instantiation error:") s in
          let s := updateStatus ERROR
                     (Some ("Failed to instantiate WebSocket: " +:+ message)) s in
          scheduleReconnect s
      | None =>
          let k := length (sockets s) in
          let s := set_sockets (sockets s ++ [mkWebSocket wsUrl WS_CONNECTING]) s in
          set_socket (Some k) (emit (NewWebSocket wsUrl (Some k)) s)
      end.

Definition disconnect (s : State) : State :=
  let s := set_explicitClose true s in
  let s := set_currentJwtToken None s in
  let s := if truthy_number (reconnectTimeoutId s) then
             set_reconnectTimeoutId None
               (clearTimeout (default 0 (reconnectTimeoutId s)) s)
           else s in
  let s := stopPing s in
  let s :=
    match socket s with
    | Some k =>
        if open_or_connecting (held_readyState s) then
          set_readyState k WS_CLOSING
            (emit (SocketClose k 1000 "Client initiated disconnect") s)
        else
          onSocketClose 1000 "Client initiated disconnect on non-open socket" s
    | None => updateStatus IDLE (Some "Disconnected (no active socket).") s
    end in
  set_socket None s.

Definition setOnStatusChange (callback : bool) (s : State) : State :=
  let s := set_onStatusChangeCallback callback s in
  if callback then emit (StatusCallback (currentStatus s) None) s else s.

(** The timer callbacks: lines 269-276 and 244-247. *)
Definition reconnect_timeout (s : State) : State :=
  let s := set_reconnectTimeoutId None s in
  if truthy (currentJwtToken s) then
    connect (default EmptyString (currentJwtToken s)) s
  else
    updateStatus IDLE (Some "Reconnect aborted: JWT token became unavailable.") s.

Definition ping_interval (s : State) : State := sendToServer WSPingMessage s.

(** ** The module in its host

    Everything that can run the module's code: the three exported calls,
    the events of the sockets it constructed, its timers, and a dispatcher
    task reaching one of its [sendToServer] calls. An event the host
    cannot deliver in the state at hand has no successor. *)
Inductive Event :=
| Call_connect (jwtToken : string)
| Call_disconnect
| Call_setOnStatusChange (callback : bool)
| Socket_open (k : nat)
| Socket_message (k : nat) (data : string)
| Socket_error (k : nat)
| Socket_close (k : nat) (code : Z) (reason : string)
| Timeout_fires (h : Z)
| Interval_fires (h : Z)
| Task_sends (m : WSClientSentMessage).

Definition step (e : Event) (s : State) : option State :=
  match e with
  | Call_connect jwtToken => Some (connect jwtToken s)
  | Call_disconnect => Some (disconnect s)
  | Call_setOnStatusChange callback => Some (setOnStatusChange callback s)
  | Socket_open k =>
      w ← sockets s !! k;
      if readyState w =? WS_CONNECTING
      then Some (onSocketOpen (set_readyState k WS_OPEN s)) else None
  | Socket_message k data =>
      w ← sockets s !! k;
      if readyState w =? WS_OPEN then Some (onSocketMessage data s) else None
  | Socket_error k =>
      w ← sockets s !! k; Some (onSocketError s)
  | Socket_close k code reason =>
      w ← sockets s !! k;
      if readyState w =? WS_CLOSED then None
      else Some (onSocketClose code reason (set_readyState k WS_CLOSED s))
  | Timeout_fires h =>
      if bool_decide (h ∈ timeouts s)
      then Some (reconnect_timeout
                   (set_timeouts (filter (λ x, x ≠ h) (timeouts s)) s))
      else None
  | Interval_fires h =>
      if bool_decide (h ∈ intervals s) then Some (ping_interval s) else None
  | Task_sends m => Some (sendToServer m s)
  end.

Fixpoint run (es : list Event) (s : State) : option State :=
  match es with
  | [] => Some s
  | e :: rest => s' ← step e s; run rest s'
  end.

Inductive reachable : State → Prop :=
| reachable_initial : reachable initial
| reachable_step e s s' : reachable s → step e s = Some s' → reachable s'.

End Manager.

(** ** Notions used in the statements *)

(** A decoder that is fresh or in the middle of a stream. *)
Definition streaming (t : TextDecoder) : Prop :=
  do_not_flush t = true ∨ t = new_TextDecoder.

(** The [data] of a [stream_chunk] message. *)
Definition chunk_data (m : WSClientSentMessage) : option DOMString :=
  match m with
  | WSStreamChunkMessage _ data => Some data
  | _ => None
  end.

(** The text a sequence of messages carries in its [stream_chunk]s. *)
Definition stream_text (msgs : list WSClientSentMessage) : DOMString :=
  concat (omap chunk_data msgs).

(** Every [window.setTimeout] call made so far, newest first, and every
    [new WebSocket] evaluated so far. *)
Definition scheduled (tr : list Effect) : list (Z * Q) :=
  omap (λ e, match e with SetTimeout h d => Some (h, d) | _ => None end) tr.

Definition constructed (tr : list Effect) : list (string * option nat) :=
  omap (λ e, match e with NewWebSocket u k => Some (u, k) | _ => None end) tr.

(** The module's own variables, without its host. *)
Definition variables (s : State) :=
  (socket s, currentStatus s, onStatusChangeCallback s, pingIntervalId s,
   reconnectTimeoutId s, currentReconnectDelay s, explicitClose s,
   currentJwtToken s).

(** The reconnect timer is the only one-shot timer and its handle is the
    one the module remembers. *)
Definition timer_tracked (s : State) : Prop :=
  timeouts s = match reconnectTimeoutId s with Some h => [h] | None => [] end
  ∧ ∀ h, reconnectTimeoutId s = Some h → 0 < h.

(** Between two states the base delay stays or doubles up to the cap. *)
Definition delay_moves (s s' : State) : Prop :=
  currentReconnectDelay s' = currentReconnectDelay s
  ∨ currentReconnectDelay s'
    = Z.min (currentReconnectDelay s * 2) RECONNECT_MAX_DELAY_MS.

Definition delay_in_bounds (s : State) : Prop :=
  RECONNECT_INITIAL_DELAY_MS ≤ currentReconnectDelay s ≤ RECONNECT_MAX_DELAY_MS.

(** No credentials and no reconnect timer: the state [disconnect] leaves. *)
Definition quiet (s : State) : Prop :=
  currentJwtToken s = None ∧ reconnectTimeoutId s = None ∧ timeouts s = [].

(** What decides whether a reconnect is pending or was ever armed. *)
Definition standing (s : State) :=
  (currentJwtToken s, reconnectTimeoutId s, timeouts s, scheduled (trace s)).

Definition is_connect (e : Event) : bool :=
  match e with Call_connect _ => true | _ => false end.

Definition is_open (e : Event) : bool :=
  match e with Socket_open _ => true | _ => false end.

(** *** A host to run examples in

    The default endpoint, a parser that knows three frames, a constructor
    that rejects every URL not starting with [ws], and a constant random
    source. *)
Definition dq : string := String (ascii_of_nat 34) EmptyString.

Definition frame_of_type (t : string) : string :=
  "{" +:+ dq +:+ "type" +:+ dq +:+ ":" +:+ dq +:+ t +:+ dq +:+ "}".

Definition sample_JSON_parse (data : string) : option JSON :=
  if String.eqb data (frame_of_type "pong") then
    Some (JObject [("type", JString "pong")])
  else if String.eqb data (frame_of_type "hello") then
    Some (JObject [("type", JString "hello")])
  else if String.eqb data "null" then Some JNull
  else None.

Definition sample_WebSocket_throws (url : string) : option string :=
  if String.prefix "ws" url then None else Some "The URL is invalid.".

Definition sample_Math_random (n : nat) : Q := 1 # 2.

(** The manager after [connect("a")], the socket opening, and the socket
    closing with code 1006: a retry is pending. *)
Definition sample_retrying : State :=
  default initial
    (run None sample_JSON_parse sample_WebSocket_throws sample_Math_random
       [Call_connect "a"; Socket_open 0; Socket_close 0 1006 EmptyString] initial).

(** The manager after [connect("a")], and after the socket opened. *)
Definition sample_connecting : State :=
  default initial
    (run None sample_JSON_parse sample_WebSocket_throws sample_Math_random
       [Call_connect "a"] initial).

Definition sample_connected : State :=
  default initial
    (run None sample_JSON_parse sample_WebSocket_throws sample_Math_random
       [Call_connect "a"; Socket_open 0] initial).

(** The path test of line 68. *)
Definition models_path (pathname : string) : bool :=
  endsWith pathname "/v1beta/models" || endsWith pathname "/v1beta/models/".

(** ** Further notions: what else is read off a state or a run *)

(** The frames put on the wire, the observer's notifications, the
    dispatcher tasks started, the [socket.close] calls and the
    [setInterval] calls made so far, newest first. *)
Definition wire (tr : list Effect) : list (nat * WSClientSentMessage) :=
  omap (λ e, match e with SocketSend k m => Some (k, m) | _ => None end) tr.

Definition callbacks (tr : list Effect) : list (WebSocketProxyStatus * option string) :=
  omap (λ e, match e with StatusCallback st d => Some (st, d) | _ => None end) tr.

Definition spawned (tr : list Effect) : list JSON :=
  omap (λ e, match e with HandleHttpRequest m => Some m | _ => None end) tr.

Definition close_calls (tr : list Effect) : list (nat * Z * string) :=
  omap (λ e, match e with SocketClose k c r => Some (k, c, r) | _ => None end) tr.

Definition heartbeats (tr : list Effect) : list (Z * Z) :=
  omap (λ e, match e with SetInterval h d => Some (h, d) | _ => None end) tr.

(** The [fetch] calls of a dispatcher run, with their options. *)
Definition fetch_calls (acts : list Action) : list (string * RequestInit) :=
  omap (λ a, match a with Fetch u i => Some (u, i) | _ => None end) acts.

(** The heartbeat is the only repeating timer and its handle is the one
    the module remembers. *)
Definition heartbeat_tracked (s : State) : Prop :=
  intervals s = match pingIntervalId s with Some h => [h] | None => [] end
  ∧ ∀ h, pingIntervalId s = Some h → 0 < h.

(** Both timers are tracked, their handles were handed out by the window
    and differ. *)
Definition timers_ok (s : State) : Prop :=
  timer_tracked s ∧ heartbeat_tracked s
  ∧ (∀ h, reconnectTimeoutId s = Some h ∨ pingIntervalId s = Some h →
          h < Z.pos (nextHandle s))
  ∧ (∀ h, reconnectTimeoutId s = Some h → pingIntervalId s ≠ Some h).

(** A registered observer was last told the status the manager is in. *)
Definition observer_informed (s : State) : Prop :=
  onStatusChangeCallback s = true →
  ∃ details earlier, callbacks (trace s) = (currentStatus s, details) :: earlier.

(** From [s] to [s']: the registration of the observer stands, the calls
    made to it are added to the earlier ones ([told], newest first), and
    while an observer is registered the newest call carries the status
    [s'] is in, no call at all meaning that the status is the one of [s];
    without an observer no call is made. *)
Definition status_delivered (s s' : State) : Prop :=
  onStatusChangeCallback s' = onStatusChangeCallback s
  ∧ ∃ told,
      callbacks (trace s') = told ++ callbacks (trace s)
      ∧ (onStatusChangeCallback s = true →
         currentStatus s' = match told with
                            | [] => currentStatus s
                            | (status, _) :: _ => status
                            end)
      ∧ (onStatusChangeCallback s = false → told = []).

(** [Math.random()] returns a number in [0, 1). *)
Definition unit_interval (Math_random : nat → Q) : Prop :=
  ∀ n, (0 <= Math_random n)%Q ∧ (Math_random n < 1)%Q.

(** The delay line 266 computes from base delay [d] and random draw [r]. *)
Definition delayWithJitter (d : Z) (r : Q) : Q :=
  Binary64.add (inject_Z d) (Binary64.mul r (inject_Z RECONNECT_JITTER_MS)).

(** The URL [connect] opens for a token (line 297). *)
Definition wsUrl (WEBSOCKET_PROXY_URL : option string) (jwtToken : string) : string :=
  BASE_WEBSOCKET_URL WEBSOCKET_PROXY_URL +:+ "?auth_token=" +:+ jwtToken.

(** Bytes below 0x80. *)
Definition ascii_bytes (chunk : list byte) : Prop :=
  Forall (λ b, byte_value b < 0x80) chunk.

(** ** The callers: the header component's buttons (lines 69-122 of its
    file) and the app component's click handlers (lines 309-331 of its
    file)

    [webSocketStatus] is the status the observer was last told. *)

Definition isWsBusy (webSocketStatus : WebSocketProxyStatus) : bool :=
  bool_decide (webSocketStatus = CONNECTING) || bool_decide (webSocketStatus = RECONNECTING).

Definition isWsConnected (webSocketStatus : WebSocketProxyStatus) : bool :=
  bool_decide (webSocketStatus = CONNECTED).

(** Whether each button is rendered, and its [disabled] attribute. *)
Definition connect_button_rendered (webSocketStatus : WebSocketProxyStatus) : bool :=
  negb (isWsConnected webSocketStatus) && negb (isWsBusy webSocketStatus).

Definition connect_button_disabled (isLoading : bool)
    (webSocketStatus : WebSocketProxyStatus) : bool :=
  isLoading || isWsBusy webSocketStatus.

Definition disconnect_button_rendered (webSocketStatus : WebSocketProxyStatus) : bool :=
  isWsConnected webSocketStatus || isWsBusy webSocketStatus.

Definition disconnect_button_disabled (isLoading : bool)
    (webSocketStatus : WebSocketProxyStatus) : bool :=
  isLoading || bool_decide (webSocketStatus = CONNECTING).

(** What a click handler asks of the manager. *)
Inductive HandlerCall :=
| calls_connect (jwtToken : string)
| calls_disconnect
| reports_missing_token
| calls_nothing.

Definition handleWebSocketConnect (jwtToken : option string)
    (webSocketStatus : WebSocketProxyStatus) : HandlerCall :=
  if negb (truthy jwtToken) then reports_missing_token
  else if negb (bool_decide (webSocketStatus = CONNECTED))
          && negb (bool_decide (webSocketStatus = CONNECTING))
       then calls_connect (default EmptyString jwtToken)
       else calls_nothing.

Definition handleWebSocketDisconnect (webSocketStatus : WebSocketProxyStatus)
  : HandlerCall :=
  if bool_decide (webSocketStatus = CONNECTED)
     || bool_decide (webSocketStatus = CONNECTING)
     || bool_decide (webSocketStatus = RECONNECTING)
  then calls_disconnect else calls_nothing.

(** The app component's busy flag (line 382 of its file), which is what
    it passes to the header as [isLoading] (line 389). *)
Definition isUIBusy (isLoading isModelsLoading : bool)
    (webSocketStatus : WebSocketProxyStatus) : bool :=
  isLoading || isModelsLoading || bool_decide (webSocketStatus = CONNECTING).

(** A click on one of the two buttons of the header as the app renders
    it: a button that is not rendered cannot be clicked, a disabled one
    dispatches no click, and otherwise the app's handler runs. *)
Inductive Button := connect_button | disconnect_button.

Definition click (b : Button) (isLoading isModelsLoading : bool)
    (jwtToken : option string) (webSocketStatus : WebSocketProxyStatus) : HandlerCall :=
  let busy := isUIBusy isLoading isModelsLoading webSocketStatus in
  match b with
  | connect_button =>
      if connect_button_rendered webSocketStatus
         && negb (connect_button_disabled busy webSocketStatus)
      then handleWebSocketConnect jwtToken webSocketStatus
      else calls_nothing
  | disconnect_button =>
      if disconnect_button_rendered webSocketStatus
         && negb (disconnect_button_disabled busy webSocketStatus)
      then handleWebSocketDisconnect webSocketStatus
      else calls_nothing
  end.

(** *** More sample states

    A retry pending while a socket is connecting: [connect("a")], the
    socket closing with code 1006, and [connect("a")] called again before
    the timer fires. *)
Definition sample_overlapping : State :=
  default initial
    (run None sample_JSON_parse sample_WebSocket_throws sample_Math_random
       [Call_connect "a"; Socket_close 0 1006 EmptyString; Call_connect "a"] initial).

(** * Properties *)

(** ** Streaming decoding *)

Lemma utf8_run_app d a b :
  Utf8.run d (a ++ b) =
  ((Utf8.run (Utf8.run d a).1 b).1, (Utf8.run d a).2 ++ (Utf8.run (Utf8.run d a).1 b).2).
Proof.
  revert d. induction a as [|x a IH]; intros d; simpl.
  - by destruct (Utf8.run d b).
  - destruct (Utf8.handler d x) as [d1 o1]. rewrite IH.
    destruct (Utf8.run d1 a) as [d2 o2]; simpl.
    destruct (Utf8.run d2 b) as [d3 o3]; simpl.
    by rewrite app_assoc.
Qed.

Lemma serialize_io_queue_app bom a b :
  serialize_io_queue bom (a ++ b) =
  ((serialize_io_queue (serialize_io_queue bom a).1 b).1,
   (serialize_io_queue bom a).2 ++ (serialize_io_queue (serialize_io_queue bom a).1 b).2).
Proof.
  destruct a as [|x a]; simpl.
  - by destruct (serialize_io_queue bom b).
  - destruct b as [|y b]; simpl.
    + by rewrite !app_nil_r.
    + by destruct (negb bom && (x =? 65279)).
Qed.

Lemma streaming_keeps t :
  streaming t → (if do_not_flush t then t else new_TextDecoder) = t.
Proof. intros [H | ->]; [by rewrite H | done]. Qed.

Lemma decode_stream_streaming input t : streaming (decode input true t).1.
Proof.
  left. unfold decode.
  destruct (Utf8.run _ _) as [d1 o1].
  by destruct (serialize_io_queue _ _).
Qed.

(** Decoding [a ++ b] in one call is decoding [a] with [stream: true] and
    then [b] with the decoder that call leaves behind. *)
Lemma decode_app a b t :
  streaming t →
  (decode (a ++ b) false t).2 =
  (decode a true t).2 ++ (decode b false (decode a true t).1).2.
Proof.
  intros Ht. unfold decode at 1 2 4. rewrite (streaming_keeps t Ht).
  rewrite map_app, utf8_run_app.
  destruct (Utf8.run (decoder t) (map byte_value a)) as [d1 o1] eqn:Ea; simpl.
  rewrite app_nil_r.
  destruct (serialize_io_queue (BOM_seen t) o1) as [bom1 q1] eqn:Es; simpl.
  unfold decode; simpl.
  destruct (Utf8.run d1 (map byte_value b)) as [d2 o2]; simpl.
  destruct (Utf8.finish d2) as [d3 o3]; simpl.
  rewrite <- app_assoc, serialize_io_queue_app, Es; simpl.
  destruct (serialize_io_queue bom1 (o2 ++ o3)) as [bom2 q2]; simpl.
  by rewrite flat_map_app.
Qed.

(** The loop sends one chunk message per read, and what it has sent so
    far together with what is still to be decoded is the whole text. *)
Lemma read_loop_sent id t chunks :
  streaming t →
  ∃ datas,
    (read_loop id t chunks).2 = map (λ d, SendToServer (WSStreamChunkMessage id d)) datas
    ∧ length datas = length chunks
    ∧ streaming (read_loop id t chunks).1
    ∧ ∀ tail, (decode (concat chunks ++ tail) false t).2
              = concat datas ++ (decode tail false (read_loop id t chunks).1).2.
Proof.
  revert t. induction chunks as [|value rest IH]; intros t Ht; simpl.
  - by exists [].
  - destruct (decode value true t) as [t1 chunkData] eqn:E.
    assert (streaming t1) as Ht1.
    { replace t1 with (decode value true t).1 by by rewrite E.
      apply decode_stream_streaming. }
    destruct (IH t1 Ht1) as (datas & Hs & Hl & Hst & Hd).
    destruct (read_loop id t1 rest) as [t2 acts]; simpl in *.
    exists (chunkData :: datas). repeat split; simpl; [by rewrite Hs | by rewrite Hl | done |].
    intros tail. rewrite <- app_assoc, decode_app by done.
    by rewrite E, Hd, app_assoc.
Qed.

(** ** What the dispatcher sends *)

Lemma sent_app a b : sent (a ++ b) = sent a ++ sent b.
Proof. apply omap_app. Qed.

Lemma sent_chunks id datas :
  sent (map (λ d, SendToServer (WSStreamChunkMessage id d)) datas)
  = map (WSStreamChunkMessage id) datas.
Proof. induction datas as [|d datas IH]; simpl; [done | by rewrite <- IH]. Qed.

Lemma sent_on_fetch_error id method url e :
  ∃ code http_response,
    sent (on_fetch_error id method url e)
    = [WSErrorMessage id code (error_message e) http_response].
Proof.
  unfold on_fetch_error.
  destruct e as [m | st text | str]; simpl; [by eexists _, _ | | by eexists _, _].
  destruct (st =? 0); by eexists _, _.
Qed.

Section DispatcherFacts.

Variable new_URL : string → option URL.
Variable URL_toString : URL → string.

Lemma egress_url_silent id method url :
  sent (egress_url new_URL URL_toString id method url).2 = []
  ∧ fetched (egress_url new_URL URL_toString id method url).2 = [].
Proof.
  unfold egress_url. destruct (String.eqb method "GET"); [|done].
  destruct (new_URL url) as [u|]; [|done].
  destruct (_ || _); [|done].
  by destruct (searchParams_has "key" u).
Qed.

Lemma sent_handleHttpRequest request outcome :
  sent (handleHttpRequest new_URL URL_toString request outcome)
  = match outcome with
    | Rejected e =>
        sent (on_fetch_error (id request) (method (payload request))
                (egress_url new_URL URL_toString (id request)
                   (method (payload request)) (url (payload request))).1 e)
    | Resolved response =>
        sent (relay (id request) (method (payload request))
                (egress_url new_URL URL_toString (id request)
                   (method (payload request)) (url (payload request))).1 response)
    end.
Proof.
  unfold handleHttpRequest.
  pose proof (egress_url_silent (id request) (method (payload request))
                (url (payload request))) as [Hs _].
  destruct (egress_url _ _ _ _ _) as [url' logs]; simpl in *.
  rewrite sent_app, Hs; simpl. by destruct outcome.
Qed.

(** Every run ends with a terminal message, sends none before it, and
    tags all it sends with the request's id. *)
Lemma sent_shape request outcome :
  ∃ front last,
    sent (handleHttpRequest new_URL URL_toString request outcome) = front ++ [last]
    ∧ terminal last = true
    ∧ Forall (λ m, terminal m = false) front
    ∧ Forall (λ m, message_id m = Some (id request)) (front ++ [last]).
Proof.
  rewrite sent_handleHttpRequest.
  set (i := id request). set (m := method (payload request)).
  generalize ((egress_url new_URL URL_toString i m (url (payload request))).1).
  intros u. clearbody i m.
  assert (∀ e, ∃ last, sent (on_fetch_error i m u e) = [last]
                       ∧ terminal last = true ∧ message_id last = Some i) as Herr.
  { intros e. destruct (sent_on_fetch_error i m u e) as (c & h & ->). by eexists. }
  destruct outcome as [e | response].
  { destruct (Herr e) as (last & -> & Ht & Hi). exists [], last.
    repeat split; simpl; auto. }
  unfold relay. destruct (response_body response) as [chunks failure | [text | e]].
  - destruct (read_loop_sent i new_TextDecoder chunks) as (datas & Hs & _ & _ & _);
      [by right |].
    destruct (read_loop i new_TextDecoder chunks) as [t acts]; simpl in *. subst acts.
    assert (Forall (λ x, terminal x = false) (map (WSStreamChunkMessage i) datas)) as Hnt.
    { apply Forall_forall. intros x Hx. apply list_elem_of_fmap in Hx as (d & -> & _). done. }
    assert (Forall (λ x, message_id x = Some i) (map (WSStreamChunkMessage i) datas)) as Hid.
    { apply Forall_forall. intros x Hx. apply list_elem_of_fmap in Hx as (d & -> & _). done. }
    destruct failure as [e|].
    + destruct (Herr e) as (last & Hl & Ht & Hi).
      exists (WSStreamStartMessage i (status response)
                (collect_headers (response_headers response))
              :: map (WSStreamChunkMessage i) datas), last.
      simpl. rewrite sent_app, sent_chunks, Hl. repeat split; auto.
      constructor; [done|]. apply Forall_app; split; auto.
    + set (final := match (decode [] false t).2 with
                    | [] => []
                    | _ :: _ => [SendToServer (WSStreamChunkMessage i (decode [] false t).2)]
                    end).
      assert (∃ fs, sent final = map (WSStreamChunkMessage i) fs) as [fs Hfs].
      { subst final. destruct (decode [] false t).2 as [|c cs]; [by exists [] |].
        by exists [c :: cs]. }
      exists (WSStreamStartMessage i (status response)
                (collect_headers (response_headers response))
              :: map (WSStreamChunkMessage i) (datas ++ fs)), (WSStreamEndMessage i).
      simpl. rewrite !sent_app, sent_chunks, Hfs, map_app, <- app_assoc. simpl.
      rewrite <- map_app.
      assert (∀ P : WSClientSentMessage → Prop,
                (∀ d, P (WSStreamChunkMessage i d)) →
                Forall P (map (WSStreamChunkMessage i) (datas ++ fs))) as Hall.
      { intros P HP. apply Forall_forall. intros x Hx.
        apply list_elem_of_fmap in Hx as (d & -> & _). apply HP. }
      split; [done|]. split; [done|]. split.
      * constructor; [done | by apply Hall].
      * constructor; [done|]. rewrite app_assoc, <- map_app.
        apply Forall_app; split; [by apply Hall | by repeat constructor].
  - exists [], (WSHttpResponseMessage i (status response)
                  (collect_headers (response_headers response)) text).
    repeat split; simpl; auto.
  - destruct (Herr e) as (last & -> & Ht & Hi). exists [], last.
    repeat split; simpl; auto.
Qed.

End DispatcherFacts.

Lemma filter_terminal_none (l : list WSClientSentMessage) :
  Forall (λ m, terminal m = false) l → filter (λ m, terminal m = true) l = [].
Proof.
  induction 1 as [|m l Hm _ IH]; [done|].
  rewrite filter_cons_False by congruence. exact IH.
Qed.

Lemma fetched_app a b : fetched (a ++ b) = fetched a ++ fetched b.
Proof. apply omap_app. Qed.

Lemma fetched_on_fetch_error id method url e :
  fetched (on_fetch_error id method url e) = [].
Proof.
  unfold on_fetch_error. destruct e as [m | st text | str]; simpl; try done.
  by destruct (st =? 0).
Qed.

Lemma fetched_relay id method url response :
  fetched (relay id method url response) = [].
Proof.
  unfold relay. destruct (response_body response) as [chunks failure | [text | e]];
    [| done | apply fetched_on_fetch_error].
  destruct (read_loop_sent id new_TextDecoder chunks) as (datas & Hs & _); [by right |].
  destruct (read_loop id new_TextDecoder chunks) as [t acts]; simpl in *. subst acts.
  rewrite fetched_app.
  assert (fetched (map (λ d, SendToServer (WSStreamChunkMessage id d)) datas) = []) as ->.
  { induction datas; simpl; auto. }
  destruct failure as [e|]; simpl; [apply fetched_on_fetch_error |].
  rewrite fetched_app. by destruct (decode [] false t).2.
Qed.

(** The outbound call is issued exactly once, with the URL of lines 64-79. *)
Lemma fetched_handleHttpRequest new_URL URL_toString request outcome :
  fetched (handleHttpRequest new_URL URL_toString request outcome)
  = [(egress_url new_URL URL_toString (id request) (method (payload request))
        (url (payload request))).1].
Proof.
  unfold handleHttpRequest.
  pose proof (egress_url_silent new_URL URL_toString (id request)
                (method (payload request)) (url (payload request))) as [_ Hf].
  destruct (egress_url _ _ _ _ _) as [url' logs]; simpl in *.
  rewrite fetched_app, Hf; simpl. f_equal.
  destruct outcome; [apply fetched_on_fetch_error | apply fetched_relay].
Qed.

Lemma searchParams_delete_spec name u :
  (name ∉ (searchParams (searchParams_delete name u)).*1)
  ∧ (filter (λ p, p.1 ≠ name) (searchParams (searchParams_delete name u))
     = filter (λ p, p.1 ≠ name) (searchParams u)).
Proof.
  unfold searchParams_delete; simpl. split.
  - intros Hin. apply list_elem_of_fmap in Hin as (p & Hp & Hin).
    apply list_elem_of_filter in Hin as [Hne _]. by apply Hne.
  - induction (searchParams u) as [|p l IH]; [done|].
    destruct (decide (p.1 = name)) as [E|E].
    + rewrite !filter_cons_False by (intros ?; contradiction). exact IH.
    + rewrite !(filter_cons_True _ p l) by done.
      rewrite (filter_cons_True _ p) by done. by rewrite IH.
Qed.

(** ** The dispatcher's claims *)

(** C1: every run of [handleHttpRequest] for a request with id X, whether
    [fetch] rejects, resolves with a readable body (whose reads end or
    fail) or with a body read as text, passes exactly one terminal message
    ([http_response], [stream_end] or [error]) to [sendToServer]; that
    message carries id X and is the last one sent. *)
Theorem C1_exactly_one_terminal_message new_URL URL_toString request outcome :
  let msgs := sent (handleHttpRequest new_URL URL_toString request outcome) in
  length (filter (λ m, terminal m = true) msgs) = 1%nat
  ∧ Forall (λ m, message_id m = Some (id request)) msgs
  ∧ (∃ front last, msgs = front ++ [last] ∧ terminal last = true
                   ∧ message_type last ∈ ["http_response"; "stream_end"; "error"]).
Proof.
  simpl.
  destruct (sent_shape new_URL URL_toString request outcome)
    as (front & last & -> & Hlast & Hfront & Hids).
  split; [| split].
  - rewrite filter_app, (filter_terminal_none front Hfront); simpl.
    by rewrite filter_cons_True, filter_nil.
  - exact Hids.
  - exists front, last. repeat split; auto.
    destruct last; try discriminate; simpl; set_solver.
Qed.

(** C4: the outbound call is made once. For a GET whose URL parses to a
    path ending in /v1beta/models or /v1beta/models/ and carrying a [key]
    parameter, it is made with the serialisation of that URL without any
    [key] parameter, every other parameter and every other component kept;
    without a [key] parameter, for any other path, for any other method
    and for a URL that does not parse it is made with the URL as
    received. *)
Theorem C4_key_stripped_for_model_listing new_URL URL_toString request outcome :
  let p := payload request in
  let out := fetched (handleHttpRequest new_URL URL_toString request outcome) in
  (∀ u, method p = "GET" → new_URL (url p) = Some u →
        models_path (pathname u) = true → searchParams_has "key" u = true →
        let u' := searchParams_delete "key" u in
        out = [URL_toString u']
        ∧ ("key" ∉ (searchParams u').*1)
        ∧ (filter (λ q, q.1 ≠ "key") (searchParams u')
           = filter (λ q, q.1 ≠ "key") (searchParams u))
        ∧ (origin_part u', pathname u', hash u') = (origin_part u, pathname u, hash u))
  ∧ (∀ u, method p = "GET" → new_URL (url p) = Some u →
          models_path (pathname u) = true → searchParams_has "key" u = false →
          out = [url p])
  ∧ (∀ u, new_URL (url p) = Some u → models_path (pathname u) = false →
          out = [url p])
  ∧ (method p ≠ "GET" → out = [url p])
  ∧ (new_URL (url p) = None → out = [url p]).
Proof.
  simpl. rewrite fetched_handleHttpRequest. unfold egress_url, models_path.
  split; [| repeat split].
  - intros u Hm Hu Hp Hk. apply String.eqb_eq in Hm. rewrite Hm, Hu, Hp, Hk.
    split; [done|]. split; [apply searchParams_delete_spec|].
    split; [apply searchParams_delete_spec | done].
  - intros u Hm Hu Hp Hk. apply String.eqb_eq in Hm. by rewrite Hm, Hu, Hp, Hk.
  - intros u Hu Hp. destruct (String.eqb _ "GET"); [|done]. by rewrite Hu, Hp.
  - intros Hm. apply String.eqb_neq in Hm. by rewrite Hm.
  - intros Hu. destruct (String.eqb _ "GET"); [|done]. by rewrite Hu.
Qed.

(** C4 on the specification's example, with the parser for plain URLs. *)
Lemma C4_witness :
  fetched (handleHttpRequest PlainURL.new_URL PlainURL.toString
             (mkRequest "X" (mkPayload "GET" "https://h/v1beta/models?key=SECRET&x=1"
                               ∅ None))
             (Rejected (ErrorObject "offline")))
  = ["https://h/v1beta/models?x=1"]
  ∧ fetched (handleHttpRequest PlainURL.new_URL PlainURL.toString
               (mkRequest "X" (mkPayload "GET" "https://h/v1beta/chat?key=SECRET&x=1"
                                 ∅ None))
               (Rejected (ErrorObject "offline")))
    = ["https://h/v1beta/chat?key=SECRET&x=1"]
  ∧ fetched (handleHttpRequest PlainURL.new_URL PlainURL.toString
               (mkRequest "X" (mkPayload "POST" "https://h/v1beta/models?key=SECRET&x=1"
                                 ∅ None))
               (Rejected (ErrorObject "offline")))
    = ["https://h/v1beta/models?key=SECRET&x=1"]
  ∧ fetched (handleHttpRequest PlainURL.new_URL PlainURL.toString
               (mkRequest "X" (mkPayload "GET" "/v1beta/models?key=SECRET" ∅ None))
               (Rejected (ErrorObject "offline")))
    = ["/v1beta/models?key=SECRET"].
Proof.
  split; [| split; [| split]].
  - refine (proj1 (proj1 (C4_key_stripped_for_model_listing
                            PlainURL.new_URL PlainURL.toString _ _)
                     (mkURL "https://h" "/v1beta/models" [("key", "SECRET"); ("x", "1")]
                            EmptyString) _ _ _ _));
      reflexivity.
  - refine (proj1 (proj2 (proj2 (C4_key_stripped_for_model_listing
                                   PlainURL.new_URL PlainURL.toString _ _)))
              (mkURL "https://h" "/v1beta/chat" [("key", "SECRET"); ("x", "1")]
                     EmptyString) _ _);
      reflexivity.
  - refine (proj1 (proj2 (proj2 (proj2 (C4_key_stripped_for_model_listing
                                          PlainURL.new_URL PlainURL.toString _ _)))) _).
    discriminate.
  - refine (proj2 (proj2 (proj2 (proj2 (C4_key_stripped_for_model_listing
                                          PlainURL.new_URL PlainURL.toString _ _)))) _).
    reflexivity.
Defined.

(** C5: for a streamed response whose reads end normally, the messages
    sent are [stream_start], one [stream_chunk] per read, at most one more
    [stream_chunk] holding the non-empty residue the decoder flushes, and
    [stream_end]; the [data] fields, concatenated, are the text
    [TextDecoder] gives for the whole byte sequence in one call, wherever
    the chunk boundaries fall. *)
Theorem C5_chunks_concatenate_to_whole_decoding
    new_URL URL_toString request st hs chunks :
  let msgs := sent (handleHttpRequest new_URL URL_toString request
                      (Resolved (mkResponse st hs (Readable chunks None)))) in
  stream_text msgs = (decode (concat chunks) false new_TextDecoder).2
  ∧ ∃ per_read residue,
      msgs = WSStreamStartMessage (id request) st (collect_headers hs)
             :: map (WSStreamChunkMessage (id request)) (per_read ++ residue)
             ++ [WSStreamEndMessage (id request)]
      ∧ length per_read = length chunks
      ∧ (residue = [] ∨ ∃ d, residue = [d] ∧ d ≠ []).
Proof.
  intros msgs.
  assert (∃ per_read residue,
            msgs = WSStreamStartMessage (id request) st (collect_headers hs)
                   :: map (WSStreamChunkMessage (id request)) (per_read ++ residue)
                   ++ [WSStreamEndMessage (id request)]
            ∧ length per_read = length chunks
            ∧ (residue = [] ∨ ∃ d, residue = [d] ∧ d ≠ [])
            ∧ concat (per_read ++ residue)
              = (decode (concat chunks) false new_TextDecoder).2)
    as (per_read & residue & Hmsgs & Hlen & Hres & Htext).
  { subst msgs. rewrite sent_handleHttpRequest. unfold relay; simpl.
    set (i := id request).
    destruct (read_loop_sent i new_TextDecoder chunks) as (datas & Hs & Hl & _ & Hd);
      [by right |].
    destruct (read_loop i new_TextDecoder chunks) as [t acts]; simpl in *. subst acts.
    specialize (Hd []). rewrite app_nil_r in Hd. rewrite Hd.
    rewrite !sent_app, sent_chunks.
    destruct (decode [] false t).2 as [|c cs] eqn:Ef; simpl.
    - exists datas, []. rewrite !app_nil_r. auto.
    - exists datas, [c :: cs]. rewrite map_app, <- app_assoc, concat_app; simpl.
      rewrite app_nil_r. repeat split; auto. right. by exists (c :: cs). }
  split; [| by exists per_read, residue].
  rewrite Hmsgs, <- Htext. unfold stream_text. f_equal.
  change (omap chunk_data (map (WSStreamChunkMessage (id request)) (per_read ++ residue)
                           ++ [WSStreamEndMessage (id request)])
          = per_read ++ residue).
  rewrite omap_app; simpl. rewrite app_nil_r.
  clear. induction (per_read ++ residue) as [|d ds IH]; [done|].
  simpl. f_equal. exact IH.
Qed.

(** C6 fails on the code: the read loop sends a [stream_chunk] for every
    read. A body read as the byte E2 and then the bytes 82 AC (the euro
    sign split after its first byte) yields an empty [stream_chunk] for
    the first read. *)
Theorem C6_empty_chunk_is_sent new_URL URL_toString :
  (decode [xe2] true new_TextDecoder).2 = []
  ∧ sent (handleHttpRequest new_URL URL_toString
            (mkRequest "X" (mkPayload "POST" "https://h/v1beta/chat" ∅ None))
            (Resolved (mkResponse 200 [] (Readable [[xe2]; [x82; xac]] None))))
    = [ WSStreamStartMessage "X" 200 ∅;
        WSStreamChunkMessage "X" [];
        WSStreamChunkMessage "X" [0x20AC];
        WSStreamEndMessage "X" ].
Proof. split; reflexivity. Qed.

(** ** The connection manager: what each function leaves alone *)

Local Arguments updateStatus : simpl never.
Local Arguments sendToServer : simpl never.
Local Arguments stopPing : simpl never.
Local Arguments startPing : simpl never.
Local Arguments clearTimeout : simpl never.
Local Arguments clearInterval : simpl never.
Local Arguments emit : simpl never.

Section Frames.

Context {T : Type} (f : State → T).

Lemma emit_frame e s :
  (∀ v x, f (set_trace v x) = f x) → f (emit e s) = f s.
Proof. intros H. apply H. Qed.

Lemma updateStatus_frame newStatus details s :
  (∀ v x, f (set_trace v x) = f x) →
  (∀ v x, f (set_currentStatus v x) = f x) →
  f (updateStatus newStatus details s) = f s.
Proof.
  intros Ht Hs. unfold updateStatus, emit.
  destruct (_ && _); [done|]. rewrite Ht.
  destruct (onStatusChangeCallback _); by rewrite ?Ht, Hs.
Qed.

Lemma sendToServer_frame m s :
  (∀ v x, f (set_trace v x) = f x) → f (sendToServer m s) = f s.
Proof.
  intros Ht. unfold sendToServer, emit.
  destruct (socket s); [|done]. destruct (held_readyState s); [|done].
  by destruct (_ =? _).
Qed.

Lemma stopPing_frame s :
  (∀ v x, f (set_trace v x) = f x) →
  (∀ v x, f (set_intervals v x) = f x) →
  (∀ v x, f (set_pingIntervalId v x) = f x) →
  f (stopPing s) = f s.
Proof.
  intros Ht Hi Hp. unfold stopPing, clearInterval, emit.
  destruct (truthy_number _); [|done]. by rewrite Hp, Ht, Hi.
Qed.

Lemma startPing_frame s :
  (∀ v x, f (set_trace v x) = f x) →
  (∀ v x, f (set_intervals v x) = f x) →
  (∀ v x, f (set_pingIntervalId v x) = f x) →
  (∀ v x, f (set_nextHandle v x) = f x) →
  f (startPing s) = f s.
Proof.
  intros Ht Hi Hp Hn. unfold startPing, emit.
  by rewrite Hp, Ht, Hi, Hn, stopPing_frame.
Qed.

End Frames.

(** [sendToServer] is best effort: the message goes out on the socket
    held when that socket is open, and is dropped with a warning
    otherwise. *)
Lemma sendToServer_open k m s :
  socket s = Some k → held_readyState s = Some WS_OPEN →
  sendToServer m s = emit (SocketSend k m) s.
Proof. intros Hk Hr. unfold sendToServer. by rewrite Hk, Hr. Qed.

Lemma sendToServer_dropped m s :
  held_readyState s ≠ Some WS_OPEN →
  sendToServer m s
  = emit (ConsoleCall warn "WebSocket Proxy: Cannot send message, socket not open.") s.
Proof.
  intros Hr. unfold sendToServer.
  destruct (socket s); [| done]. destruct (held_readyState s) as [r|]; [| done].
  destruct (r =? WS_OPEN) eqn:E; [| done].
  apply Z.eqb_eq in E. by subst.
Qed.

(** Rewriting a projection through the functions that do not assign it. *)
Ltac frame f :=
  repeat first
    [ rewrite (updateStatus_frame f) by done
    | rewrite (sendToServer_frame f) by done
    | rewrite (stopPing_frame f) by done
    | rewrite (startPing_frame f) by done
    | rewrite (emit_frame f) by done ].

(** The same for what is read off the trace. *)
Section TraceFrames.

Context {T : Type} (g : Effect → option T).
Hypothesis g_status : ∀ a b, g (StatusCallback a b) = None.
Hypothesis g_console : ∀ a b, g (ConsoleCall a b) = None.

Lemma updateStatus_omap newStatus details s :
  omap g (trace (updateStatus newStatus details s)) = omap g (trace s).
Proof.
  unfold updateStatus, emit. destruct (_ && _); [done|]. simpl.
  rewrite g_console. destruct (onStatusChangeCallback s); simpl; [|done].
  by rewrite g_status.
Qed.

Hypothesis g_send : ∀ a b, g (SocketSend a b) = None.

Lemma sendToServer_omap m s :
  omap g (trace (sendToServer m s)) = omap g (trace s).
Proof.
  unfold sendToServer, emit.
  destruct (socket s); simpl; [| by rewrite g_console].
  destruct (held_readyState s); simpl; [| by rewrite g_console].
  destruct (_ =? _); simpl; by rewrite ?g_console, ?g_send.
Qed.

Hypothesis g_clearInterval : ∀ a, g (ClearInterval a) = None.

Lemma stopPing_omap s : omap g (trace (stopPing s)) = omap g (trace s).
Proof.
  unfold stopPing, clearInterval, emit. destruct (truthy_number _); [|done].
  simpl. by rewrite g_clearInterval.
Qed.

Hypothesis g_setInterval : ∀ a b, g (SetInterval a b) = None.

Lemma startPing_omap s : omap g (trace (startPing s)) = omap g (trace s).
Proof.
  unfold startPing, emit. simpl. by rewrite g_setInterval, stopPing_omap.
Qed.

End TraceFrames.

Lemma clearTimeout_frame {T} (f : State → T) h s :
  (∀ v x, f (set_trace v x) = f x) →
  (∀ v x, f (set_timeouts v x) = f x) →
  f (clearTimeout h s) = f s.
Proof. intros Ht Hs. unfold clearTimeout, emit. by rewrite Ht, Hs. Qed.

Local Arguments connect : simpl never.
Local Arguments disconnect : simpl never.
Local Arguments onSocketOpen : simpl never.
Local Arguments onSocketClose : simpl never.
Local Arguments onSocketMessage : simpl never.
Local Arguments onSocketError : simpl never.
Local Arguments scheduleReconnect : simpl never.
Local Arguments setOnStatusChange : simpl never.
Local Arguments reconnect_timeout : simpl never.
Local Arguments ping_interval : simpl never.
Local Arguments String.append : simpl never.
Local Arguments pretty : simpl never.
Local Arguments Math_round : simpl never.
Local Arguments Z.min : simpl never.
Local Arguments Z.mul : simpl never.
Local Arguments Qplus : simpl never.
Local Arguments Qmult : simpl never.
Local Arguments Qdiv : simpl never.

(** Reading a successful [step] back: which function ran, on which state. *)
Ltac step_inv H :=
  unfold step in H;
  repeat match type of H with
         | (?x ≫= _) = Some _ => destruct x eqn:Hsock; [simpl in H | discriminate H]
         | (if ?c then _ else _) = Some _ => destruct c eqn:Hguard; try discriminate H
         end;
  injection H as <-.

(** ** The connection manager: the base delay *)

Section ManagerFacts.

Variable WEBSOCKET_PROXY_URL : option string.
Variable JSON_parse : string → option JSON.
Variable WebSocket_throws : string → option string.
Variable Math_random : nat → Q.

Local Abbreviation connect' := (connect WEBSOCKET_PROXY_URL WebSocket_throws Math_random).
Local Abbreviation step' :=
  (step WEBSOCKET_PROXY_URL JSON_parse WebSocket_throws Math_random).
Local Abbreviation run' :=
  (run WEBSOCKET_PROXY_URL JSON_parse WebSocket_throws Math_random).
Local Abbreviation reachable' :=
  (reachable WEBSOCKET_PROXY_URL JSON_parse WebSocket_throws Math_random).

Ltac delay_frame :=
  repeat (simpl; frame currentReconnectDelay;
          rewrite ?(clearTimeout_frame currentReconnectDelay) by done).

Lemma delay_scheduleReconnect s : delay_moves s (scheduleReconnect Math_random s).
Proof.
  unfold delay_moves, scheduleReconnect.
  destruct (_ || _); [left; by delay_frame | right].
  delay_frame. by destruct (truthy_number _); delay_frame.
Qed.

Lemma delay_scheduleReconnect_armed s :
  explicitClose s = false → truthy (currentJwtToken s) = true →
  currentReconnectDelay (scheduleReconnect Math_random s)
  = Z.min (currentReconnectDelay s * 2) RECONNECT_MAX_DELAY_MS.
Proof.
  intros He Ht. unfold scheduleReconnect. rewrite He, Ht. simpl.
  delay_frame. by destruct (truthy_number _); delay_frame.
Qed.

Lemma delay_moves_refl s : delay_moves s s.
Proof. by left. Qed.

Lemma delay_moves_eq s s' s'' :
  currentReconnectDelay s = currentReconnectDelay s' →
  delay_moves s' s'' → delay_moves s s''.
Proof. unfold delay_moves. intros ->. done. Qed.

Lemma delay_onSocketClose code reason s :
  delay_moves s (onSocketClose Math_random code reason s).
Proof.
  unfold onSocketClose. destruct (truthy_number _).
  { left. by delay_frame. }
  destruct (explicitClose _).
  { left. by delay_frame. }
  simpl. eapply delay_moves_eq; [| apply delay_scheduleReconnect]. by delay_frame.
Qed.

Lemma delay_connect jwtToken s : delay_moves s (connect' jwtToken s).
Proof.
  unfold connect. destruct (negb _); [left; by delay_frame |].
  destruct (open_or_connecting _); [left; by delay_frame |].
  destruct (WebSocket_throws _); [| left; by delay_frame].
  eapply delay_moves_eq; [| apply delay_scheduleReconnect]. by delay_frame.
Qed.

Lemma delay_disconnect s : delay_moves s (disconnect Math_random s).
Proof.
  unfold disconnect. simpl.
  set (s1 := stopPing _).
  assert (currentReconnectDelay s = currentReconnectDelay s1) as E.
  { subst s1. destruct (truthy_number _); by delay_frame. }
  eapply delay_moves_eq; [exact E |].
  destruct (socket s1); [| left; by delay_frame].
  destruct (open_or_connecting _); [left; by delay_frame |].
  apply delay_onSocketClose.
Qed.

Lemma delay_onSocketOpen s :
  currentReconnectDelay (onSocketOpen s) = RECONNECT_INITIAL_DELAY_MS.
Proof.
  unfold onSocketOpen. rewrite (startPing_frame currentReconnectDelay) by done.
  destruct (truthy_number _); [| reflexivity].
  change (currentReconnectDelay (clearTimeout ?h ?x) = ?r)
    with (currentReconnectDelay x = r).
  reflexivity.
Qed.

Lemma delay_step e s s' :
  step' e s = Some s' →
  if is_open e then currentReconnectDelay s' = RECONNECT_INITIAL_DELAY_MS
  else delay_moves s s'.
Proof.
  intros H. destruct e; step_inv H; simpl.
  - apply delay_connect.
  - apply delay_disconnect.
  - left. unfold setOnStatusChange. by destruct callback; delay_frame.
  - apply delay_onSocketOpen.
  - left. unfold onSocketMessage.
    destruct (JSON_parse data) as [[]|]; try by delay_frame.
    all: by repeat (destruct (is_tag _ _)); delay_frame.
  - left. unfold onSocketError. by delay_frame.
  - eapply delay_moves_eq; [| apply delay_onSocketClose]. done.
  - unfold reconnect_timeout. simpl. destruct (truthy _).
    + eapply delay_moves_eq; [| apply delay_connect]. done.
    + left. by delay_frame.
  - left. unfold ping_interval. by delay_frame.
  - left. by delay_frame.
Qed.

Lemma delay_in_bounds_moves s s' :
  delay_in_bounds s → delay_moves s s' →
  delay_in_bounds s' ∧ currentReconnectDelay s ≤ currentReconnectDelay s'.
Proof.
  unfold delay_in_bounds, delay_moves, RECONNECT_INITIAL_DELAY_MS,
    RECONNECT_MAX_DELAY_MS. lia.
Qed.

Lemma reachable_delay_in_bounds s : reachable' s → delay_in_bounds s.
Proof.
  induction 1 as [|e s s' _ IH Hstep].
  - unfold delay_in_bounds; simpl.
    unfold RECONNECT_INITIAL_DELAY_MS, RECONNECT_MAX_DELAY_MS. lia.
  - apply delay_step in Hstep. destruct (is_open e).
    + unfold delay_in_bounds. rewrite Hstep.
      unfold RECONNECT_INITIAL_DELAY_MS, RECONNECT_MAX_DELAY_MS. lia.
    + by apply (delay_in_bounds_moves s s').
Qed.

(** ** The connection manager: the reconnect timer *)

Lemma standing_updateStatus newStatus details s :
  standing (updateStatus newStatus details s) = standing s.
Proof.
  unfold standing, scheduled.
  rewrite (updateStatus_frame currentJwtToken), (updateStatus_frame reconnectTimeoutId),
    (updateStatus_frame timeouts) by done.
  by rewrite updateStatus_omap.
Qed.

Lemma standing_sendToServer m s : standing (sendToServer m s) = standing s.
Proof.
  unfold standing, scheduled.
  rewrite (sendToServer_frame currentJwtToken), (sendToServer_frame reconnectTimeoutId),
    (sendToServer_frame timeouts) by done.
  by rewrite sendToServer_omap.
Qed.

Lemma standing_stopPing s : standing (stopPing s) = standing s.
Proof.
  unfold standing, scheduled.
  rewrite (stopPing_frame currentJwtToken), (stopPing_frame reconnectTimeoutId),
    (stopPing_frame timeouts) by done.
  by rewrite stopPing_omap.
Qed.

Lemma standing_startPing s : standing (startPing s) = standing s.
Proof.
  unfold standing, scheduled.
  rewrite (startPing_frame currentJwtToken), (startPing_frame reconnectTimeoutId),
    (startPing_frame timeouts) by done.
  by rewrite startPing_omap.
Qed.

Lemma quiet_standing s s' : standing s' = standing s → quiet s → quiet s'.
Proof. unfold standing, quiet. intros [= -> -> -> _]. done. Qed.

Lemma standing_scheduleReconnect_refused s :
  explicitClose s || negb (truthy (currentJwtToken s)) = true →
  scheduleReconnect Math_random s
  = updateStatus IDLE
      (Some "Reconnection not attempted (explicit close or no token).") s.
Proof. intros H. unfold scheduleReconnect. by rewrite H. Qed.

Lemma standing_onSocketClose code reason s :
  quiet s → standing (onSocketClose Math_random code reason s) = standing s.
Proof.
  intros (Htok & Hid & Hto). unfold onSocketClose.
  rewrite (stopPing_frame reconnectTimeoutId), Hid by done. simpl.
  rewrite (stopPing_frame explicitClose) by done.
  destruct (explicitClose s).
  - change (standing (updateStatus IDLE
              (Some ("Connection closed by client. Code: " +:+ pretty code)) (stopPing s))
            = standing s).
    by rewrite standing_updateStatus, standing_stopPing.
  - rewrite standing_scheduleReconnect_refused.
    + match goal with
      | |- standing (set_socket None ?x) = _ => change (standing x = standing s)
      end.
      by rewrite !standing_updateStatus, standing_stopPing.
    + rewrite (updateStatus_frame currentJwtToken),
        (stopPing_frame currentJwtToken), Htok by done.
      apply orb_true_r.
Qed.

Lemma disconnect_quiet s :
  timer_tracked s →
  quiet (disconnect Math_random s)
  ∧ scheduled (trace (disconnect Math_random s)) = scheduled (trace s).
Proof.
  intros [Hto Hpos]. unfold disconnect.
  set (s1 := set_currentJwtToken None (set_explicitClose true s)).
  set (s2 := if truthy_number (reconnectTimeoutId s1)
             then set_reconnectTimeoutId None
                    (clearTimeout (default 0 (reconnectTimeoutId s1)) s1)
             else s1).
  assert (quiet s2 ∧ scheduled (trace s2) = scheduled (trace s)) as [Hq2 Htr2].
  { subst s2 s1. simpl. destruct (reconnectTimeoutId s) as [h|] eqn:Eh; simpl.
    - specialize (Hpos h eq_refl). replace (h =? 0) with false by lia. simpl.
      unfold quiet; simpl. rewrite Hto. rewrite filter_cons_False by (intros ?; done).
      done.
    - unfold quiet; simpl. by rewrite Hto. }
  set (s3 := stopPing s2).
  assert (standing s3 = standing s2) as H3 by apply standing_stopPing.
  assert (quiet s3) as Hq3 by by apply (quiet_standing s2).
  assert (∀ x, standing x = standing s3 →
               quiet (set_socket None x)
               ∧ scheduled (trace (set_socket None x)) = scheduled (trace s)) as Hend.
  { intros x Hx. split.
    - apply (quiet_standing s3); [| done]. rewrite <- Hx. done.
    - rewrite <- Htr2. change (scheduled (trace x) = scheduled (trace s2)).
      rewrite H3 in Hx. unfold standing in Hx. by simplify_eq. }
  simpl. apply Hend.
  destruct (socket s3) as [k|]; [| apply standing_updateStatus].
  destruct (open_or_connecting _); [done |].
  by apply standing_onSocketClose.
Qed.

Lemma quiet_tracked s : quiet s → timer_tracked s.
Proof. intros (_ & Hid & Hto). split; [by rewrite Hid, Hto | by rewrite Hid]. Qed.

Lemma standing_step e s s' :
  is_connect e = false → quiet s → step' e s = Some s' →
  quiet s' ∧ scheduled (trace s') = scheduled (trace s).
Proof.
  intros Hc Hq Hstep.
  assert (standing s' = standing s → quiet s' ∧ scheduled (trace s') = scheduled (trace s))
    as Hvia.
  { intros H. split; [by apply (quiet_standing s) |].
    unfold standing in H. by simplify_eq. }
  pose proof Hq as (Htok & Hid & Hto).
  destruct e; try discriminate Hc; step_inv Hstep.
  - apply disconnect_quiet. by apply quiet_tracked.
  - apply Hvia. unfold setOnStatusChange. by destruct callback.
  - apply Hvia. unfold onSocketOpen.
    rewrite standing_startPing. simpl.
    rewrite (updateStatus_frame reconnectTimeoutId) by done. simpl. rewrite Hid. simpl.
    change (standing (updateStatus CONNECTED None (set_readyState k WS_OPEN s))
            = standing s).
    by rewrite standing_updateStatus.
  - apply Hvia. unfold onSocketMessage.
    destruct (JSON_parse data) as [[]|]; try done.
    all: by repeat (destruct (is_tag _ _)).
  - by apply Hvia.
  - apply Hvia. by rewrite standing_onSocketClose.
  - apply bool_decide_eq_true in Hguard. rewrite Hto in Hguard. set_solver.
  - apply Hvia, standing_sendToServer.
  - apply Hvia, standing_sendToServer.
Qed.

Lemma standing_run es s s' :
  forallb (λ e, negb (is_connect e)) es = true → quiet s → run' es s = Some s' →
  quiet s' ∧ scheduled (trace s') = scheduled (trace s).
Proof.
  revert s. induction es as [|e es IH]; simpl; intros s Hes Hq Hrun.
  - by simplify_eq.
  - apply andb_prop in Hes as [He Hes]. apply negb_true_iff in He.
    destruct (step' e s) as [s1|] eqn:E; [| done]. simpl in Hrun.
    destruct (standing_step e s s1 He Hq E) as [Hq1 Htr1].
    destruct (IH s1 Hes Hq1 Hrun) as [Hq' Htr']. split; [done | congruence].
Qed.

Lemma tracked_standing s s' : timer_tracked s → standing s' = standing s → timer_tracked s'.
Proof. unfold standing, timer_tracked. intros H [= _ -> -> _]. done. Qed.

Lemma tracked_ext s s' :
  timer_tracked s → reconnectTimeoutId s' = reconnectTimeoutId s →
  timeouts s' = timeouts s → timer_tracked s'.
Proof. unfold timer_tracked. intros H -> ->. done. Qed.

Lemma tracked_cleared s :
  timer_tracked s →
  timeouts (if truthy_number (reconnectTimeoutId s)
            then clearTimeout (default 0 (reconnectTimeoutId s)) s else s) = [].
Proof.
  intros [Hto Hpos]. destruct (reconnectTimeoutId s) as [h|]; simpl; [| done].
  specialize (Hpos h eq_refl). replace (h =? 0) with false by lia. simpl.
  unfold clearTimeout. simpl. rewrite Hto.
  by rewrite filter_cons_False by (intros ?; done).
Qed.

Lemma tracked_scheduleReconnect s :
  timer_tracked s → timer_tracked (scheduleReconnect Math_random s).
Proof.
  intros Ht. unfold scheduleReconnect. destruct (_ || _).
  { by apply (tracked_standing s), standing_updateStatus. }
  pose proof (tracked_cleared s Ht) as Hc.
  set (sc := if truthy_number (reconnectTimeoutId s)
             then clearTimeout (default 0 (reconnectTimeoutId s)) s else s) in *.
  split; simpl.
  - rewrite (updateStatus_frame timeouts) by done. simpl. by rewrite Hc.
  - intros h [= <-]. lia.
Qed.

Lemma tracked_onSocketClose code reason s :
  timer_tracked s → timer_tracked (onSocketClose Math_random code reason s).
Proof.
  intros Ht. unfold onSocketClose.
  assert (timer_tracked (stopPing s)) as Ht1
    by by apply (tracked_standing s), standing_stopPing.
  destruct (truthy_number _); [done |].
  destruct (explicitClose _).
  - apply (tracked_standing (stopPing s)); [done |].
    match goal with
    | |- standing (set_socket None (set_explicitClose false ?x)) = _ =>
        change (standing x = standing (stopPing s))
    end.
    apply standing_updateStatus.
  - match goal with
    | |- timer_tracked (set_socket None ?x) =>
        apply (tracked_standing x); [| done]
    end.
    apply tracked_scheduleReconnect.
    by apply (tracked_standing (stopPing s)), standing_updateStatus.
Qed.

Lemma tracked_connect jwtToken s :
  timer_tracked s → timer_tracked (connect' jwtToken s).
Proof.
  intros Ht. unfold connect.
  destruct (negb _).
  { by apply (tracked_standing s), standing_updateStatus. }
  destruct (open_or_connecting _); [exact Ht |].
  set (s1 := updateStatus CONNECTING None _).
  assert (timer_tracked s1) as Ht1.
  { subst s1. apply (tracked_ext s); [done | |].
    - by rewrite (updateStatus_frame reconnectTimeoutId).
    - by rewrite (updateStatus_frame timeouts). }
  destruct (WebSocket_throws _); [| exact Ht1].
  apply tracked_scheduleReconnect.
  apply (tracked_standing s1); [done |]. by rewrite standing_updateStatus.
Qed.

Lemma tracked_onSocketOpen s : timer_tracked s → timer_tracked (onSocketOpen s).
Proof.
  intros Ht. unfold onSocketOpen.
  match goal with
  | |- timer_tracked (startPing ?x) =>
      apply (tracked_standing x); [| apply standing_startPing]
  end.
  set (s1 := set_currentReconnectDelay _ _).
  assert (timer_tracked s1) as Ht1.
  { apply (tracked_standing s); [done |]. subst s1.
    change (standing (updateStatus CONNECTED None s) = standing s).
    apply standing_updateStatus. }
  pose proof (tracked_cleared s1 Ht1) as Hc.
  destruct (truthy_number (reconnectTimeoutId s1)) eqn:E; simpl in *.
  - split; simpl; [exact Hc | done].
  - exact Ht1.
Qed.

Lemma reachable_timer_tracked s : reachable' s → timer_tracked s.
Proof.
  induction 1 as [|e s s' _ IH Hstep]; [by split |].
  destruct e; step_inv Hstep.
  - by apply tracked_connect.
  - by apply quiet_tracked, disconnect_quiet.
  - apply (tracked_standing s); [done |].
    unfold setOnStatusChange. by destruct callback.
  - apply tracked_onSocketOpen. by apply (tracked_standing s).
  - apply (tracked_standing s); [done |]. unfold onSocketMessage.
    destruct (JSON_parse data) as [[]|]; try done.
    all: by repeat (destruct (is_tag _ _)).
  - by apply (tracked_standing s).
  - apply tracked_onSocketClose. by apply (tracked_standing s).
  - destruct IH as [Hto Hpos].
    assert (reconnectTimeoutId s = Some h) as Hid.
    { apply bool_decide_eq_true in Hguard. rewrite Hto in Hguard.
      destruct (reconnectTimeoutId s) as [h'|].
      - apply list_elem_of_singleton in Hguard. by subst.
      - by apply elem_of_nil in Hguard. }
    rewrite Hid in Hto.
    unfold reconnect_timeout.
    set (s1 := set_reconnectTimeoutId None _).
    assert (timer_tracked s1) as Ht1.
    { subst s1. split; simpl; [| done]. rewrite Hto.
      by rewrite filter_cons_False by (intros ?; done). }
    destruct (truthy _); [by apply tracked_connect |].
    by apply (tracked_standing s1), standing_updateStatus.
  - by apply (tracked_standing s), standing_sendToServer.
  - by apply (tracked_standing s), standing_sendToServer.
Qed.

Lemma delay_run es s s' :
  reachable' s → run' es s = Some s' →
  forallb (λ e, negb (is_open e)) es = true →
  currentReconnectDelay s ≤ currentReconnectDelay s' ≤ RECONNECT_MAX_DELAY_MS.
Proof.
  revert s. induction es as [|e es IH]; simpl; intros s Hr Hrun Hes.
  - simplify_eq. pose proof (reachable_delay_in_bounds s' Hr) as Hb.
    unfold delay_in_bounds in Hb. lia.
  - apply andb_prop in Hes as [He Hes]. apply negb_true_iff in He.
    destruct (step' e s) as [s1|] eqn:E; [| done]. simpl in Hrun.
    assert (reachable' s1) as Hr1 by by apply (reachable_step _ _ _ _ e s).
    pose proof (delay_step e s s1 E) as Hm. rewrite He in Hm.
    destruct (delay_in_bounds_moves s s1 (reachable_delay_in_bounds s Hr) Hm) as [_ Hle].
    specialize (IH s1 Hr1 Hrun Hes). lia.
Qed.

Lemma currentStatus_updateStatus newStatus details s :
  currentStatus (updateStatus newStatus details s) = newStatus.
Proof.
  unfold updateStatus, emit.
  destruct (bool_decide (currentStatus s = newStatus)) eqn:E; simpl.
  - apply bool_decide_eq_true in E. destruct (negb _); [done |].
    by destruct (onStatusChangeCallback _).
  - by destruct (onStatusChangeCallback _).
Qed.

Lemma callbacks_updateStatus newStatus details s :
  callbacks (trace (updateStatus newStatus details s))
  = if bool_decide (currentStatus s = newStatus) && negb (truthy details)
    then callbacks (trace s)
    else if onStatusChangeCallback s then (newStatus, details) :: callbacks (trace s)
         else callbacks (trace s).
Proof.
  unfold updateStatus, emit. destruct (_ && _); [done |]. simpl.
  by destruct (onStatusChangeCallback s).
Qed.

Lemma run_reachable es s s' :
  reachable' s → run' es s = Some s' → reachable' s'.
Proof.
  revert s. induction es as [|e es IH]; simpl; intros s Hr Hrun.
  - by simplify_eq.
  - destruct (step' e s) as [s1|] eqn:E; [| done].
    apply (IH s1); [| done]. by apply (reachable_step _ _ _ _ e s).
Qed.

(** ** The connection manager's claims *)

(** C2: in every state the manager can reach, a [scheduleReconnect] call
    that arms a retry (the close was not explicit and a token is stored)
    sets the base delay to twice its value capped at the maximum, which
    never lowers it and raises it until the maximum is reached; no event
    and no sequence of events other than a socket opening lowers it; and
    [onSocketOpen] resets it to the initial value. *)
Theorem C2_backoff_monotone_until_open s :
  reachable' s →
  (explicitClose s = false → truthy (currentJwtToken s) = true →
   let s' := scheduleReconnect Math_random s in
   currentReconnectDelay s'
   = Z.min (currentReconnectDelay s * 2) RECONNECT_MAX_DELAY_MS
   ∧ currentReconnectDelay s ≤ currentReconnectDelay s' ≤ RECONNECT_MAX_DELAY_MS
   ∧ (currentReconnectDelay s < RECONNECT_MAX_DELAY_MS →
      currentReconnectDelay s < currentReconnectDelay s'))
  ∧ (∀ e s', step' e s = Some s' → is_open e = false →
             currentReconnectDelay s ≤ currentReconnectDelay s'
             ≤ RECONNECT_MAX_DELAY_MS)
  ∧ (∀ es s', run' es s = Some s' →
              forallb (λ e, negb (is_open e)) es = true →
              currentReconnectDelay s ≤ currentReconnectDelay s'
              ≤ RECONNECT_MAX_DELAY_MS)
  ∧ (∀ e s', step' e s = Some s' → is_open e = true →
             currentReconnectDelay s' = RECONNECT_INITIAL_DELAY_MS)
  ∧ currentReconnectDelay (onSocketOpen s) = RECONNECT_INITIAL_DELAY_MS.
Proof.
  intros Hr. pose proof (reachable_delay_in_bounds s Hr) as Hb.
  split; [| split; [| split; [| split]]].
  - intros He Ht s'. subst s'. rewrite delay_scheduleReconnect_armed by done.
    revert Hb. unfold delay_in_bounds, RECONNECT_INITIAL_DELAY_MS,
      RECONNECT_MAX_DELAY_MS. lia.
  - intros e s' Hstep Ho. apply delay_step in Hstep. rewrite Ho in Hstep.
    destruct (delay_in_bounds_moves s s' Hb Hstep) as [Hb' Hle].
    unfold delay_in_bounds in Hb'. lia.
  - intros es s' Hrun Hes. by apply (delay_run es s s').
  - intros e s' Hstep Ho. apply delay_step in Hstep. by rewrite Ho in Hstep.
  - apply delay_onSocketOpen.
Qed.

(** C3: [disconnect], called in any state the manager can reach, clears
    the stored token and leaves no timer armed; from there, whatever
    socket events, timer ticks, observer registrations, task sends or
    further [disconnect] calls follow, as long as [connect] is not called,
    no [setTimeout] call is made and no timer is armed. [scheduleReconnect]
    itself, whenever the close was explicit or no token is held, only
    reports [IDLE] with its detail. *)
Theorem C3_no_reconnect_after_disconnect s :
  reachable' s →
  let s0 := disconnect Math_random s in
  currentJwtToken s0 = None ∧ reconnectTimeoutId s0 = None ∧ timeouts s0 = []
  ∧ scheduled (trace s0) = scheduled (trace s)
  ∧ (∀ es s', forallb (λ e, negb (is_connect e)) es = true →
              run' es s0 = Some s' →
              timeouts s' = [] ∧ reconnectTimeoutId s' = None
              ∧ scheduled (trace s') = scheduled (trace s0))
  ∧ (∀ x, explicitClose x = true ∨ truthy (currentJwtToken x) = false →
          scheduleReconnect Math_random x
          = updateStatus IDLE
              (Some "Reconnection not attempted (explicit close or no token).") x
          ∧ currentStatus (scheduleReconnect Math_random x) = IDLE
          ∧ timeouts (scheduleReconnect Math_random x) = timeouts x
          ∧ scheduled (trace (scheduleReconnect Math_random x)) = scheduled (trace x)).
Proof.
  intros Hr s0.
  destruct (disconnect_quiet s (reachable_timer_tracked s Hr)) as [Hq Htr].
  fold s0 in Hq, Htr. pose proof Hq as (Htok & Hid & Hto).
  repeat (split; [done |]). split.
  - intros es s' Hes Hrun.
    destruct (standing_run es s0 s' Hes Hq Hrun) as [(_ & Hid' & Hto') Htr'].
    done.
  - intros x Hx.
    assert (explicitClose x || negb (truthy (currentJwtToken x)) = true) as Href.
    { destruct Hx as [-> | ->]; [done | apply orb_true_r]. }
    rewrite (standing_scheduleReconnect_refused x Href).
    pose proof (standing_updateStatus IDLE
      (Some "Reconnection not attempted (explicit close or no token).") x) as Hs.
    split; [done |]. split; [apply currentStatus_updateStatus |].
    unfold standing in Hs. by simplify_eq.
Qed.

Lemma constructed_updateStatus newStatus details s :
  constructed (trace (updateStatus newStatus details s)) = constructed (trace s).
Proof. unfold constructed. by rewrite updateStatus_omap. Qed.

(** What an armed retry leaves behind. *)
Lemma scheduleReconnect_armed s :
  explicitClose s = false → truthy (currentJwtToken s) = true →
  let s' := scheduleReconnect Math_random s in
  currentStatus s' = RECONNECTING
  ∧ currentJwtToken s' = currentJwtToken s
  ∧ sockets s' = sockets s
  ∧ reconnectTimeoutId s' = Some (Z.pos (nextHandle s))
  ∧ Z.pos (nextHandle s) ∈ timeouts s'
  ∧ length (scheduled (trace s')) = S (length (scheduled (trace s))).
Proof.
  intros He Ht. unfold scheduleReconnect. rewrite He, Ht. simpl.
  set (sc := if truthy_number (reconnectTimeoutId s)
             then clearTimeout (default 0 (reconnectTimeoutId s)) s else s).
  assert (currentJwtToken sc = currentJwtToken s ∧ sockets sc = sockets s
          ∧ nextHandle sc = nextHandle s
          ∧ scheduled (trace sc) = scheduled (trace s)) as (Hc1 & Hc2 & Hc3 & Hc4).
  { subst sc. by destruct (truthy_number _). }
  rewrite currentStatus_updateStatus.
  rewrite (updateStatus_frame currentJwtToken), (updateStatus_frame sockets),
    (updateStatus_frame nextHandle) by done.
  simpl. rewrite Hc1, Hc2, Hc3. repeat (split; [done |]). split.
  - set_solver.
  - unfold scheduled at 1. simpl. fold (scheduled (trace sc)).
    rewrite updateStatus_omap by done. simpl.
    fold (scheduled (trace sc)). by rewrite Hc4.
Qed.

Lemma callbacks_scheduleReconnect_armed s :
  explicitClose s = false → truthy (currentJwtToken s) = true →
  ∃ detail,
    callbacks (trace (scheduleReconnect Math_random s))
    = if onStatusChangeCallback s then (RECONNECTING, Some detail) :: callbacks (trace s)
      else callbacks (trace s).
Proof.
  intros He Ht. unfold scheduleReconnect. rewrite He, Ht. simpl.
  set (sc := if truthy_number (reconnectTimeoutId s)
             then clearTimeout (default 0 (reconnectTimeoutId s)) s else s).
  assert (onStatusChangeCallback sc = onStatusChangeCallback s
          ∧ callbacks (trace sc) = callbacks (trace s)) as (Hc1 & Hc2).
  { subst sc. by destruct (truthy_number _). }
  eexists. unfold callbacks at 1. simpl. fold (callbacks (trace (updateStatus RECONNECTING
    (Some ("Attempting to reconnect in " +:+
           pretty (Math_round
                     (Binary64.div
                        (Binary64.add (inject_Z (currentReconnectDelay sc))
                           (Binary64.mul (Math_random (randoms_drawn sc))
                              (inject_Z RECONNECT_JITTER_MS)))
                        (inject_Z 1000))) +:+ "s..."))
    (set_randoms_drawn (S (randoms_drawn sc)) sc)))).
  rewrite callbacks_updateStatus.
  replace (truthy _) with true by reflexivity.
  rewrite andb_false_r. simpl. by rewrite Hc1, Hc2.
Qed.

(** C7 as the code has it: a [connect] call with a non-empty token while
    the socket held is open or connecting constructs no WebSocket, makes
    no status transition and arms no timer; it replaces the stored token
    by the one given and logs, and changes nothing else, so that it leaves
    the manager's variables as they were exactly when the token given is
    the one already stored. *)
Theorem C7_connect_while_connected_only_stores_token jwtToken s :
  truthy (Some jwtToken) = true →
  open_or_connecting (held_readyState s) = true →
  connect' jwtToken s
  = emit (ConsoleCall log "WebSocket Proxy: Already connected or connecting.")
         (set_currentJwtToken (Some jwtToken) s)
  ∧ constructed (trace (connect' jwtToken s)) = constructed (trace s)
  ∧ currentStatus (connect' jwtToken s) = currentStatus s
  ∧ sockets (connect' jwtToken s) = sockets s
  ∧ timeouts (connect' jwtToken s) = timeouts s
  ∧ currentJwtToken (connect' jwtToken s) = Some jwtToken
  ∧ (currentJwtToken s = Some jwtToken →
     variables (connect' jwtToken s) = variables s).
Proof.
  intros Ht Hg.
  assert (connect' jwtToken s
          = emit (ConsoleCall log "WebSocket Proxy: Already connected or connecting.")
                 (set_currentJwtToken (Some jwtToken) s)) as ->.
  { unfold connect. rewrite Ht. simpl.
    change (held_readyState (set_currentJwtToken (Some jwtToken) s))
      with (held_readyState s).
    by rewrite Hg. }
  repeat (split; [done |]). intros Hs. unfold variables. simpl. by rewrite Hs.
Qed.

(** C8: [connect] with the empty token does nothing but report [ERROR]
    with its detail: no WebSocket is constructed, the token is not stored
    and no timer is armed. *)
Theorem C8_empty_token_fails_fast s :
  let s' := connect' EmptyString s in
  s' = updateStatus ERROR (Some "JWT Token is required to connect.") s
  ∧ currentStatus s' = ERROR
  ∧ constructed (trace s') = constructed (trace s)
  ∧ sockets s' = sockets s
  ∧ socket s' = socket s
  ∧ currentJwtToken s' = currentJwtToken s
  ∧ reconnectTimeoutId s' = reconnectTimeoutId s
  ∧ timeouts s' = timeouts s
  ∧ intervals s' = intervals s
  ∧ scheduled (trace s') = scheduled (trace s).
Proof.
  intros s'.
  assert (s' = updateStatus ERROR (Some "JWT Token is required to connect.") s) as ->
    by reflexivity.
  split; [done |]. split; [apply currentStatus_updateStatus |].
  split; [apply constructed_updateStatus |].
  rewrite (updateStatus_frame sockets), (updateStatus_frame socket),
    (updateStatus_frame currentJwtToken), (updateStatus_frame reconnectTimeoutId),
    (updateStatus_frame timeouts), (updateStatus_frame intervals) by done.
  repeat (split; [done |]).
  pose proof (standing_updateStatus ERROR (Some "JWT Token is required to connect.") s)
    as Hs.
  unfold standing in Hs. by simplify_eq.
Qed.

(** C9: a frame that does not parse, or whose [type] is neither
    [http_request] nor [pong], makes [onSocketMessage] write one warning
    or error to the console and nothing else: no message is sent, no
    socket is closed, no dispatcher task is started and no variable of the
    manager, its status included, changes. *)
Theorem C9_unknown_frames_are_logged_and_dropped data s :
  (JSON_parse data = None
   ∨ ∃ message, JSON_parse data = Some message
                ∧ is_tag "http_request" (property "type" message) = false
                ∧ is_tag "pong" (property "type" message) = false) →
  ∃ level text,
    level ≠ log
    ∧ onSocketMessage JSON_parse data s = set_trace (ConsoleCall level text :: trace s) s
    ∧ variables (onSocketMessage JSON_parse data s) = variables s
    ∧ sockets (onSocketMessage JSON_parse data s) = sockets s.
Proof.
  intros H. unfold onSocketMessage.
  destruct H as [-> | (message & -> & Hreq & Hpong)].
  - by exists error, "WebSocket Proxy: Error parsing message from server or handling it:".
  - rewrite Hreq, Hpong.
    destruct message;
      first [ by exists error,
                "WebSocket Proxy: Error parsing message from server or handling it:"
            | by exists warn, "WebSocket Proxy: Received unknown message type" ].
Qed.

(** C10: when [new WebSocket] throws inside [connect] (the token is not
    empty and no open or connecting socket is held), the manager reports
    [ERROR], with the exception's message as detail, and then, the token
    being stored and the close not explicit, calls [scheduleReconnect],
    which arms the reconnect timer and reports [RECONNECTING]: a
    registered observer is told [ERROR] and then [RECONNECTING]. When that
    timer fires it calls [connect] with the same token again. *)
Theorem C10_constructor_failure_schedules_reconnect jwtToken message s :
  truthy (Some jwtToken) = true →
  open_or_connecting (held_readyState s) = false →
  WebSocket_throws (BASE_WEBSOCKET_URL WEBSOCKET_PROXY_URL +:+ "?auth_token=" +:+ jwtToken)
  = Some message →
  let s' := connect' jwtToken s in
  let wsUrl := BASE_WEBSOCKET_URL WEBSOCKET_PROXY_URL +:+ "?auth_token=" +:+ jwtToken in
  let failure := "Failed to instantiate WebSocket: " +:+ message in
  let s_err :=
    updateStatus ERROR (Some failure)
      (emit (ConsoleCall error "WebSocket Proxy: Instantiation error:")
         (emit (NewWebSocket wsUrl None)
            (emit (ConsoleCall log ("WebSocket Proxy: Attempting to connect to " +:+ wsUrl))
               (updateStatus CONNECTING None
                  (set_explicitClose false (set_currentJwtToken (Some jwtToken) s)))))) in
  s' = scheduleReconnect Math_random s_err
  ∧ currentStatus s_err = ERROR ∧ explicitClose s_err = false
  ∧ (onStatusChangeCallback s = true →
     ∃ detail,
       callbacks (trace s')
       = (RECONNECTING, Some detail) :: (ERROR, Some failure)
         :: (if bool_decide (currentStatus s = CONNECTING) then []
             else [(CONNECTING, None)])
         ++ callbacks (trace s))
  ∧ (onStatusChangeCallback s = false → callbacks (trace s') = callbacks (trace s))
  ∧ currentStatus s' = RECONNECTING
  ∧ currentJwtToken s' = Some jwtToken
  ∧ sockets s' = sockets s
  ∧ length (scheduled (trace s')) = S (length (scheduled (trace s)))
  ∧ ∃ h, reconnectTimeoutId s' = Some h ∧ h ∈ timeouts s'
         ∧ step' (Timeout_fires h) s'
           = Some (connect' jwtToken
                     (set_reconnectTimeoutId None
                        (set_timeouts (filter (λ x, x ≠ h) (timeouts s')) s'))).
Proof.
  intros Ht Hg Hthrow s' wsUrl failure s_err.
  assert (s' = scheduleReconnect Math_random s_err) as Hs'.
  { subst s' s_err failure wsUrl. unfold connect. rewrite Ht. simpl.
    change (held_readyState (set_currentJwtToken (Some jwtToken) s))
      with (held_readyState s).
    by rewrite Hg, Hthrow. }
  assert (explicitClose s_err = false ∧ currentJwtToken s_err = Some jwtToken
          ∧ sockets s_err = sockets s
          ∧ scheduled (trace s_err) = scheduled (trace s)) as (He & Htok & Hso & Hsch).
  { subst s_err.
    rewrite (updateStatus_frame explicitClose), (updateStatus_frame currentJwtToken),
      (updateStatus_frame sockets) by done. simpl.
    rewrite (updateStatus_frame explicitClose), (updateStatus_frame currentJwtToken),
      (updateStatus_frame sockets) by done. simpl.
    repeat (split; [done |]).
    unfold scheduled. rewrite updateStatus_omap by done. simpl.
    by rewrite updateStatus_omap. }
  assert (onStatusChangeCallback s_err = onStatusChangeCallback s
          ∧ callbacks (trace s_err)
            = if onStatusChangeCallback s
              then (ERROR, Some failure)
                   :: (if bool_decide (currentStatus s = CONNECTING) then []
                       else [(CONNECTING, None)])
                   ++ callbacks (trace s)
              else callbacks (trace s)) as (Hobs & Hcb).
  { subst s_err.
    rewrite (updateStatus_frame onStatusChangeCallback) by done. simpl.
    rewrite (updateStatus_frame onStatusChangeCallback) by done. simpl.
    split; [done |]. rewrite callbacks_updateStatus.
    replace (truthy (Some failure)) with true by reflexivity.
    rewrite andb_false_r. simpl.
    rewrite (updateStatus_frame onStatusChangeCallback) by done. simpl.
    unfold callbacks at 1 2. simpl.
    fold (callbacks (trace (updateStatus CONNECTING None
                              (set_explicitClose false
                                 (set_currentJwtToken (Some jwtToken) s))))).
    rewrite callbacks_updateStatus. simpl. rewrite andb_true_r.
    destruct (onStatusChangeCallback s); [| by destruct (bool_decide _)].
    by destruct (bool_decide _). }
  assert (truthy (currentJwtToken s_err) = true) as Htruthy by by rewrite Htok.
  destruct (scheduleReconnect_armed s_err He Htruthy) as (H1 & H2 & H3 & H4 & H5 & H6).
  destruct (callbacks_scheduleReconnect_armed s_err He Htruthy) as (detail & Hcb').
  rewrite <- Hs' in *.
  split; [done |]. split; [apply currentStatus_updateStatus |]. split; [done |].
  split.
  { intros Hon. exists detail. by rewrite Hcb', Hobs, Hcb, Hon. }
  split.
  { intros Hoff. by rewrite Hcb', Hobs, Hcb, Hoff. }
  split; [done |]. split; [congruence |]. split; [congruence |].
  split; [congruence |].
  exists (Z.pos (nextHandle s_err)). split; [done |]. split; [done |].
  unfold step. rewrite bool_decide_eq_true_2 by done.
  unfold reconnect_timeout. simpl. by rewrite H2, Htok, Ht.
Qed.

End ManagerFacts.

(** ** The claims on the sample host *)

Lemma sample_reachable es :
  is_Some (run None sample_JSON_parse sample_WebSocket_throws sample_Math_random
             es initial) →
  reachable None sample_JSON_parse sample_WebSocket_throws sample_Math_random
    (default initial
       (run None sample_JSON_parse sample_WebSocket_throws sample_Math_random
          es initial)).
Proof.
  intros [s Hs]. rewrite Hs. simpl.
  apply (run_reachable _ _ _ _ es initial); [constructor | done].
Qed.

(** C2 after one unexpected close: the delay, 2000 by then, goes to 4000. *)
Lemma C2_witness :
  currentReconnectDelay sample_retrying = 2000
  ∧ currentReconnectDelay (scheduleReconnect sample_Math_random sample_retrying) = 4000
  ∧ currentReconnectDelay (onSocketOpen sample_retrying) = 1000.
Proof.
  assert (reachable None sample_JSON_parse sample_WebSocket_throws sample_Math_random
            sample_retrying) as Hr.
  { apply sample_reachable. vm_compute. eauto. }
  destruct (C2_backoff_monotone_until_open _ _ _ _ sample_retrying Hr)
    as (Harm & _ & _ & _ & Hopen).
  split; [reflexivity |]. split; [| exact Hopen].
  exact (proj1 (Harm eq_refl eq_refl)).
Defined.

(** C3 on a connected manager: after [disconnect], the socket's error and
    close events arm nothing. *)
Lemma C3_witness :
  timeouts (disconnect sample_Math_random sample_connected) = []
  ∧ ∃ s', run None sample_JSON_parse sample_WebSocket_throws sample_Math_random
            [Socket_error 0; Socket_close 0 1000 "bye"; Call_setOnStatusChange true]
            (disconnect sample_Math_random sample_connected) = Some s'
          ∧ currentStatus s' = IDLE
          ∧ timeouts s' = []
          ∧ scheduled (trace s') = [].
Proof.
  assert (reachable None sample_JSON_parse sample_WebSocket_throws sample_Math_random
            sample_connected) as Hr.
  { apply sample_reachable. vm_compute. eauto. }
  destruct (C3_no_reconnect_after_disconnect _ _ _ _ sample_connected Hr)
    as (_ & _ & Hto & Hsch & Hrun & _).
  split; [exact Hto |].
  eexists. split; [vm_compute; reflexivity |]. split; [reflexivity |].
  destruct (Hrun [Socket_error 0; Socket_close 0 1000 "bye"; Call_setOnStatusChange true]
              _ eq_refl ltac:(vm_compute; reflexivity)) as (Hto' & _ & Hsch').
  split; [exact Hto' |]. rewrite Hsch', Hsch. reflexivity.
Defined.

(** C7 fails as stated: with token "a" stored and the socket connecting,
    [connect("b")] changes the stored token. *)
Lemma C7_counterexample :
  ¬ (∀ jwtToken s,
       reachable None sample_JSON_parse sample_WebSocket_throws sample_Math_random s →
       truthy (Some jwtToken) = true →
       open_or_connecting (held_readyState s) = true →
       variables (connect None sample_WebSocket_throws sample_Math_random jwtToken s)
       = variables s).
Proof.
  intros H. specialize (H "b" sample_connecting).
  assert (variables (connect None sample_WebSocket_throws sample_Math_random "b"
                       sample_connecting)
          = variables sample_connecting) as E.
  { apply H; [| reflexivity | reflexivity].
    apply sample_reachable. vm_compute. eauto. }
  vm_compute in E. discriminate E.
Qed.

(** The token [connect("b")] stored while connecting is the one the next
    reconnect presents: after the socket closes and the timer fires, the
    WebSocket is constructed with [auth_token=b]. *)
Lemma connect_while_connecting_changes_later_url :
  (λ s, head (constructed (trace s))) <$>
    run None sample_JSON_parse sample_WebSocket_throws sample_Math_random
      [Call_connect "b"; Socket_close 0 1006 EmptyString; Timeout_fires 1]
      sample_connecting
  = Some (Some ("ws://127.0.0.1:5345/v1/ws?auth_token=b", Some 1%nat)).
Proof. vm_compute. reflexivity. Qed.

(** C7 as amended, on the connecting manager: [connect("b")] stores "b"
    and keeps the status; [connect("a")] changes no variable. *)
Lemma C7_witness :
  currentJwtToken sample_connecting = Some "a"
  ∧ currentJwtToken (connect None sample_WebSocket_throws sample_Math_random "b"
                       sample_connecting) = Some "b"
  ∧ currentStatus (connect None sample_WebSocket_throws sample_Math_random "b"
                     sample_connecting) = CONNECTING
  ∧ variables (connect None sample_WebSocket_throws sample_Math_random "a"
                 sample_connecting) = variables sample_connecting.
Proof.
  destruct (C7_connect_while_connected_only_stores_token
              None sample_WebSocket_throws sample_Math_random "b" sample_connecting
              eq_refl eq_refl) as (_ & _ & Hst & _ & _ & Htok & _).
  destruct (C7_connect_while_connected_only_stores_token
              None sample_WebSocket_throws sample_Math_random "a" sample_connecting
              eq_refl eq_refl) as (_ & _ & _ & _ & _ & _ & Hsame).
  split; [reflexivity |]. split; [exact Htok |]. split; [exact Hst |].
  exact (Hsame eq_refl).
Defined.

(** C9 on a frame that does not parse and on a frame of unknown type. *)
Lemma C9_witness :
  sample_JSON_parse "garbage" = None
  ∧ sample_JSON_parse (frame_of_type "hello") = Some (JObject [("type", JString "hello")])
  ∧ (∃ level text,
       level ≠ log
       ∧ onSocketMessage sample_JSON_parse "garbage" sample_connected
         = set_trace (ConsoleCall level text :: trace sample_connected) sample_connected
       ∧ variables (onSocketMessage sample_JSON_parse "garbage" sample_connected)
         = variables sample_connected
       ∧ sockets (onSocketMessage sample_JSON_parse "garbage" sample_connected)
         = sockets sample_connected)
  ∧ (∃ level text,
       level ≠ log
       ∧ onSocketMessage sample_JSON_parse (frame_of_type "hello") sample_connected
         = set_trace (ConsoleCall level text :: trace sample_connected) sample_connected
       ∧ variables (onSocketMessage sample_JSON_parse (frame_of_type "hello")
                      sample_connected)
         = variables sample_connected
       ∧ sockets (onSocketMessage sample_JSON_parse (frame_of_type "hello")
                    sample_connected)
         = sockets sample_connected).
Proof.
  split; [reflexivity |]. split; [reflexivity |]. split.
  - apply (C9_unknown_frames_are_logged_and_dropped sample_JSON_parse "garbage").
    left. reflexivity.
  - apply (C9_unknown_frames_are_logged_and_dropped sample_JSON_parse
             (frame_of_type "hello")).
    right. exists (JObject [("type", JString "hello")]).
    split; [reflexivity |]. split; reflexivity.
Defined.

(** C10 with an endpoint the constructor rejects. *)
Lemma C10_witness :
  sample_WebSocket_throws
    (BASE_WEBSOCKET_URL (Some "http://proxy.example/ws") +:+ "?auth_token=" +:+ "a")
  = Some "The URL is invalid."
  ∧ currentStatus (connect (Some "http://proxy.example/ws") sample_WebSocket_throws
                     sample_Math_random "a" initial) = RECONNECTING
  ∧ timeouts (connect (Some "http://proxy.example/ws") sample_WebSocket_throws
                sample_Math_random "a" initial) = [1]
  ∧ sockets (connect (Some "http://proxy.example/ws") sample_WebSocket_throws
               sample_Math_random "a" initial) = [].
Proof.
  destruct (C10_constructor_failure_schedules_reconnect
              (Some "http://proxy.example/ws") sample_JSON_parse sample_WebSocket_throws
              sample_Math_random "a" "The URL is invalid." initial
              eq_refl eq_refl eq_refl) as (_ & _ & _ & _ & _ & Hst & _ & Hso & _).
  split; [reflexivity |]. split; [exact Hst |]. split; [reflexivity | exact Hso].
Defined.

(** * Further properties of the connection manager *)

(** Dropping the assignments a predicate does not read: [ext] says that
    the predicate only depends on some projections of the state. *)
Ltac syntactic_refl := match goal with |- ?a = ?a => reflexivity end.

Ltac strip_with ext :=
  repeat match goal with
         | |- _ (set_readyState _ _ ?x) =>
             apply (ext x); [unfold set_readyState; simpl; syntactic_refl |]
         | |- _ (emit _ ?x) => apply (ext x); [unfold emit; simpl; syntactic_refl |]
         | |- _ (clearTimeout _ ?x) =>
             apply (ext x); [unfold clearTimeout, emit; simpl; syntactic_refl |]
         | |- _ (clearInterval _ ?x) =>
             apply (ext x); [unfold clearInterval, emit; simpl; syntactic_refl |]
         | |- _ (?f _ ?x) => apply (ext x); [simpl; syntactic_refl |]
         end.

(** ** The rounding of Numbers *)

Lemma nearest_even_bounds x :
  Qfloor x ≤ Binary64.nearest_even x ≤ Qceiling x.
Proof.
  unfold Binary64.nearest_even.
  pose proof (Qle_floor_ceiling x) as Hfc. rewrite <- Zle_Qle in Hfc.
  assert (¬ (x == inject_Z (Qfloor x))%Q → Qfloor x + 1 ≤ Qceiling x) as Hup.
  { intros Hne. apply Z.lt_succ_r, Z.lt_nge. intros Hle.
    apply Hne. apply Qle_antisym; [| apply Qfloor_le].
    eapply Qle_trans; [apply Qle_ceiling |]. rewrite <- Zle_Qle. lia. }
  destruct (Qcompare_spec (x - inject_Z (Qfloor x)) (1 # 2)) as [He | Hl | Hg].
  - destruct (Z.even (Qfloor x)); [lia |]. split; [lia |]. apply Hup.
    intros Hx. lra.
  - lia.
  - split; [lia |]. apply Hup. intros Hx. lra.
Qed.

Lemma last_place_small x : (0 < x)%Q → (x < 2 ^ 53)%Q → Binary64.last_place x ≤ 0.
Proof.
  intros H0 H1. unfold Binary64.last_place, Binary64.ilog2. cbv zeta.
  assert (0 < Qnum x) as Hp.
  { destruct x as [p q]. unfold Qlt in H0. cbn [Qnum Qden] in *. lia. }
  assert (Z.log2 (Qnum x) - Z.log2 (Z.pos (Qden x)) ≤ 53) as Hk.
  { assert (x < inject_Z (2 ^ 53))%Q as H1'.
    { eapply Qlt_le_trans; [exact H1 |]. rewrite Zpower_Qpower by lia. apply Qle_refl. }
    set (B := 2 ^ 53) in *. destruct x as [p q]. unfold Qlt in H1'.
    cbn [Qnum Qden inject_Z] in *.
    assert (Z.log2 p ≤ Z.log2 (B * Z.pos q)) as Hl by (apply Z.log2_le_mono; lia).
    subst B. rewrite Z.mul_comm, Z.log2_mul_pow2 in Hl by lia. lia. }
  destruct (Qle_bool _ _) eqn:E; [| lia].
  apply Qle_bool_imp_le in E.
  assert (Z.log2 (Qnum x) - Z.log2 (Z.pos (Qden x)) < 53); [| lia].
  apply (Qpower_lt_compat_l_inv 2); [| done].
  eapply Qle_lt_trans; [exact E | exact H1].
Qed.

(** Rounding crosses no integer: a result below 2^53 lies between the
    integers the exact value lies between. *)
Lemma round_between (a b : Z) x :
  (0 <= x)%Q → (x < 2 ^ 53)%Q → (inject_Z a <= x)%Q → (x <= inject_Z b)%Q →
  (inject_Z a <= Binary64.round x)%Q ∧ (Binary64.round x <= inject_Z b)%Q.
Proof.
  intros H0 H1 Ha Hb. unfold Binary64.round.
  destruct (Qnum x) as [|p|p] eqn:Hn.
  - assert (x == 0)%Q as Hx by (unfold Qeq; simpl; lia).
    rewrite Hx in Ha, Hb. done.
  - assert (0 < x)%Q as Hpos by (unfold Qlt; simpl; lia).
    unfold Binary64.round_positive. cbv zeta.
    pose proof (last_place_small x Hpos H1) as He.
    set (e := Binary64.last_place x) in *.
    set (K := 2 ^ (- e)).
    assert (0 < K) as HK by (subst K; apply Z.pow_pos_nonneg; lia).
    assert (2 ^ e == / inject_Z K)%Q as Hpow.
    { subst K. rewrite <- (Z.opp_involutive e) at 1. rewrite Qpower_opp.
      rewrite Zpower_Qpower by lia. done. }
    assert (0 < inject_Z K)%Q as HK' by (rewrite <- (Zlt_Qlt 0); done).
    assert (x / 2 ^ e == x * inject_Z K)%Q as Hy.
    { rewrite Hpow. unfold Qdiv. by rewrite Qinv_involutive. }
    pose proof (nearest_even_bounds (x / 2 ^ e)) as [Hlo Hhi].
    rewrite (Qfloor_comp _ _ Hy) in Hlo. rewrite (Qceiling_comp _ _ Hy) in Hhi.
    assert (a * K ≤ Qfloor (x * inject_Z K)) as Hlo'.
    { rewrite <- (Qfloor_Z (a * K)). apply Qfloor_resp_le.
      rewrite inject_Z_mult. apply Qmult_le_compat_r; [done | by apply Qlt_le_weak]. }
    assert (Qceiling (x * inject_Z K) ≤ b * K) as Hhi'.
    { rewrite <- (Qceiling_Z (b * K)). apply Qceiling_resp_le.
      rewrite inject_Z_mult. apply Qmult_le_compat_r; [done | by apply Qlt_le_weak]. }
    set (n := Binary64.nearest_even (x / 2 ^ e)) in *. clearbody n.
    rewrite Qred_correct, Hpow. fold (Qdiv (inject_Z n) (inject_Z K)).
    split.
    + apply Qle_shift_div_l; [done |]. rewrite <- inject_Z_mult, <- Zle_Qle. lia.
    + apply Qle_shift_div_r; [done |]. rewrite <- inject_Z_mult, <- Zle_Qle. lia.
  - exfalso. unfold Qle in H0. simpl in H0. lia.
Qed.

Lemma ilog2_spec x :
  (0 < x)%Q → (2 ^ Binary64.ilog2 x <= x)%Q ∧ (x < 2 ^ (Binary64.ilog2 x + 1))%Q.
Proof.
  intros H0. unfold Binary64.ilog2. cbv zeta.
  assert (0 < Qnum x) as Hp.
  { destruct x as [p q]. unfold Qlt in H0. cbn [Qnum Qden] in *. lia. }
  pose proof (Z.log2_spec (Qnum x) Hp) as [Ha1 Ha2].
  pose proof (Z.log2_spec (Z.pos (Qden x)) ltac:(lia)) as [Hb1 Hb2].
  pose proof (Z.log2_nonneg (Qnum x)) as Ha0.
  pose proof (Z.log2_nonneg (Z.pos (Qden x))) as Hb0.
  set (a := Z.log2 (Qnum x)) in *. set (b := Z.log2 (Z.pos (Qden x))) in *.
  assert (¬ (2 == 0)%Q) as H2 by done.
  assert (∀ n m, 0 ≤ n → 0 ≤ m → (2 ^ (n - m) == inject_Z (2 ^ n) / inject_Z (2 ^ m))%Q)
    as Hpow.
  { intros n m Hn Hm. rewrite Qpower_minus by done. by rewrite !Zpower_Qpower. }
  assert (∀ m, 0 ≤ m → (0 < inject_Z (2 ^ m))%Q) as Hpos.
  { intros m Hm. rewrite <- (Zlt_Qlt 0). by apply Z.pow_pos_nonneg. }
  assert (x == inject_Z (Qnum x) / inject_Z (Z.pos (Qden x)))%Q as Hx.
  { destruct x as [p q]. apply Qmake_Qdiv. }
  assert (0 < inject_Z (Z.pos (Qden x)))%Q as Hq by (by rewrite <- (Zlt_Qlt 0)).
  assert (2 ^ (a - b - 1) <= x)%Q as Hlow.
  { replace (a - b - 1) with (a - (b + 1)) by lia. rewrite Hpow by lia. rewrite Hx.
    apply Qle_shift_div_l; [done |]. unfold Qdiv. rewrite <- Qmult_assoc.
    rewrite (Qmult_comm (/ _)). rewrite Qmult_assoc.
    apply Qle_shift_div_r; [apply Hpos; lia |].
    rewrite <- !inject_Z_mult, <- Zle_Qle.
    change (Z.succ b) with (b + 1) in Hb2. nia. }
  assert (x < 2 ^ (a - b + 1))%Q as Hup.
  { replace (a - b + 1) with (a + 1 - b) by lia. rewrite Hpow by lia. rewrite Hx.
    apply Qlt_shift_div_l; [apply Hpos; lia |]. unfold Qdiv. rewrite <- Qmult_assoc.
    rewrite (Qmult_comm (/ _)). rewrite Qmult_assoc.
    apply Qlt_shift_div_r; [done |].
    rewrite <- !inject_Z_mult, <- Zlt_Qlt.
    change (Z.succ a) with (a + 1) in Ha2. nia. }
  destruct (Qle_bool (2 ^ (a - b)) x) eqn:E.
  - apply Qle_bool_iff in E. done.
  - split; [done |]. replace (a - b - 1 + 1) with (a - b) by lia.
    apply Qnot_le_lt. intros Hle. apply Qle_bool_iff in Hle. congruence.
Qed.

Lemma nearest_even_half x :
  (inject_Z (Binary64.nearest_even x) - (1 # 2) <= x)%Q
  ∧ (x <= inject_Z (Binary64.nearest_even x) + (1 # 2))%Q.
Proof.
  unfold Binary64.nearest_even.
  pose proof (Qfloor_le x) as Hlo. pose proof (Qlt_floor x) as Hhi.
  rewrite inject_Z_plus in Hhi. change (inject_Z 1) with 1%Q in Hhi.
  destruct (Qcompare_spec (x - inject_Z (Qfloor x)) (1 # 2)) as [He | Hl | Hg].
  - destruct (Z.even _); [| rewrite inject_Z_plus; change (inject_Z 1) with 1%Q];
      split; lra.
  - split; lra.
  - rewrite inject_Z_plus. change (inject_Z 1) with 1%Q. split; lra.
Qed.

(** The rounding of a positive [x] is a significand of at most 53 bits at
    the exponent of [x]'s last place, and as near to [x] as such a number
    can be: within half a unit of that place. *)
Lemma round_positive_nearest x :
  (0 < x)%Q →
  let e := Binary64.last_place x in
  ∃ m : Z,
    (Binary64.round x == inject_Z m * 2 ^ e)%Q
    ∧ 0 ≤ m ≤ 2 ^ 53 ∧ (-1074 < e → 2 ^ 52 ≤ m)
    ∧ (Binary64.round x - 2 ^ e / 2 <= x)%Q
    ∧ (x <= Binary64.round x + 2 ^ e / 2)%Q.
Proof.
  intros H0 e.
  assert (0 < Qnum x) as Hp.
  { destruct x as [p q]. unfold Qlt in H0. cbn [Qnum Qden] in *. lia. }
  unfold Binary64.round. destruct (Qnum x) as [|p|p] eqn:Hn; [lia | | lia].
  unfold Binary64.round_positive. cbv zeta. fold e.
  assert (0 < 2 ^ e)%Q as He by by apply Qpower_0_lt.
  pose proof (nearest_even_half (x / 2 ^ e)) as [Hlo Hhi].
  pose proof (nearest_even_bounds (x / 2 ^ e)) as [Hf Hc].
  set (m := Binary64.nearest_even (x / 2 ^ e)) in *.
  exists m. rewrite Qred_correct. split; [done |].
  assert (x == x / 2 ^ e * 2 ^ e)%Q as Hx by (field; lra).
  set (y := (x / 2 ^ e)%Q) in *.
  assert (0 <= y)%Q as Hy0.
  { subst y. apply Qle_shift_div_l; [done |]. lra. }
  assert (y < 2 ^ 53)%Q as Hy1.
  { subst y. apply Qlt_shift_div_r; [done |].
    destruct (ilog2_spec x H0) as [_ Hup].
    eapply Qlt_le_trans; [exact Hup |].
    rewrite <- Qpower_plus by done.
    apply Qpower_le_compat_l; [| done]. subst e. unfold Binary64.last_place. lia. }
  split.
  { split.
    - apply Z.le_trans with (Qfloor y); [| done].
      rewrite <- (Qfloor_Z 0). by apply Qfloor_resp_le.
    - apply Z.le_trans with (Qceiling y); [done |].
      rewrite <- (Qceiling_Z (2 ^ 53)). apply Qceiling_resp_le.
      rewrite Zpower_Qpower by lia. by apply Qlt_le_weak. }
  split.
  { intros Hnormal. apply Z.le_trans with (Qfloor y); [| done].
    rewrite <- (Qfloor_Z (2 ^ 52)). apply Qfloor_resp_le.
    rewrite Zpower_Qpower by lia. subst y. apply Qle_shift_div_l; [done |].
    rewrite <- Qpower_plus by done.
    destruct (ilog2_spec x H0) as [Hlow _].
    eapply Qle_trans; [| exact Hlow].
    apply Qpower_le_compat_l; [| done]. subst e. unfold Binary64.last_place in *. lia. }
  clearbody y. set (E := (2 ^ e)%Q) in *. set (M := inject_Z m) in *.
  clearbody E M. clear Hf Hc Hy1.
  assert (0 <= (y - (M - (1 # 2))) * E)%Q as H1 by (apply Qmult_le_0_compat; lra).
  assert (0 <= (M + (1 # 2) - y) * E)%Q as H2 by (apply Qmult_le_0_compat; lra).
  split; [apply Qle_minus_iff | apply Qle_minus_iff].
  - eapply Qle_trans; [exact H1 |]. rewrite Hx. apply Qle_lteq. right. field.
  - eapply Qle_trans; [exact H2 |]. rewrite Hx. apply Qle_lteq. right. field.
Qed.

Lemma below_2_53 x : (x <= 30500)%Q → (x < 2 ^ 53)%Q.
Proof.
  intros H. assert (2 ^ 53 == 9007199254740992)%Q as -> by by vm_compute. lra.
Qed.

Section Timers.

Variable WEBSOCKET_PROXY_URL : option string.
Variable JSON_parse : string → option JSON.
Variable WebSocket_throws : string → option string.
Variable Math_random : nat → Q.

Local Abbreviation connect' := (connect WEBSOCKET_PROXY_URL WebSocket_throws Math_random).
Local Abbreviation step' :=
  (step WEBSOCKET_PROXY_URL JSON_parse WebSocket_throws Math_random).
Local Abbreviation run' :=
  (run WEBSOCKET_PROXY_URL JSON_parse WebSocket_throws Math_random).
Local Abbreviation reachable' :=
  (reachable WEBSOCKET_PROXY_URL JSON_parse WebSocket_throws Math_random).
Local Abbreviation timer_state s :=
  (reconnectTimeoutId s, timeouts s, pingIntervalId s, intervals s, nextHandle s).

Lemma timers_ok_ext s s' : timer_state s' = timer_state s → timers_ok s → timers_ok s'.
Proof.
  unfold timers_ok, timer_tracked, heartbeat_tracked.
  intros [= -> -> -> -> ->]. done.
Qed.

Lemma timer_state_updateStatus newStatus details s :
  timer_state (updateStatus newStatus details s) = timer_state s.
Proof.
  by rewrite (updateStatus_frame reconnectTimeoutId), (updateStatus_frame timeouts),
    (updateStatus_frame pingIntervalId), (updateStatus_frame intervals),
    (updateStatus_frame nextHandle).
Qed.

Lemma timer_state_sendToServer m s : timer_state (sendToServer m s) = timer_state s.
Proof.
  by rewrite (sendToServer_frame reconnectTimeoutId), (sendToServer_frame timeouts),
    (sendToServer_frame pingIntervalId), (sendToServer_frame intervals),
    (sendToServer_frame nextHandle).
Qed.

Lemma timers_ok_updateStatus newStatus details s :
  timers_ok s → timers_ok (updateStatus newStatus details s).
Proof. apply timers_ok_ext, timer_state_updateStatus. Qed.

Lemma timers_ok_sendToServer m s : timers_ok s → timers_ok (sendToServer m s).
Proof. apply timers_ok_ext, timer_state_sendToServer. Qed.

Ltac timers_unfold :=
  unfold timers_ok, timer_tracked, heartbeat_tracked in *; simpl in *.

(** [if (reconnectTimeoutId) { clearTimeout(reconnectTimeoutId);
    reconnectTimeoutId = null; }] *)
Lemma timers_ok_cancel s :
  timers_ok s →
  let s' := if truthy_number (reconnectTimeoutId s)
            then set_reconnectTimeoutId None
                   (clearTimeout (default 0 (reconnectTimeoutId s)) s)
            else s in
  timers_ok s' ∧ reconnectTimeoutId s' = None ∧ timeouts s' = []
  ∧ pingIntervalId s' = pingIntervalId s ∧ intervals s' = intervals s.
Proof.
  intros Hok. pose proof Hok as ((Hto & Hpos) & Hhb & Hlt & Hne).
  destruct (reconnectTimeoutId s) as [h|] eqn:E; simpl.
  - specialize (Hpos h eq_refl). replace (h =? 0) with false by lia. simpl.
    unfold clearTimeout. simpl.
    assert (filter (λ x, x ≠ h) (timeouts s) = []) as Hf.
    { rewrite Hto. by rewrite filter_cons_False by (intros ?; done). }
    repeat split; timers_unfold; rewrite ?Hf; try done; try apply Hhb.
    intros h' [? | Hp]; [done |]. apply Hlt. by right.
  - repeat split; try done; try apply Hok.
Qed.

Lemma timers_ok_stopPing s :
  timers_ok s →
  timers_ok (stopPing s) ∧ pingIntervalId (stopPing s) = None
  ∧ intervals (stopPing s) = []
  ∧ reconnectTimeoutId (stopPing s) = reconnectTimeoutId s
  ∧ timeouts (stopPing s) = timeouts s.
Proof.
  intros Hok. pose proof Hok as (Htr & (Hiv & Hpos) & Hlt & Hne).
  unfold stopPing.
  destruct (pingIntervalId s) as [h|] eqn:E; simpl.
  - specialize (Hpos h eq_refl). replace (h =? 0) with false by lia. simpl.
    unfold clearInterval. simpl.
    assert (filter (λ x, x ≠ h) (intervals s) = []) as Hf.
    { rewrite Hiv. by rewrite filter_cons_False by (intros ?; done). }
    repeat split; timers_unfold; rewrite ?Hf; try done; try apply Htr.
    intros h' [Hr | ?]; [| done]. apply Hlt. by left.
  - repeat split; try done; try apply Hok.
    all: timers_unfold; rewrite ?E in *; by rewrite ?Hiv.
Qed.

Lemma timers_ok_startPing s :
  timers_ok s →
  timers_ok (startPing s)
  ∧ pingIntervalId (startPing s) = Some (Z.pos (nextHandle s))
  ∧ intervals (startPing s) = [Z.pos (nextHandle s)]
  ∧ reconnectTimeoutId (startPing s) = reconnectTimeoutId s
  ∧ timeouts (startPing s) = timeouts s
  ∧ heartbeats (trace (startPing s))
    = (Z.pos (nextHandle s), PING_INTERVAL_MS) :: heartbeats (trace s).
Proof.
  intros Hok. destruct (timers_ok_stopPing s Hok) as (Hok1 & Hp1 & Hi1 & Hr1 & Ht1).
  assert (nextHandle (stopPing s) = nextHandle s) as Hn
    by by rewrite (stopPing_frame nextHandle).
  assert (heartbeats (trace (stopPing s)) = heartbeats (trace s)) as Hh
    by (unfold heartbeats; by rewrite stopPing_omap).
  pose proof Hok1 as ((Hto & Hpos) & _ & Hlt & _).
  unfold startPing. simpl. rewrite Hi1, Hn.
  split; [| repeat split; try done; unfold heartbeats at 1; simpl;
            fold (heartbeats (trace (stopPing s))); by rewrite Hh].
  unfold timers_ok, timer_tracked, heartbeat_tracked. simpl.
  split; [done |]. split; [split; [done | intros h [= <-]; lia] |]. split.
  - intros h [Hr | [= <-]]; [| lia].
    specialize (Hlt h (or_introl Hr)). rewrite Hn in Hlt. lia.
  - intros h Hr [= <-].
    specialize (Hlt _ (or_introl Hr)). rewrite Hn in Hlt. lia.
Qed.

Lemma timer_state_scheduleReconnect_armed s :
  timer_tracked s →
  explicitClose s || negb (truthy (currentJwtToken s)) = false →
  timer_state (scheduleReconnect Math_random s)
  = (Some (Z.pos (nextHandle s)), [Z.pos (nextHandle s)], pingIntervalId s,
     intervals s, Pos.succ (nextHandle s)).
Proof.
  intros Ht Hgo. unfold scheduleReconnect. rewrite Hgo.
  pose proof (tracked_cleared s Ht) as Hc.
  set (sc := if truthy_number (reconnectTimeoutId s)
             then clearTimeout (default 0 (reconnectTimeoutId s)) s else s) in *.
  assert (pingIntervalId sc = pingIntervalId s ∧ intervals sc = intervals s
          ∧ nextHandle sc = nextHandle s) as (Hp & Hi & Hn).
  { subst sc. by destruct (truthy_number _). }
  simpl.
  rewrite (updateStatus_frame nextHandle), (updateStatus_frame timeouts),
    (updateStatus_frame pingIntervalId), (updateStatus_frame intervals) by done.
  simpl. by rewrite Hc, Hp, Hi, Hn.
Qed.

Lemma timers_ok_scheduleReconnect s :
  timers_ok s → timers_ok (scheduleReconnect Math_random s).
Proof.
  intros Hok. destruct (explicitClose s || negb (truthy (currentJwtToken s))) eqn:Hgo.
  - rewrite standing_scheduleReconnect_refused by done.
    by apply timers_ok_updateStatus.
  - pose proof Hok as (Htr & (Hiv & Hpos) & Hlt & Hne).
    pose proof (timer_state_scheduleReconnect_armed s Htr Hgo) as [= Hr Ht Hp Hi Hn].
    unfold timers_ok, timer_tracked, heartbeat_tracked.
    rewrite Hr, Ht, Hp, Hi, Hn.
    split; [split; [done | intros h [= <-]; lia] |]. split; [done |]. split.
    + intros h [[= <-] | Hh]; [lia |]. specialize (Hlt h (or_intror Hh)). lia.
    + intros h [= <-] Hh. specialize (Hlt _ (or_intror Hh)). lia.
Qed.

Lemma timers_ok_onSocketClose code reason s :
  timers_ok s →
  timers_ok (onSocketClose Math_random code reason s)
  ∧ pingIntervalId (onSocketClose Math_random code reason s) = None
  ∧ intervals (onSocketClose Math_random code reason s) = [].
Proof.
  intros Hok. destruct (timers_ok_stopPing s Hok) as (Hok1 & Hp1 & Hi1 & _).
  unfold onSocketClose. destruct (truthy_number _); [done |].
  destruct (explicitClose (stopPing s)).
  - split; [| split].
    + strip_with timers_ok_ext. by apply timers_ok_updateStatus.
    + simpl. by rewrite (updateStatus_frame pingIntervalId).
    + simpl. by rewrite (updateStatus_frame intervals).
  - set (s2 := updateStatus DISCONNECTED _ (stopPing s)).
    assert (timers_ok s2) as Hok2 by by apply timers_ok_updateStatus.
    assert (pingIntervalId s2 = None ∧ intervals s2 = []) as [Hp2 Hi2].
    { subst s2. by rewrite (updateStatus_frame pingIntervalId),
        (updateStatus_frame intervals). }
    pose proof (timers_ok_scheduleReconnect s2 Hok2) as Hok3.
    split; [| split].
    + by strip_with timers_ok_ext.
    + simpl. destruct (explicitClose s2 || negb (truthy (currentJwtToken s2))) eqn:Hgo.
      * rewrite standing_scheduleReconnect_refused by done.
        by rewrite (updateStatus_frame pingIntervalId).
      * pose proof (timer_state_scheduleReconnect_armed s2 (proj1 Hok2) Hgo) as [= _ _ Hp _ _].
        congruence.
    + simpl. destruct (explicitClose s2 || negb (truthy (currentJwtToken s2))) eqn:Hgo.
      * rewrite standing_scheduleReconnect_refused by done.
        by rewrite (updateStatus_frame intervals).
      * pose proof (timer_state_scheduleReconnect_armed s2 (proj1 Hok2) Hgo) as [= _ _ _ Hi _].
        congruence.
Qed.

Lemma timers_ok_connect jwtToken s : timers_ok s → timers_ok (connect' jwtToken s).
Proof.
  intros Hok. unfold connect.
  destruct (negb _); [by apply timers_ok_updateStatus |].
  destruct (open_or_connecting _); [by strip_with timers_ok_ext |].
  destruct (WebSocket_throws _).
  - apply timers_ok_scheduleReconnect, timers_ok_updateStatus.
    strip_with timers_ok_ext. apply timers_ok_updateStatus. by strip_with timers_ok_ext.
  - strip_with timers_ok_ext. apply timers_ok_updateStatus. by strip_with timers_ok_ext.
Qed.

Lemma timers_ok_disconnect s :
  timers_ok s →
  timers_ok (disconnect Math_random s)
  ∧ pingIntervalId (disconnect Math_random s) = None
  ∧ intervals (disconnect Math_random s) = [].
Proof.
  intros Hok. unfold disconnect.
  set (s1 := set_currentJwtToken None (set_explicitClose true s)).
  assert (timers_ok s1) as Hok1 by (subst s1; by strip_with timers_ok_ext).
  destruct (timers_ok_cancel s1 Hok1) as (Hok2 & _).
  set (s2 := if truthy_number (reconnectTimeoutId s1) then _ else s1) in *.
  destruct (timers_ok_stopPing s2 Hok2) as (Hok3 & Hp3 & Hi3 & _).
  set (s3 := stopPing s2) in *.
  destruct (socket s3) as [k|].
  - destruct (open_or_connecting _).
    + split; [| split]; [by strip_with timers_ok_ext | done | done].
    + destruct (timers_ok_onSocketClose 1000
                  "Client initiated disconnect on non-open socket" s3 Hok3)
        as (H1 & H2 & H3).
      split; [| split]; [by strip_with timers_ok_ext | done | done].
  - split; [| split].
    + strip_with timers_ok_ext. by apply timers_ok_updateStatus.
    + simpl. by rewrite (updateStatus_frame pingIntervalId).
    + simpl. by rewrite (updateStatus_frame intervals).
Qed.

Lemma timers_ok_onSocketOpen s :
  timers_ok s →
  let s' := onSocketOpen s in
  timers_ok s' ∧ reconnectTimeoutId s' = None ∧ timeouts s' = []
  ∧ ∃ h, pingIntervalId s' = Some h ∧ intervals s' = [h]
         ∧ heartbeats (trace s') = (h, PING_INTERVAL_MS) :: heartbeats (trace s).
Proof.
  intros Hok. cbv zeta. unfold onSocketOpen.
  set (s1 := set_currentReconnectDelay RECONNECT_INITIAL_DELAY_MS
               (updateStatus CONNECTED None s)).
  assert (timers_ok s1) as Hok1.
  { subst s1. strip_with timers_ok_ext. by apply timers_ok_updateStatus. }
  assert (heartbeats (trace s1) = heartbeats (trace s)) as Hh1.
  { subst s1. unfold heartbeats. simpl. by rewrite updateStatus_omap. }
  destruct (timers_ok_cancel s1 Hok1) as (Hok2 & Hr2 & Ht2 & _).
  set (s2 := if truthy_number (reconnectTimeoutId s1) then _ else s1) in *.
  assert (heartbeats (trace s2) = heartbeats (trace s)) as Hh2.
  { rewrite <- Hh1. subst s2. by destruct (truthy_number _). }
  destruct (timers_ok_startPing s2 Hok2) as (Hok3 & Hp3 & Hi3 & Hr3 & Ht3 & Hh3).
  split; [done |]. rewrite Hr3, Ht3. split; [done |]. split; [done |].
  exists (Z.pos (nextHandle s2)). rewrite Hh3, Hh2. by split; [| split].
Qed.

Lemma reachable_timers_ok s : reachable' s → timers_ok s.
Proof.
  induction 1 as [|e s s' _ IH Hstep].
  { repeat split; simpl; try done. by intros h [? | ?]. }
  destruct e; step_inv Hstep.
  - by apply timers_ok_connect.
  - by apply timers_ok_disconnect.
  - unfold setOnStatusChange. destruct callback; by strip_with timers_ok_ext.
  - apply timers_ok_onSocketOpen. by strip_with timers_ok_ext.
  - unfold onSocketMessage. destruct (JSON_parse data) as [[]|];
      repeat (destruct (is_tag _ _)); by strip_with timers_ok_ext.
  - unfold onSocketError. by strip_with timers_ok_ext.
  - apply timers_ok_onSocketClose. by strip_with timers_ok_ext.
  - pose proof IH as ((Hto & Hpos) & Hhb & Hlt & Hne).
    assert (reconnectTimeoutId s = Some h) as Hid.
    { apply bool_decide_eq_true in Hguard. rewrite Hto in Hguard.
      destruct (reconnectTimeoutId s) as [h'|].
      - apply list_elem_of_singleton in Hguard. by subst.
      - by apply elem_of_nil in Hguard. }
    rewrite Hid in Hto. unfold reconnect_timeout.
    set (s1 := set_reconnectTimeoutId None _).
    assert (timers_ok s1) as Hok1.
    { subst s1. unfold timers_ok, timer_tracked, heartbeat_tracked. simpl.
      rewrite Hto, filter_cons_False by (intros ?; done).
      repeat split; try done; try apply Hhb.
      intros h' [? | Hp]; [done |]. apply Hlt. by right. }
    destruct (truthy _); [by apply timers_ok_connect |].
    by apply timers_ok_updateStatus.
  - by apply timers_ok_sendToServer.
  - by apply timers_ok_sendToServer.
Qed.

Lemma currentStatus_onSocketOpen s : currentStatus (onSocketOpen s) = CONNECTED.
Proof.
  unfold onSocketOpen. rewrite (startPing_frame currentStatus) by done.
  destruct (truthy_number _); simpl; apply currentStatus_updateStatus.
Qed.

(** X1: in every state the manager can reach, at most one reconnect
    timeout and at most one heartbeat interval are armed, each is the one
    whose handle the module remembers ([reconnectTimeoutId],
    [pingIntervalId]), and the two handles differ, so that clearing one
    timer never cancels the other. *)
Theorem X1_timers_never_pile_up s :
  reachable WEBSOCKET_PROXY_URL JSON_parse WebSocket_throws Math_random s →
  (length (timeouts s) ≤ 1)%nat
  ∧ (length (intervals s) ≤ 1)%nat
  ∧ (∀ h, h ∈ timeouts s ↔ reconnectTimeoutId s = Some h)
  ∧ (∀ h, h ∈ intervals s ↔ pingIntervalId s = Some h)
  ∧ (∀ h, h ∈ timeouts s → h ∉ intervals s).
Proof.
  intros Hr. destruct (reachable_timers_ok s Hr) as ((Hto & _) & (Hiv & _) & _ & Hne).
  assert (∀ h, h ∈ timeouts s ↔ reconnectTimeoutId s = Some h) as Ht.
  { intros h. rewrite Hto. destruct (reconnectTimeoutId s) as [h'|].
    - rewrite list_elem_of_singleton. split; [by intros -> | by intros [= ->]].
    - split; [by intros ?%elem_of_nil | done]. }
  assert (∀ h, h ∈ intervals s ↔ pingIntervalId s = Some h) as Hi.
  { intros h. rewrite Hiv. destruct (pingIntervalId s) as [h'|].
    - rewrite list_elem_of_singleton. split; [by intros -> | by intros [= ->]].
    - split; [by intros ?%elem_of_nil | done]. }
  split; [rewrite Hto; destruct (reconnectTimeoutId s); simpl; lia |].
  split; [rewrite Hiv; destruct (pingIntervalId s); simpl; lia |].
  split; [done |]. split; [done |].
  intros h H1 H2. apply Ht in H1. apply Hi in H2. by apply (Hne h).
Qed.

(** X2: once a socket's close event has been handled, or [disconnect] has
    been called, no heartbeat is armed: the interval is cleared, its id is
    forgotten, and no heartbeat tick can fire any more. *)
Theorem X2_no_heartbeat_after_close s :
  reachable' s →
  (∀ k code reason s',
     step' (Socket_close k code reason) s = Some s' →
     intervals s' = [] ∧ pingIntervalId s' = None
     ∧ ∀ h, step' (Interval_fires h) s' = None)
  ∧ (intervals (disconnect Math_random s) = []
     ∧ pingIntervalId (disconnect Math_random s) = None
     ∧ ∀ h, step' (Interval_fires h) (disconnect Math_random s) = None).
Proof.
  intros Hr. pose proof (reachable_timers_ok s Hr) as Hok.
  assert (∀ x, intervals x = [] → ∀ h, step' (Interval_fires h) x = None) as Hno.
  { intros x Hx h. unfold step. rewrite Hx.
    rewrite bool_decide_eq_false_2; [done | apply not_elem_of_nil]. }
  split.
  - intros k code reason s' Hstep. step_inv Hstep.
    destruct (timers_ok_onSocketClose code reason (set_readyState k WS_CLOSED s))
      as (_ & Hp & Hi); [by strip_with timers_ok_ext |].
    split; [done |]. split; [done |]. by apply Hno.
  - destruct (timers_ok_disconnect s Hok) as (_ & Hp & Hi).
    split; [done |]. split; [done |]. by apply Hno.
Qed.

(** X3: when a connecting socket opens, the manager is [CONNECTED], any
    pending reconnect timer is cancelled, and exactly one heartbeat is
    armed, with the 25 s period, by a single [setInterval] call. *)
Theorem X3_open_starts_one_heartbeat k s s' :
  reachable' s →
  step' (Socket_open k) s = Some s' →
  currentStatus s' = CONNECTED
  ∧ reconnectTimeoutId s' = None ∧ timeouts s' = []
  ∧ ∃ h, pingIntervalId s' = Some h ∧ intervals s' = [h]
         ∧ heartbeats (trace s') = (h, 25000) :: heartbeats (trace s).
Proof.
  intros Hr Hstep. pose proof (reachable_timers_ok s Hr) as Hok. step_inv Hstep.
  split; [apply currentStatus_onSocketOpen |].
  destruct (timers_ok_onSocketOpen (set_readyState k WS_OPEN s))
    as (_ & Hrid & Hto & h & Hp & Hi & Hh); [by strip_with timers_ok_ext |].
  split; [done |]. split; [done |]. exists h. by rewrite Hp, Hi, Hh.
Qed.

(** *** The delays the reconnect timer is armed with *)

Lemma scheduled_scheduleReconnect s :
  scheduled (trace (scheduleReconnect Math_random s))
  = if explicitClose s || negb (truthy (currentJwtToken s)) then scheduled (trace s)
    else (Z.pos (nextHandle s),
          delayWithJitter (currentReconnectDelay s) (Math_random (randoms_drawn s)))
         :: scheduled (trace s).
Proof.
  destruct (explicitClose s || negb (truthy (currentJwtToken s))) eqn:Hgo.
  { rewrite standing_scheduleReconnect_refused by done.
    unfold scheduled. by rewrite updateStatus_omap. }
  unfold scheduleReconnect. rewrite Hgo.
  set (sc := if truthy_number (reconnectTimeoutId s)
             then clearTimeout (default 0 (reconnectTimeoutId s)) s else s).
  assert (currentReconnectDelay sc = currentReconnectDelay s
          ∧ randoms_drawn sc = randoms_drawn s ∧ nextHandle sc = nextHandle s
          ∧ scheduled (trace sc) = scheduled (trace s)) as (Hd & Hn & Hh & Hs).
  { subst sc. by destruct (truthy_number _). }
  simpl. unfold scheduled at 1. simpl. fold (scheduled (trace sc)).
  rewrite updateStatus_omap by done. simpl. fold (scheduled (trace sc)).
  rewrite (updateStatus_frame nextHandle) by done. simpl.
  by rewrite Hd, Hn, Hh, Hs.
Qed.

Lemma delayWithJitter_bounds d r :
  RECONNECT_INITIAL_DELAY_MS ≤ d ≤ RECONNECT_MAX_DELAY_MS →
  (0 <= r)%Q → (r < 1)%Q →
  (inject_Z d <= delayWithJitter d r)%Q
  ∧ (delayWithJitter d r <= inject_Z d + 500)%Q
  ∧ (1000 <= delayWithJitter d r)%Q ∧ (delayWithJitter d r <= 30500)%Q.
Proof.
  unfold RECONNECT_INITIAL_DELAY_MS, RECONNECT_MAX_DELAY_MS, delayWithJitter,
    RECONNECT_JITTER_MS, Binary64.add, Binary64.mul.
  intros [Hlo Hhi] H0 H1.
  rewrite Zle_Qle in Hlo, Hhi.
  change (inject_Z 1000) with 1000%Q in Hlo. change (inject_Z (30 * 1000)) with 30000%Q in Hhi.
  change (inject_Z 500) with 500%Q.
  destruct (round_between 0 500 (r * 500)) as [Hj0 Hj1];
    [lra | apply below_2_53; lra | change (inject_Z 0) with 0%Q; lra
     | change (inject_Z 500) with 500%Q; lra |].
  change (inject_Z 0) with 0%Q in Hj0. change (inject_Z 500) with 500%Q in Hj1.
  set (j := Binary64.round (r * 500)) in *. clearbody j.
  destruct (round_between d (d + 500) (inject_Z d + j)) as [Hd0 Hd1];
    [lra | apply below_2_53; lra | lra
     | rewrite inject_Z_plus; change (inject_Z 500) with 500%Q; lra |].
  rewrite inject_Z_plus in Hd1. change (inject_Z 500) with 500%Q in Hd1.
  set (x := Binary64.round (inject_Z d + j)) in *. clearbody x.
  repeat split; lra.
Qed.

Lemma delayWithJitter_no_jitter d :
  RECONNECT_INITIAL_DELAY_MS ≤ d ≤ RECONNECT_MAX_DELAY_MS →
  (delayWithJitter d 0 == inject_Z d)%Q.
Proof.
  intros Hd.
  destruct (delayWithJitter_bounds d 0 Hd) as (Hlo & _); [lra | lra |].
  apply Qle_antisym; [| done].
  unfold delayWithJitter, Binary64.add, Binary64.mul.
  change (Binary64.round (0 * inject_Z RECONNECT_JITTER_MS)) with 0%Q.
  unfold RECONNECT_INITIAL_DELAY_MS, RECONNECT_MAX_DELAY_MS in Hd.
  assert (inject_Z d <= 30000)%Q as Hhi.
  { change 30000%Q with (inject_Z 30000). rewrite <- Zle_Qle. lia. }
  assert (1000 <= inject_Z d)%Q as Hlo'.
  { change 1000%Q with (inject_Z 1000). rewrite <- Zle_Qle. lia. }
  apply (round_between d d); [lra | apply below_2_53; lra | lra | lra].
Qed.

(** What one call may add to the [setTimeout] calls made so far. *)
Local Abbreviation schedule_moves s s' :=
  (scheduled (trace s') = scheduled (trace s)
   ∨ ∃ h n, scheduled (trace s')
            = (h, delayWithJitter (currentReconnectDelay s) (Math_random n))
              :: scheduled (trace s)).

Lemma schedule_moves_scheduleReconnect s x :
  scheduled (trace x) = scheduled (trace s) →
  currentReconnectDelay x = currentReconnectDelay s →
  schedule_moves s (scheduleReconnect Math_random x).
Proof.
  intros Hs Hd. rewrite scheduled_scheduleReconnect.
  destruct (_ || _); [by left |]. right. rewrite Hs, Hd. by eexists _, _.
Qed.

Lemma scheduled_standing s s' :
  standing s' = standing s → scheduled (trace s') = scheduled (trace s).
Proof. unfold standing. by intros [= _ _ _ ->]. Qed.

Lemma schedule_moves_onSocketClose code reason s :
  schedule_moves s (onSocketClose Math_random code reason s).
Proof.
  unfold onSocketClose. destruct (truthy_number _).
  { left. apply scheduled_standing, standing_stopPing. }
  destruct (explicitClose _).
  { left. simpl. unfold scheduled. rewrite updateStatus_omap by done.
    apply (scheduled_standing s), standing_stopPing. }
  simpl. apply schedule_moves_scheduleReconnect.
  - unfold scheduled. rewrite updateStatus_omap by done.
    apply (scheduled_standing s), standing_stopPing.
  - by rewrite (updateStatus_frame currentReconnectDelay),
      (stopPing_frame currentReconnectDelay).
Qed.

Lemma schedule_moves_connect jwtToken s : schedule_moves s (connect' jwtToken s).
Proof.
  unfold connect.
  destruct (negb _).
  { left. unfold scheduled. by rewrite updateStatus_omap. }
  destruct (open_or_connecting _); [by left |].
  destruct (WebSocket_throws _).
  - apply schedule_moves_scheduleReconnect.
    + unfold scheduled. rewrite updateStatus_omap by done. simpl.
      by rewrite updateStatus_omap.
    + rewrite (updateStatus_frame currentReconnectDelay) by done. simpl.
      by rewrite (updateStatus_frame currentReconnectDelay).
  - left. simpl. unfold scheduled. simpl. by rewrite updateStatus_omap.
Qed.

Lemma schedule_moves_step e s s' :
  timer_tracked s → step' e s = Some s' → schedule_moves s s'.
Proof.
  intros Ht Hstep. destruct e; step_inv Hstep.
  - apply schedule_moves_connect.
  - left. by apply disconnect_quiet.
  - left. unfold setOnStatusChange. by destruct callback.
  - left. unfold onSocketOpen.
    rewrite (scheduled_standing _ _ (standing_startPing _)).
    destruct (truthy_number _); simpl; unfold scheduled; simpl;
      by rewrite updateStatus_omap.
  - left. unfold onSocketMessage. destruct (JSON_parse data) as [[]|];
      by repeat (destruct (is_tag _ _)).
  - by left.
  - apply (schedule_moves_onSocketClose code reason (set_readyState k WS_CLOSED s)).
  - unfold reconnect_timeout. destruct (truthy _).
    + apply (schedule_moves_connect _
               (set_reconnectTimeoutId None
                  (set_timeouts (filter (λ x, x ≠ h) (timeouts s)) s))).
    + left. unfold scheduled. by rewrite updateStatus_omap.
  - left. apply scheduled_standing, standing_sendToServer.
  - left. apply scheduled_standing, standing_sendToServer.
Qed.

(** X4: provided [Math.random()] returns numbers in [0, 1), every delay
    the manager has ever passed to [setTimeout] is at least 1000 ms and
    at most 30500 ms; an arming [scheduleReconnect] passes the base delay
    plus the draw times 500, each operation rounded as the platform
    rounds Numbers, which is at least the base delay and at most 500 ms
    more. Both bounds are attained: a draw of 0 gives the base delay, and
    for the draw 1 - 2^-52 the rounding makes the jitter the full 500 ms,
    at the initial base delay and at the maximal one. *)
Theorem X4_reconnect_delays_within_bounds s :
  unit_interval Math_random →
  reachable' s →
  Forall (λ hd, (1000 <= hd.2)%Q ∧ (hd.2 <= 30500)%Q) (scheduled (trace s))
  ∧ (explicitClose s = false → truthy (currentJwtToken s) = true →
     ∃ h d, scheduled (trace (scheduleReconnect Math_random s))
            = (h, d) :: scheduled (trace s)
            ∧ d = delayWithJitter (currentReconnectDelay s)
                    (Math_random (randoms_drawn s))
            ∧ (inject_Z (currentReconnectDelay s) <= d)%Q
            ∧ (d <= inject_Z (currentReconnectDelay s) + 500)%Q)
  ∧ (∀ d, RECONNECT_INITIAL_DELAY_MS ≤ d ≤ RECONNECT_MAX_DELAY_MS →
          (delayWithJitter d 0 == inject_Z d)%Q)
  ∧ delayWithJitter RECONNECT_INITIAL_DELAY_MS (1 - (1 # 2) ^ 52) = 1500%Q
  ∧ delayWithJitter RECONNECT_MAX_DELAY_MS (1 - (1 # 2) ^ 52) = 30500%Q.
Proof.
  intros Hrand Hr. split; [| split; [| split; [| split]]].
  - induction Hr as [|e s s' Hr IH Hstep]; [constructor |].
    pose proof (reachable_delay_in_bounds _ _ _ _ s Hr) as Hb.
    pose proof (reachable_timer_tracked _ _ _ _ s Hr) as Ht.
    destruct (schedule_moves_step e s s' Ht Hstep) as [-> | (h & n & ->)]; [done |].
    constructor; [| done]. simpl.
    destruct (Hrand n) as [H0 H1].
    by destruct (delayWithJitter_bounds (currentReconnectDelay s) (Math_random n) Hb H0 H1)
      as (_ & _ & ? & ?).
  - intros He Htok. rewrite scheduled_scheduleReconnect, He, Htok. simpl.
    eexists _, _. split; [done |]. split; [done |].
    pose proof (reachable_delay_in_bounds _ _ _ _ s Hr) as Hb.
    destruct (Hrand (randoms_drawn s)) as [H0 H1].
    by destruct (delayWithJitter_bounds _ _ Hb H0 H1) as (? & ? & _).
  - apply delayWithJitter_no_jitter.
  - by vm_compute.
  - by vm_compute.
Qed.

Lemma scheduleReconnect_keeps s :
  explicitClose (scheduleReconnect Math_random s) = explicitClose s
  ∧ currentJwtToken (scheduleReconnect Math_random s) = currentJwtToken s.
Proof.
  unfold scheduleReconnect. destruct (_ || _).
  - by rewrite (updateStatus_frame explicitClose), (updateStatus_frame currentJwtToken).
  - simpl.
    rewrite (updateStatus_frame explicitClose), (updateStatus_frame currentJwtToken)
      by done.
    simpl. by destruct (truthy_number _).
Qed.

(** X5: [n] retries in a row, each an arming [scheduleReconnect] with no
    socket opening in between, take a base delay [d] (at most the maximum)
    to [min (d * 2^n) 30000]: from the initial 1000 ms it is 2000, 4000,
    8000, 16000 and from the fifth retry on 30000. *)
Theorem X5_backoff_closed_form n s :
  explicitClose s = false → truthy (currentJwtToken s) = true →
  currentReconnectDelay s ≤ RECONNECT_MAX_DELAY_MS →
  let s' := Nat.iter n (scheduleReconnect Math_random) s in
  currentReconnectDelay s'
  = Z.min (currentReconnectDelay s * 2 ^ Z.of_nat n) RECONNECT_MAX_DELAY_MS
  ∧ explicitClose s' = false ∧ currentJwtToken s' = currentJwtToken s
  ∧ (currentReconnectDelay s = RECONNECT_INITIAL_DELAY_MS → (5 ≤ n)%nat →
     currentReconnectDelay s' = RECONNECT_MAX_DELAY_MS).
Proof.
  intros He Ht Hmax. cbv zeta.
  assert (currentReconnectDelay (Nat.iter n (scheduleReconnect Math_random) s)
          = Z.min (currentReconnectDelay s * 2 ^ Z.of_nat n) RECONNECT_MAX_DELAY_MS
          ∧ explicitClose (Nat.iter n (scheduleReconnect Math_random) s) = false
          ∧ currentJwtToken (Nat.iter n (scheduleReconnect Math_random) s)
            = currentJwtToken s) as (Hd & He' & Ht').
  { induction n as [|n (IHd & IHe & IHt)].
    - simpl. split; [lia | done].
    - change (Nat.iter (S n) (scheduleReconnect Math_random) s)
        with (scheduleReconnect Math_random
                (Nat.iter n (scheduleReconnect Math_random) s)).
      destruct (scheduleReconnect_keeps (Nat.iter n (scheduleReconnect Math_random) s))
        as [-> ->].
      split; [| by rewrite IHe, IHt].
      rewrite delay_scheduleReconnect_armed by (by rewrite ?IHt).
      rewrite IHd, Nat2Z.inj_succ, Z.pow_succ_r by lia.
      replace (currentReconnectDelay s * (2 * 2 ^ Z.of_nat n))
        with (currentReconnectDelay s * 2 ^ Z.of_nat n * 2) by ring.
      unfold RECONNECT_MAX_DELAY_MS. lia. }
  split; [done |]. split; [done |]. split; [done |].
  intros Hinit Hn. rewrite Hd, Hinit.
  assert (2 ^ 5 ≤ 2 ^ Z.of_nat n) by (apply Z.pow_le_mono_r; lia).
  unfold RECONNECT_INITIAL_DELAY_MS, RECONNECT_MAX_DELAY_MS. lia.
Qed.

(** *** Connecting, losing the connection, and giving it up *)

(** What a [connect] call that reaches the constructor and succeeds does. *)
Lemma connect_succeeds jwtToken s :
  truthy (Some jwtToken) = true →
  open_or_connecting (held_readyState s) = false →
  WebSocket_throws (wsUrl WEBSOCKET_PROXY_URL jwtToken) = None →
  let s' := connect' jwtToken s in
  currentStatus s' = CONNECTING
  ∧ sockets s' = sockets s ++ [mkWebSocket (wsUrl WEBSOCKET_PROXY_URL jwtToken) WS_CONNECTING]
  ∧ socket s' = Some (length (sockets s))
  ∧ held_readyState s' = Some WS_CONNECTING
  ∧ constructed (trace s')
    = (wsUrl WEBSOCKET_PROXY_URL jwtToken, Some (length (sockets s)))
      :: constructed (trace s)
  ∧ currentJwtToken s' = Some jwtToken
  ∧ explicitClose s' = false
  ∧ timer_state s' = timer_state s
  ∧ scheduled (trace s') = scheduled (trace s).
Proof.
  intros Ht Hg Hok. cbv zeta. unfold connect. rewrite Ht. simpl.
  change (held_readyState (set_currentJwtToken (Some jwtToken) s))
    with (held_readyState s).
  rewrite Hg. fold (wsUrl WEBSOCKET_PROXY_URL jwtToken). rewrite Hok.
  set (s1 := updateStatus CONNECTING None
               (set_explicitClose false (set_currentJwtToken (Some jwtToken) s))).
  assert (currentStatus s1 = CONNECTING) as Hst
    by (subst s1; apply currentStatus_updateStatus).
  assert (sockets s1 = sockets s ∧ currentJwtToken s1 = Some jwtToken
          ∧ explicitClose s1 = false ∧ timer_state s1 = timer_state s
          ∧ constructed (trace s1) = constructed (trace s)
          ∧ scheduled (trace s1) = scheduled (trace s))
    as (Hso & Htok & Hex & Hts & Hco & Hsc).
  { subst s1.
    rewrite (updateStatus_frame sockets), (updateStatus_frame currentJwtToken),
      (updateStatus_frame explicitClose), timer_state_updateStatus,
      constructed_updateStatus by done.
    repeat (split; [done |]). unfold scheduled. by rewrite updateStatus_omap. }
  simpl. rewrite Hso.
  split; [done |]. split; [done |]. split; [done |]. split.
  { unfold held_readyState. simpl.
    by rewrite lookup_app_r, Nat.sub_diag by lia. }
  by rewrite Hco.
Qed.

(** X12: [connect] with a non-empty token, no open or connecting socket
    held and a constructor that accepts the URL constructs exactly one
    WebSocket, for the endpoint with [?auth_token=] and the token
    appended, holds it in state CONNECTING, stores the token, resets the
    explicit-close flag, reports [CONNECTING] and touches no timer. *)
Theorem X12_connect_opens_one_socket jwtToken s :
  truthy (Some jwtToken) = true →
  open_or_connecting (held_readyState s) = false →
  WebSocket_throws (wsUrl WEBSOCKET_PROXY_URL jwtToken) = None →
  let s' := connect' jwtToken s in
  currentStatus s' = CONNECTING
  ∧ sockets s' = sockets s ++ [mkWebSocket (wsUrl WEBSOCKET_PROXY_URL jwtToken) WS_CONNECTING]
  ∧ socket s' = Some (length (sockets s))
  ∧ held_readyState s' = Some WS_CONNECTING
  ∧ constructed (trace s')
    = (wsUrl WEBSOCKET_PROXY_URL jwtToken, Some (length (sockets s)))
      :: constructed (trace s)
  ∧ currentJwtToken s' = Some jwtToken
  ∧ explicitClose s' = false
  ∧ timer_state s' = timer_state s
  ∧ scheduled (trace s') = scheduled (trace s).
Proof. apply connect_succeeds. Qed.

Lemma onSocketClose_cases code reason s :
  onSocketClose Math_random code reason s
  = if truthy_number (reconnectTimeoutId s) then stopPing s
    else if explicitClose s then
      set_socket None
        (set_explicitClose false
           (updateStatus IDLE
              (Some ("Connection closed by client. Code: " +:+ pretty code))
              (stopPing s)))
    else
      set_socket None
        (scheduleReconnect Math_random
           (updateStatus DISCONNECTED
              (Some ("Connection closed. Code: " +:+ pretty code +:+ ", Reason: " +:+
                     (if truthy (Some reason) then reason else "N/A")))
              (stopPing s))).
Proof.
  unfold onSocketClose. cbv zeta.
  rewrite (stopPing_frame reconnectTimeoutId), (stopPing_frame explicitClose) by done.
  by repeat case_match.
Qed.

(** X8: while a reconnect is pending, a socket's close event only stops
    the heartbeat: the status, the socket held (it is not cleared), the
    explicit-close flag, the pending timer and the base delay stay as they
    are, and nothing is reported or scheduled. *)
Theorem X8_close_ignored_while_reconnect_pending k code reason h s s' :
  reachable' s →
  reconnectTimeoutId s = Some h →
  step' (Socket_close k code reason) s = Some s' →
  currentStatus s' = currentStatus s
  ∧ socket s' = socket s
  ∧ explicitClose s' = explicitClose s
  ∧ currentJwtToken s' = currentJwtToken s
  ∧ currentReconnectDelay s' = currentReconnectDelay s
  ∧ reconnectTimeoutId s' = Some h ∧ timeouts s' = [h]
  ∧ intervals s' = []
  ∧ scheduled (trace s') = scheduled (trace s)
  ∧ callbacks (trace s') = callbacks (trace s).
Proof.
  intros Hr Hid Hstep. pose proof (reachable_timers_ok s Hr) as Hok.
  pose proof Hok as ((Hto & Hpos) & _). rewrite Hid in Hto.
  specialize (Hpos h Hid). step_inv Hstep.
  set (x := set_readyState k WS_CLOSED s).
  assert (timers_ok x) as Hokx by (subst x; by strip_with timers_ok_ext).
  rewrite onSocketClose_cases.
  change (reconnectTimeoutId x) with (reconnectTimeoutId s). rewrite Hid. simpl.
  replace (h =? 0) with false by lia. simpl.
  destruct (timers_ok_stopPing x Hokx) as (_ & _ & Hi & Hr' & Ht').
  rewrite (stopPing_frame currentStatus), (stopPing_frame socket),
    (stopPing_frame explicitClose), (stopPing_frame currentJwtToken),
    (stopPing_frame currentReconnectDelay), Hi, Hr', Ht' by done.
  repeat (split; [done |]).
  unfold scheduled, callbacks. by rewrite !stopPing_omap.
Qed.

Lemma held_readyState_lookup s r :
  held_readyState s = Some r →
  ∃ k w, socket s = Some k ∧ sockets s !! k = Some w ∧ readyState w = r.
Proof.
  unfold held_readyState. destruct (socket s) as [k|]; [| done]. simpl.
  destruct (sockets s !! k) as [w|] eqn:E; [| done]. simpl. intros [= <-].
  by exists k, w.
Qed.

(** X7: [disconnect] forgets the token, leaves no reconnect timer and no
    heartbeat armed, and passes nothing to [setTimeout]. With an open or
    connecting socket held it calls [socket.close(1000, ...)] on it once,
    lets go of it and leaves the status as it is; when that socket's
    close event then arrives, the manager reports [IDLE], resets the
    explicit-close flag and arms nothing. With no such socket held,
    [disconnect] reports [IDLE] at once and closes nothing. *)
Theorem X7_explicit_disconnect_ends_idle s :
  reachable' s →
  let s1 := disconnect Math_random s in
  (currentJwtToken s1 = None
   ∧ reconnectTimeoutId s1 = None ∧ timeouts s1 = []
   ∧ pingIntervalId s1 = None ∧ intervals s1 = []
   ∧ scheduled (trace s1) = scheduled (trace s))
  ∧ socket s1 = None
  ∧ (open_or_connecting (held_readyState s) = false → currentStatus s1 = IDLE
     ∧ close_calls (trace s1) = close_calls (trace s))
  ∧ (∀ k, socket s = Some k → open_or_connecting (held_readyState s) = true →
          currentStatus s1 = currentStatus s
          ∧ explicitClose s1 = true
          ∧ close_calls (trace s1)
            = (k, 1000, "Client initiated disconnect") :: close_calls (trace s)
          ∧ readyState <$> sockets s1 !! k = Some WS_CLOSING
          ∧ ∀ code reason,
              ∃ s2, step' (Socket_close k code reason) s1 = Some s2
                    ∧ currentStatus s2 = IDLE ∧ explicitClose s2 = false
                    ∧ socket s2 = None ∧ timeouts s2 = []
                    ∧ scheduled (trace s2) = scheduled (trace s)).
Proof.
  intros Hr. cbv zeta.
  pose proof (reachable_timer_tracked _ _ _ _ s Hr) as Htr.
  destruct (disconnect_quiet Math_random s Htr) as [Hq Hsch].
  split.
  { destruct (timers_ok_disconnect s (reachable_timers_ok s Hr)) as (_ & Hp & Hi).
    by destruct Hq as (? & ? & ?). }
  unfold disconnect in *.
  set (s1 := set_currentJwtToken None (set_explicitClose true s)) in *.
  set (s2 := if truthy_number (reconnectTimeoutId s1) then _ else s1) in *.
  set (s3 := stopPing s2) in *.
  assert (socket s3 = socket s ∧ sockets s3 = sockets s
          ∧ currentStatus s3 = currentStatus s ∧ explicitClose s3 = true
          ∧ close_calls (trace s3) = close_calls (trace s))
    as (Hso & Hss & Hst & Hex & Hcl).
  { subst s3. rewrite (stopPing_frame socket), (stopPing_frame sockets),
      (stopPing_frame currentStatus), (stopPing_frame explicitClose) by done.
    unfold close_calls. rewrite stopPing_omap by done.
    subst s2 s1. by destruct (truthy_number _). }
  assert (held_readyState s3 = held_readyState s) as Hh
    by (unfold held_readyState; by rewrite Hso, Hss).
  rewrite Hh in *. rewrite Hso in *.
  split; [done |]. split.
  - intros Hno. rewrite Hno in *. destruct (socket s) as [k|].
    + rewrite onSocketClose_cases. rewrite onSocketClose_cases in Hq.
      destruct (truthy_number (reconnectTimeoutId s3)) eqn:E.
      { destruct Hq as (_ & Hid & _). simpl in Hid.
        rewrite (stopPing_frame reconnectTimeoutId) in Hid by done.
        by rewrite Hid in E. }
      rewrite Hex. simpl. split; [apply currentStatus_updateStatus |].
      unfold close_calls. rewrite updateStatus_omap, stopPing_omap by done.
      fold (close_calls (trace s3)). done.
    + simpl. split; [apply currentStatus_updateStatus |].
      unfold close_calls. rewrite updateStatus_omap by done. done.
  - intros k Hk Hopen. rewrite Hk, Hopen in *. simpl.
    destruct (held_readyState_lookup s3) with (r := default 0 (held_readyState s))
      as (k' & w & Hk' & Hw & _).
    { rewrite Hh. by destruct (held_readyState s). }
    rewrite Hso in Hk'. injection Hk' as <-.
    split; [done |]. split; [done |].
    split; [unfold close_calls; simpl; fold (close_calls (trace s3)); by rewrite Hcl |].
    split; [unfold set_readyState; simpl; by rewrite list_lookup_alter_eq, Hw |].
    intros code reason. unfold step. simpl.
    unfold set_readyState at 2. simpl. rewrite list_lookup_alter_eq, Hw. simpl.
    eexists. split; [reflexivity |].
    match goal with
    | |- context [onSocketClose _ _ _ ?x] => set (x4 := x)
    end.
    assert (quiet x4) as Hq4 by apply Hq.
    assert (explicitClose x4 = true) as Hex4 by done.
    pose proof (standing_onSocketClose Math_random code reason x4 Hq4) as Hs4.
    rewrite onSocketClose_cases in *.
    destruct Hq4 as (_ & Hid4 & Hto4). rewrite Hid4, Hex4 in *. simpl in *.
    split; [apply currentStatus_updateStatus |]. split; [done |]. split; [done |].
    unfold standing in Hs4. injection Hs4 as _ _ Hto Hsc.
    split; [by rewrite Hto |]. rewrite Hsc. exact Hsch.
Qed.

(** X6: an unexpected close (the close was not explicit, a token is
    stored, no retry is pending) reports [DISCONNECTED] and then
    [RECONNECTING], lets go of the socket and arms one timer; when that
    timer fires and the constructor accepts the URL, the manager connects
    again with the stored token: a new socket in state CONNECTING is held,
    the status is [CONNECTING] and no timer is left armed. *)
Theorem X6_unexpected_close_reconnects k w code reason jwtToken s :
  reachable' s →
  explicitClose s = false → reconnectTimeoutId s = None →
  currentJwtToken s = Some jwtToken → truthy (Some jwtToken) = true →
  sockets s !! k = Some w → readyState w ≠ WS_CLOSED →
  WebSocket_throws (wsUrl WEBSOCKET_PROXY_URL jwtToken) = None →
  ∃ h s1 s2,
    step' (Socket_close k code reason) s = Some s1
    ∧ currentStatus s1 = RECONNECTING ∧ socket s1 = None
    ∧ reconnectTimeoutId s1 = Some h ∧ timeouts s1 = [h]
    ∧ step' (Timeout_fires h) s1 = Some s2
    ∧ currentStatus s2 = CONNECTING
    ∧ sockets s2
      = sockets s1 ++ [mkWebSocket (wsUrl WEBSOCKET_PROXY_URL jwtToken) WS_CONNECTING]
    ∧ socket s2 = Some (length (sockets s1))
    ∧ reconnectTimeoutId s2 = None ∧ timeouts s2 = []
    ∧ currentJwtToken s2 = Some jwtToken.
Proof.
  intros Hr He Hid Htok Ht Hw Hnc Hctor.
  pose proof (reachable_timers_ok s Hr) as Hok.
  set (x := set_readyState k WS_CLOSED s).
  set (y := updateStatus DISCONNECTED
              (Some ("Connection closed. Code: " +:+ pretty code +:+ ", Reason: " +:+
                     (if truthy (Some reason) then reason else "N/A")))
              (stopPing x)).
  assert (timers_ok y) as Hoky.
  { subst y. apply timers_ok_updateStatus, timers_ok_stopPing.
    subst x. by strip_with timers_ok_ext. }
  assert (explicitClose y = false ∧ currentJwtToken y = Some jwtToken) as [Hey Hty].
  { subst y. by rewrite (updateStatus_frame explicitClose),
      (updateStatus_frame currentJwtToken), (stopPing_frame explicitClose),
      (stopPing_frame currentJwtToken). }
  assert (truthy (currentJwtToken y) = true) as Htruthy by by rewrite Hty.
  assert (onSocketClose Math_random code reason x
          = set_socket None (scheduleReconnect Math_random y)) as Hclose.
  { rewrite onSocketClose_cases.
    change (reconnectTimeoutId x) with (reconnectTimeoutId s).
    change (explicitClose x) with (explicitClose s). by rewrite Hid, He. }
  destruct (scheduleReconnect_armed Math_random y Hey Htruthy)
    as (Hst1 & Htok1 & _ & Hrid1 & _).
  assert (explicitClose y || negb (truthy (currentJwtToken y)) = false) as Hgo
    by by rewrite Hey, Htruthy.
  pose proof (timer_state_scheduleReconnect_armed y (proj1 Hoky) Hgo) as [= _ Hto1 _ _ _].
  set (h := Z.pos (nextHandle y)) in *.
  set (s1 := set_socket None (scheduleReconnect Math_random y)).
  set (z := set_reconnectTimeoutId None
              (set_timeouts (filter (λ v, v ≠ h) (timeouts s1)) s1)).
  assert (open_or_connecting (held_readyState z) = false) as Hgz by done.
  destruct (connect_succeeds jwtToken z Ht Hgz Hctor)
    as (Hst2 & Hso2 & Hsk2 & _ & _ & Htok2 & _ & Hts2 & _).
  exists h, s1, (connect' jwtToken z).
  split.
  { unfold step. rewrite Hw. simpl.
    destruct (readyState w =? WS_CLOSED) eqn:E; [by apply Z.eqb_eq in E |].
    fold x. by rewrite Hclose. }
  split; [done |]. split; [done |]. split; [done |]. split; [done |].
  split.
  { unfold step. change (timeouts s1) with (timeouts (scheduleReconnect Math_random y)).
    rewrite Hto1.
    rewrite bool_decide_eq_true_2 by (by apply list_elem_of_singleton).
    unfold reconnect_timeout. simpl. rewrite Htok1, Hty, Ht. simpl.
    subst z. simpl. by rewrite Hto1. }
  split; [done |]. split; [done |]. split; [done |].
  injection Hts2 as -> -> _ _ _. simpl. rewrite Hto1.
  split; [done |]. split; [| done].
  by rewrite filter_cons_False by (intros ?; done).
Qed.

(** *** What the observer is told *)

Local Abbreviation observer_state s :=
  (currentStatus s, onStatusChangeCallback s, callbacks (trace s)).

Lemma informed_ext s s' :
  observer_state s' = observer_state s → observer_informed s → observer_informed s'.
Proof. unfold observer_informed. intros [= -> -> ->]. done. Qed.

Lemma informed_updateStatus newStatus details s :
  observer_informed s → observer_informed (updateStatus newStatus details s).
Proof.
  unfold observer_informed.
  rewrite currentStatus_updateStatus, callbacks_updateStatus,
    (updateStatus_frame onStatusChangeCallback) by done.
  intros H Hcb. rewrite Hcb. destruct (bool_decide _) eqn:E; simpl.
  - apply bool_decide_eq_true in E. subst newStatus.
    destruct (negb (truthy details)); [by apply H | by eexists _, _].
  - by eexists _, _.
Qed.

Lemma observer_state_stopPing s : observer_state (stopPing s) = observer_state s.
Proof.
  rewrite (stopPing_frame currentStatus), (stopPing_frame onStatusChangeCallback) by done.
  unfold callbacks. by rewrite stopPing_omap.
Qed.

Lemma observer_state_startPing s : observer_state (startPing s) = observer_state s.
Proof.
  rewrite (startPing_frame currentStatus), (startPing_frame onStatusChangeCallback) by done.
  unfold callbacks. by rewrite startPing_omap.
Qed.

Lemma observer_state_sendToServer m s :
  observer_state (sendToServer m s) = observer_state s.
Proof.
  rewrite (sendToServer_frame currentStatus), (sendToServer_frame onStatusChangeCallback)
    by done.
  unfold callbacks. by rewrite sendToServer_omap.
Qed.

Lemma delivered_ext s x s' :
  observer_state s' = observer_state x → status_delivered s x → status_delivered s s'.
Proof. unfold status_delivered. intros [= -> -> ->]. done. Qed.

Lemma delivered_updateStatus s newStatus details x :
  status_delivered s x → status_delivered s (updateStatus newStatus details x).
Proof.
  unfold status_delivered. intros (Hcb & told & Htold & Hon & Hoff).
  rewrite currentStatus_updateStatus, callbacks_updateStatus,
    (updateStatus_frame onStatusChangeCallback) by done.
  split; [done |]. rewrite Hcb, Htold.
  destruct (bool_decide (currentStatus x = newStatus)) eqn:E; simpl.
  - apply bool_decide_eq_true in E. subst newStatus.
    destruct (negb (truthy details)); simpl.
    + exists told. split; [done |]. split; [| done].
      intros H. rewrite <- (Hon H). by destruct told as [|[]].
    + destruct (onStatusChangeCallback s) eqn:Hs.
      * exists ((currentStatus x, details) :: told). by repeat split.
      * exists told. by repeat split.
  - destruct (onStatusChangeCallback s) eqn:Hs.
    + exists ((newStatus, details) :: told). by repeat split.
    + exists told. by repeat split.
Qed.

Lemma delivered_refl s : status_delivered s s.
Proof. split; [done |]. by exists []. Qed.

(** Predicates of the state that only read what the observer sees and
    that [updateStatus] keeps are kept by every function of the manager
    but [setOnStatusChange]. *)
Section Observed.

Variable P : State → Prop.
Hypothesis P_ext : ∀ s s', observer_state s' = observer_state s → P s → P s'.
Hypothesis P_updateStatus :
  ∀ newStatus details s, P s → P (updateStatus newStatus details s).

Lemma observed_scheduleReconnect s : P s → P (scheduleReconnect Math_random s).
Proof.
  intros H. unfold scheduleReconnect. destruct (_ || _).
  - by apply P_updateStatus.
  - strip_with P_ext. apply P_updateStatus.
    strip_with P_ext. destruct (truthy_number _); by strip_with P_ext.
Qed.

Lemma observed_onSocketClose code reason s :
  P s → P (onSocketClose Math_random code reason s).
Proof.
  intros H. rewrite onSocketClose_cases.
  assert (P (stopPing s)) as H1
    by (apply (P_ext s); [apply observer_state_stopPing | done]).
  destruct (truthy_number _); [done |]. destruct (explicitClose s).
  - strip_with P_ext. by apply P_updateStatus.
  - strip_with P_ext. by apply observed_scheduleReconnect, P_updateStatus.
Qed.

Lemma observed_connect jwtToken s : P s → P (connect' jwtToken s).
Proof.
  intros H. unfold connect.
  destruct (negb _); [by apply P_updateStatus |].
  destruct (open_or_connecting _); [by strip_with P_ext |].
  destruct (WebSocket_throws _).
  - apply observed_scheduleReconnect, P_updateStatus.
    strip_with P_ext. apply P_updateStatus. by strip_with P_ext.
  - strip_with P_ext. apply P_updateStatus. by strip_with P_ext.
Qed.

Lemma observed_disconnect s : P s → P (disconnect Math_random s).
Proof.
  intros H. unfold disconnect.
  set (s1 := set_currentJwtToken None (set_explicitClose true s)).
  set (s2 := if truthy_number (reconnectTimeoutId s1) then _ else s1).
  assert (P s2) as H2.
  { subst s2 s1. destruct (truthy_number _); by strip_with P_ext. }
  assert (P (stopPing s2)) as H3
    by (apply (P_ext s2); [apply observer_state_stopPing | done]).
  cbv zeta. strip_with P_ext.
  destruct (socket (stopPing s2)); [| by apply P_updateStatus].
  destruct (open_or_connecting _); [by strip_with P_ext |].
  by apply observed_onSocketClose.
Qed.

Lemma observed_step e s s' :
  (∀ callback, e ≠ Call_setOnStatusChange callback) →
  step' e s = Some s' → P s → P s'.
Proof.
  intros He Hstep H. destruct e; step_inv Hstep.
  - by apply observed_connect.
  - by apply observed_disconnect.
  - by destruct (He callback).
  - unfold onSocketOpen. cbv zeta.
    apply (P_ext _ _ (observer_state_startPing _)).
    destruct (truthy_number _); strip_with P_ext;
      apply P_updateStatus; by strip_with P_ext.
  - unfold onSocketMessage. destruct (JSON_parse data) as [[]|];
      repeat (destruct (is_tag _ _)); by strip_with P_ext.
  - unfold onSocketError. by strip_with P_ext.
  - apply observed_onSocketClose. by strip_with P_ext.
  - unfold reconnect_timeout. cbv zeta. destruct (truthy _).
    + apply observed_connect. by strip_with P_ext.
    + apply P_updateStatus. by strip_with P_ext.
  - apply (P_ext s); [apply observer_state_sendToServer | done].
  - apply (P_ext s); [apply observer_state_sendToServer | done].
Qed.

End Observed.

Lemma reachable_observer_informed s : reachable' s → observer_informed s.
Proof.
  induction 1 as [|e s s' _ IH Hstep]; [done |].
  assert ((∃ callback, e = Call_setOnStatusChange callback)
          ∨ ∀ callback, e ≠ Call_setOnStatusChange callback) as [[callback ->] | Hne].
  { destruct e; try (right; intros ?; discriminate). left. by eexists. }
  - step_inv Hstep. unfold setOnStatusChange. destruct callback; [| done].
    intros _. by eexists _, _.
  - by apply (observed_step observer_informed informed_ext informed_updateStatus e s s').
Qed.

Lemma callbacks_scheduleReconnect s :
  onStatusChangeCallback s = true →
  ∃ detail,
    callbacks (trace (scheduleReconnect Math_random s))
    = (currentStatus (scheduleReconnect Math_random s), Some detail)
      :: callbacks (trace s).
Proof.
  intros Hon. destruct (explicitClose s || negb (truthy (currentJwtToken s))) eqn:Hgo.
  - rewrite standing_scheduleReconnect_refused by done.
    rewrite currentStatus_updateStatus, callbacks_updateStatus, Hon.
    eexists. by rewrite andb_false_r.
  - apply orb_false_elim in Hgo as [He Ht]. apply negb_false_iff in Ht.
    destruct (callbacks_scheduleReconnect_armed Math_random s He Ht) as (detail & Hcb).
    destruct (scheduleReconnect_armed Math_random s He Ht) as (Hst & _).
    exists detail. by rewrite Hcb, Hst, Hon.
Qed.

(** The two reports of a close that is neither explicit nor ignored. *)
Lemma callbacks_onSocketClose_unexpected code reason s :
  onStatusChangeCallback s = true →
  truthy_number (reconnectTimeoutId s) = false → explicitClose s = false →
  ∃ closed next,
    callbacks (trace (onSocketClose Math_random code reason s))
    = (currentStatus (onSocketClose Math_random code reason s), Some next)
      :: (DISCONNECTED, Some closed) :: callbacks (trace s).
Proof.
  intros Hon Hid He. rewrite onSocketClose_cases, Hid, He.
  set (closed := "Connection closed. Code: " +:+ pretty code +:+ ", Reason: " +:+
                 (if truthy (Some reason) then reason else "N/A")).
  set (x := updateStatus DISCONNECTED (Some closed) (stopPing s)).
  assert (onStatusChangeCallback x = true) as Hx.
  { subst x. rewrite (updateStatus_frame onStatusChangeCallback) by done.
    by rewrite (stopPing_frame onStatusChangeCallback). }
  destruct (callbacks_scheduleReconnect x Hx) as (next & Hcb).
  exists closed, next.
  change (callbacks (trace (scheduleReconnect Math_random x))
          = (currentStatus (scheduleReconnect Math_random x), Some next)
            :: (DISCONNECTED, Some closed) :: callbacks (trace s)).
  rewrite Hcb. f_equal. subst x. rewrite callbacks_updateStatus.
  replace (truthy (Some closed)) with true by reflexivity.
  rewrite andb_false_r, (stopPing_frame onStatusChangeCallback), Hon by done.
  f_equal. unfold callbacks. by rewrite stopPing_omap.
Qed.

(** X9: in every state the manager can reach, a registered observer has
    last been told the status the manager is in. Registering delivers the
    current status at once, unregistering calls nobody. Every
    [updateStatus] call that is not skipped as redundant calls a
    registered observer with the new status and the details. Every event
    other than a (un)registration keeps the registration and only adds
    calls: with an observer registered, an event that makes no call
    leaves the status as it is, and otherwise the newest call carries the
    status the manager is in afterwards; without an observer no call is
    made. A close event that is neither explicit nor ignored makes two
    calls, [DISCONNECTED] and then the status it ends in. Sends, heartbeat
    ticks, inbound frames and socket errors make no call and change no
    status. *)
Theorem X9_observer_knows_current_status s :
  reachable' s →
  observer_informed s
  ∧ (∀ s', step' (Call_setOnStatusChange true) s = Some s' →
           callbacks (trace s') = (currentStatus s, None) :: callbacks (trace s)
           ∧ currentStatus s' = currentStatus s)
  ∧ (∀ s', step' (Call_setOnStatusChange false) s = Some s' →
           callbacks (trace s') = callbacks (trace s))
  ∧ (∀ newStatus details,
       callbacks (trace (updateStatus newStatus details s))
       = if bool_decide (currentStatus s = newStatus) && negb (truthy details)
         then callbacks (trace s)
         else if onStatusChangeCallback s
              then (newStatus, details) :: callbacks (trace s)
              else callbacks (trace s))
  ∧ (∀ e s', (∀ callback, e ≠ Call_setOnStatusChange callback) →
             step' e s = Some s' → status_delivered s s')
  ∧ (∀ k code reason s',
       onStatusChangeCallback s = true →
       reconnectTimeoutId s = None → explicitClose s = false →
       step' (Socket_close k code reason) s = Some s' →
       ∃ closed next,
         callbacks (trace s')
         = (currentStatus s', Some next) :: (DISCONNECTED, Some closed)
           :: callbacks (trace s))
  ∧ (∀ e s', match e with
             | Task_sends _ | Interval_fires _ | Socket_message _ _ | Socket_error _ => True
             | _ => False
             end →
             step' e s = Some s' →
             callbacks (trace s') = callbacks (trace s)
             ∧ currentStatus s' = currentStatus s).
Proof.
  intros Hr. split; [by apply reachable_observer_informed |].
  split; [intros s' Hstep; by step_inv Hstep |].
  split; [intros s' Hstep; by step_inv Hstep |].
  split; [intros; apply callbacks_updateStatus |].
  split.
  { intros e s' He Hstep.
    apply (observed_step (status_delivered s) (delivered_ext s)
             (delivered_updateStatus s) e s s' He Hstep), delivered_refl. }
  split.
  { intros k code reason s' Hon Hid He Hstep. step_inv Hstep.
    apply (callbacks_onSocketClose_unexpected code reason (set_readyState k WS_CLOSED s));
      [done | | done].
    change (truthy_number (reconnectTimeoutId s) = false). by rewrite Hid. }
  intros e s' He Hstep.
  assert (observer_state s' = observer_state s) as [= Hst _ Hcb]; [| done].
  destruct e; try done; step_inv Hstep.
  - unfold onSocketMessage. destruct (JSON_parse data) as [[]|];
      by repeat (destruct (is_tag _ _)).
  - done.
  - apply observer_state_sendToServer.
  - apply observer_state_sendToServer.
Qed.

(** *** Inbound frames, socket errors and outbound sends *)

(** X10: whatever frame arrives, [onSocketMessage] changes none of the
    manager's variables, sockets or timers, sends nothing, closes nothing
    and notifies nobody; it starts one dispatcher task, with the parsed
    message, exactly when the frame's [type] is [http_request], and does
    nothing at all for a [pong]. [onSocketError] only logs. *)
Theorem X10_frames_and_errors_change_no_state data s :
  let s' := onSocketMessage JSON_parse data s in
  (variables s' = variables s ∧ sockets s' = sockets s
   ∧ timeouts s' = timeouts s ∧ intervals s' = intervals s
   ∧ wire (trace s') = wire (trace s)
   ∧ close_calls (trace s') = close_calls (trace s)
   ∧ callbacks (trace s') = callbacks (trace s)
   ∧ scheduled (trace s') = scheduled (trace s)
   ∧ constructed (trace s') = constructed (trace s))
  ∧ spawned (trace s')
    = match JSON_parse data with
      | Some message =>
          if is_tag "http_request" (property "type" message)
          then message :: spawned (trace s) else spawned (trace s)
      | None => spawned (trace s)
      end
  ∧ (∀ message, JSON_parse data = Some message →
                is_tag "http_request" (property "type" message) = false →
                is_tag "pong" (property "type" message) = true → s' = s)
  ∧ onSocketError s = set_trace (ConsoleCall error "WebSocket Proxy: Socket error:"
                                 :: trace s) s.
Proof.
  cbv zeta. unfold onSocketMessage.
  destruct (JSON_parse data) as [message|]; [| by repeat split].
  destruct (is_tag "http_request" (property "type" message)) eqn:Hreq.
  { destruct message; try discriminate Hreq. split; [done |]. split; [done |].
    split; [| done]. intros m [= <-] Hno. by rewrite Hno in Hreq. }
  destruct (is_tag "pong" (property "type" message)) eqn:Hpong.
  { destruct message; try discriminate Hpong. by repeat split. }
  destruct message; (split; [done |]; split; [done |]; split; [| done]);
    intros m [= <-] _ Hp; simpl in *; congruence.
Qed.

Lemma sendToServer_keeps m s :
  variables (sendToServer m s) = variables s ∧ sockets (sendToServer m s) = sockets s
  ∧ timeouts (sendToServer m s) = timeouts s ∧ intervals (sendToServer m s) = intervals s.
Proof.
  by rewrite (sendToServer_frame variables), (sendToServer_frame sockets),
    (sendToServer_frame timeouts), (sendToServer_frame intervals).
Qed.

Lemma wire_sendToServer m s :
  wire (trace (sendToServer m s))
  = match socket s, held_readyState s with
    | Some k, Some r => if r =? WS_OPEN then (k, m) :: wire (trace s) else wire (trace s)
    | _, _ => wire (trace s)
    end.
Proof.
  unfold sendToServer. destruct (socket s); [| done].
  destruct (held_readyState s) as [r|]; [| done]. by destruct (r =? WS_OPEN).
Qed.

(** X11: [sendToServer] is best effort and never queues. A series of
    sends (a dispatcher's messages, heartbeat pings) with no other event
    in between goes out on the socket held, complete and in order, when
    that socket is open; otherwise every message of it is dropped. In
    both cases the manager's variables, sockets and timers are left as
    they were. *)
Theorem X11_sends_reach_wire_only_while_open ms s :
  ∃ s', run' (map Task_sends ms) s = Some s'
        ∧ variables s' = variables s ∧ sockets s' = sockets s
        ∧ timeouts s' = timeouts s ∧ intervals s' = intervals s
        ∧ wire (trace s')
          = match socket s, held_readyState s with
            | Some k, Some r =>
                if r =? WS_OPEN then rev (map (pair k) ms) ++ wire (trace s)
                else wire (trace s)
            | _, _ => wire (trace s)
            end.
Proof.
  revert s. induction ms as [|m ms IH]; intros s.
  { exists s. repeat (split; [done |]).
    destruct (socket s); [| done]. destruct (held_readyState s) as [r|]; [| done].
    by destruct (r =? WS_OPEN). }
  destruct (sendToServer_keeps m s) as (Hv & Hso & Hto & Hiv).
  destruct (IH (sendToServer m s)) as (s' & Hrun & Hv' & Hso' & Hto' & Hiv' & Hw).
  exists s'. split; [exact Hrun |].
  split; [congruence |]. split; [congruence |]. split; [congruence |].
  split; [congruence |].
  assert (socket (sendToServer m s) = socket s) as Hsk
    by (unfold variables in Hv; congruence).
  assert (held_readyState (sendToServer m s) = held_readyState s) as Hh
    by (unfold held_readyState; by rewrite Hsk, Hso).
  rewrite Hw, Hsk, Hh, wire_sendToServer.
  destruct (socket s) as [k|]; [| done].
  destruct (held_readyState s) as [r|]; [| done].
  destruct (r =? WS_OPEN); [| done]. simpl. by rewrite <- app_assoc.
Qed.

End Timers.

(** * Further properties of the dispatcher *)

Local Set Warnings "-clear-no-such-hyp".

Lemma fetch_calls_app a b : fetch_calls (a ++ b) = fetch_calls a ++ fetch_calls b.
Proof. apply omap_app. Qed.

Lemma fetch_calls_on_fetch_error id method url e :
  fetch_calls (on_fetch_error id method url e) = [].
Proof.
  unfold on_fetch_error. destruct e as [m | st text | str]; simpl; try done.
  by destruct (st =? 0).
Qed.

Lemma fetch_calls_relay id method url response :
  fetch_calls (relay id method url response) = [].
Proof.
  unfold relay. destruct (response_body response) as [chunks failure | [text | e]];
    [| done | apply fetch_calls_on_fetch_error].
  destruct (read_loop_sent id new_TextDecoder chunks) as (datas & Hs & _); [by right |].
  destruct (read_loop id new_TextDecoder chunks) as [t acts]; simpl in *. subst acts.
  rewrite fetch_calls_app.
  assert (fetch_calls (map (λ d, SendToServer (WSStreamChunkMessage id d)) datas) = [])
    as ->.
  { induction datas; simpl; auto. }
  destruct failure as [e|]; simpl; [apply fetch_calls_on_fetch_error |].
  rewrite fetch_calls_app. by destruct (decode [] false t).2.
Qed.

(** The code and the embedded response of the [error] message built for a
    thrown value. *)
Lemma sent_on_fetch_error_cases id method url e :
  sent (on_fetch_error id method url e)
  = [ match e with
      | ResponseObject st text =>
          if st =? 0 then WSErrorMessage id "FETCH_ERROR" "[object Response]" None
          else WSErrorMessage id "HTTP_ERROR" "[object Response]"
                 (Some (mkDetails st ∅ (default "Could not read error body" text)))
      | _ => WSErrorMessage id "FETCH_ERROR" (error_message e) None
      end ].
Proof.
  unfold on_fetch_error. destruct e as [m | st text | str]; try done.
  by destruct (st =? 0).
Qed.

Lemma collect_headers_snoc hs k v :
  collect_headers (hs ++ [(k, v)])
  = if bool_decide (k = "__proto__") then collect_headers hs
    else <[k := v]> (collect_headers hs).
Proof. unfold collect_headers. by rewrite foldl_app. Qed.

Lemma collect_headers_lookup hs k :
  collect_headers hs !! k
  = if bool_decide (k = "__proto__") then None
    else snd <$> last (filter (λ kv, kv.1 = k) hs).
Proof.
  induction hs as [|[k' v'] hs IH] using rev_ind; [by destruct (bool_decide _) |].
  rewrite collect_headers_snoc, filter_app.
  destruct (decide (k' = k)) as [-> | Hne].
  - destruct (bool_decide (k = "__proto__")); [done |].
    rewrite lookup_insert_eq. rewrite filter_cons_True by done.
    rewrite filter_nil. by rewrite last_snoc.
  - rewrite filter_cons_False by done. rewrite filter_nil, app_nil_r.
    destruct (bool_decide (k' = "__proto__")); [exact IH |].
    by rewrite lookup_insert_ne.
Qed.

Lemma filter_name_absent (hs : list (string * string)) k :
  k ∉ hs.*1 → filter (λ kv, kv.1 = k) hs = [].
Proof.
  intros Hk. induction hs as [|[k' v'] l IH]; [done |].
  rewrite fmap_cons, not_elem_of_cons in Hk. destruct Hk as [Hne Hk].
  rewrite filter_cons_False by (simpl; by intros <-). by apply IH.
Qed.

Lemma last_visit_distinct (hs : list (string * string)) k v :
  NoDup hs.*1 →
  snd <$> last (filter (λ kv, kv.1 = k) hs) = Some v ↔ (k, v) ∈ hs.
Proof.
  intros Hnd. induction hs as [|[k' v'] l IH]; simpl.
  { split; [done | by intros ?%elem_of_nil]. }
  rewrite fmap_cons in Hnd. apply NoDup_cons in Hnd as [Hk' Hnd].
  destruct (decide (k' = k)) as [-> | Hne].
  - rewrite filter_cons_True by done.
    rewrite (filter_name_absent l k Hk'). simpl. rewrite elem_of_cons.
    split; [intros [= ->]; by left |].
    intros [[= ->] | Hin]; [done |]. exfalso. apply Hk'.
    apply list_elem_of_fmap. by exists (k, v).
  - rewrite filter_cons_False by done. rewrite (IH Hnd), elem_of_cons.
    split; [by right | intros [[= -> _] | ?]; [done | done]].
Qed.

Section DispatcherMore.

Variable new_URL : string → option URL.
Variable URL_toString : URL → string.

Local Abbreviation handle := (handleHttpRequest new_URL URL_toString).

(** X13: a run of [handleHttpRequest] calls [fetch] exactly once, whatever
    the outcome, and before it sends anything; the call carries the
    request's method and headers unchanged, and the request's body unless
    the method is GET or HEAD, for which no body is passed. *)
Theorem X13_one_fetch_before_any_send request outcome :
  ∃ before url' after,
    handle request outcome
    = before ++ Fetch url' (mkInit (method (payload request)) (headers (payload request))
                              (if bool_decide (method (payload request) = "GET"
                                               ∨ method (payload request) = "HEAD")
                               then None else body (payload request)))
                :: after
    ∧ sent before = [] ∧ fetch_calls before = [] ∧ fetch_calls after = []
    ∧ sent after = sent (handle request outcome).
Proof.
  unfold handleHttpRequest.
  pose proof (egress_url_silent new_URL URL_toString (id request)
                (method (payload request)) (url (payload request))) as [Hs Hf].
  destruct (egress_url _ _ _ _ _) as [url' logs]; simpl in *.
  eexists logs, url', _. split.
  { f_equal. f_equal. unfold fetch_options. f_equal.
    destruct (String.eqb (method (payload request)) "GET") eqn:E1;
      destruct (String.eqb (method (payload request)) "HEAD") eqn:E2; simpl;
      rewrite ?String.eqb_eq, ?String.eqb_neq in *.
    - rewrite bool_decide_eq_true_2; [done | by left].
    - rewrite bool_decide_eq_true_2; [done | by left].
    - rewrite bool_decide_eq_true_2; [done | by right].
    - rewrite bool_decide_eq_false_2; [done | by intros [? | ?]]. }
  split; [done |]. split.
  { clear Hs. induction logs as [|[] logs IH]; simpl in *; try done; by apply IH. }
  split; [destruct outcome; [apply fetch_calls_on_fetch_error | apply fetch_calls_relay] |].
  by rewrite sent_app, Hs.
Qed.

(** X14: when [fetch] rejects, or [response.text()] rejects for a body
    that is not readable, the only message sent is one [error] for the
    request's id. Its code is HTTP_ERROR, with the response's status, no
    headers and the response text (or a placeholder when that cannot be
    read) embedded, exactly when the value thrown is a Response with a
    non-zero status; otherwise the code is FETCH_ERROR and nothing is
    embedded. An Error's message is passed on unchanged. *)
Theorem X14_failures_become_one_error_message request e :
  ∃ code http_response,
    sent (handle request (Rejected e))
    = [WSErrorMessage (id request) code (error_message e) http_response]
    ∧ (∀ st hs, sent (handle request (Resolved (mkResponse st hs (NotReadable (inr e)))))
                = [WSErrorMessage (id request) code (error_message e) http_response])
    ∧ (code = "HTTP_ERROR" ∨ code = "FETCH_ERROR")
    ∧ (code = "HTTP_ERROR" ↔ is_Some http_response)
    ∧ (is_Some http_response ↔ ∃ st text, e = ResponseObject st text ∧ st ≠ 0)
    ∧ (∀ st text, e = ResponseObject st text → st ≠ 0 →
                  http_response
                  = Some (mkDetails st ∅ (default "Could not read error body" text)))
    ∧ (∀ message, e = ErrorObject message → error_message e = message).
Proof.
  assert (∀ st hs, sent (handle request (Resolved (mkResponse st hs (NotReadable (inr e)))))
                   = sent (handle request (Rejected e))) as Hsame.
  { intros st hs. by rewrite !sent_handleHttpRequest. }
  setoid_rewrite Hsame.
  rewrite sent_handleHttpRequest, sent_on_fetch_error_cases.
  destruct e as [m | st text | str].
  - exists "FETCH_ERROR", None. unfold is_Some. repeat split; naive_solver.
  - destruct (st =? 0) eqn:E.
    + apply Z.eqb_eq in E. subst st.
      exists "FETCH_ERROR", None. unfold is_Some. repeat split; naive_solver.
    + apply Z.eqb_neq in E.
      exists "HTTP_ERROR", (Some (mkDetails st ∅ (default "Could not read error body" text))).
      unfold is_Some. repeat split; naive_solver.
  - exists "FETCH_ERROR", None. unfold is_Some. repeat split; naive_solver.
Qed.

(** X15: a response whose body is not readable is relayed as exactly one
    [http_response] with the response's status, its text and its headers
    gathered into a record. A header named [__proto__] never gets into
    the record. For any other name the value visited last is kept; a name
    never visited is absent; and with distinct names the record holds
    exactly the pairs visited whose name is not [__proto__]. *)
Theorem X15_buffered_response_is_relayed_whole request st hs text :
  sent (handle request (Resolved (mkResponse st hs (NotReadable (inl text)))))
  = [WSHttpResponseMessage (id request) st (collect_headers hs) text]
  ∧ collect_headers hs !! "__proto__" = None
  ∧ (∀ k, k ≠ "__proto__" →
          collect_headers hs !! k = snd <$> last (filter (λ kv, kv.1 = k) hs))
  ∧ (∀ hs' k v, k ≠ "__proto__" → collect_headers (hs' ++ [(k, v)]) !! k = Some v)
  ∧ (∀ k, k ∉ hs.*1 → collect_headers hs !! k = None)
  ∧ (NoDup hs.*1 →
     ∀ k v, collect_headers hs !! k = Some v ↔ (k, v) ∈ hs ∧ k ≠ "__proto__").
Proof.
  split; [by rewrite sent_handleHttpRequest |].
  split; [by rewrite collect_headers_lookup |].
  split.
  { intros k Hk. by rewrite collect_headers_lookup, bool_decide_eq_false_2. }
  split.
  { intros hs' k v Hk.
    by rewrite collect_headers_snoc, bool_decide_eq_false_2, lookup_insert_eq. }
  split.
  { intros k Hk. rewrite collect_headers_lookup, filter_name_absent by done.
    by destruct (bool_decide _). }
  intros Hnd k v. rewrite collect_headers_lookup.
  destruct (decide (k = "__proto__")) as [-> | Hk].
  - rewrite bool_decide_eq_true_2 by done. split; [done | by intros [_ ?]].
  - rewrite bool_decide_eq_false_2 by done. rewrite last_visit_distinct by done.
    split; [done | by intros [? _]].
Qed.

(** X16: when a read of a streamed body fails, the messages sent are
    [stream_start], one [stream_chunk] per read that succeeded, and one
    [error]: no residue chunk and no [stream_end] follow. The text sent is
    a prefix of the decoding of the bytes read. *)
Theorem X16_failed_stream_ends_with_error request st hs chunks e :
  let msgs := sent (handle request (Resolved (mkResponse st hs (Readable chunks (Some e))))) in
  ∃ datas code http_response,
    msgs = WSStreamStartMessage (id request) st (collect_headers hs)
           :: map (WSStreamChunkMessage (id request)) datas
           ++ [WSErrorMessage (id request) code (error_message e) http_response]
    ∧ length datas = length chunks
    ∧ stream_text msgs = concat datas
    ∧ concat datas `prefix_of` (decode (concat chunks) false new_TextDecoder).2
    ∧ WSStreamEndMessage (id request) ∉ msgs.
Proof.
  intros msgs. subst msgs. rewrite sent_handleHttpRequest. unfold relay; simpl.
  set (i := id request).
  destruct (read_loop_sent i new_TextDecoder chunks) as (datas & Hs & Hl & _ & Hd);
    [by right |].
  destruct (read_loop i new_TextDecoder chunks) as [t acts]; simpl in *. subst acts.
  destruct (sent_on_fetch_error i (method (payload request))
              (egress_url new_URL URL_toString i (method (payload request))
                 (url (payload request))).1 e) as (code & http & He).
  exists datas, code, http. rewrite sent_app, sent_chunks, He.
  split; [done |]. split; [done |].
  split.
  { unfold stream_text. f_equal.
    change (omap chunk_data (map (WSStreamChunkMessage i) datas
                             ++ [WSErrorMessage i code (error_message e) http]) = datas).
    rewrite omap_app; simpl. rewrite app_nil_r.
    clear. induction datas as [|d ds IH]; [done |]. simpl. f_equal. exact IH. }
  split.
  { specialize (Hd []). rewrite app_nil_r in Hd. rewrite Hd. by eexists. }
  rewrite not_elem_of_cons. split; [done |].
  rewrite elem_of_app. intros [Hin | Hin].
  - apply list_elem_of_fmap in Hin as (d & Hd' & _). done.
  - apply list_elem_of_singleton in Hin. done.
Qed.

(** *** Bodies of plain ASCII *)

Lemma utf8_run_ascii d bs :
  Utf8.bytes_needed d = 0 → Forall (λ b, 0 ≤ b < 0x80) bs →
  Utf8.run d bs = (match bs with [] => d | _ :: _ => Utf8.init end, bs).
Proof.
  intros Hd Hbs. revert d Hd. induction Hbs as [|b bs Hb _ IH]; intros d Hd; [done |].
  simpl. unfold Utf8.handler. rewrite Hd. simpl. unfold Utf8.lead, Utf8.in_range.
  replace (0 <=? b) with true by lia. replace (b <=? 127) with true by lia. simpl.
  rewrite (IH Utf8.init eq_refl). by destruct bs.
Qed.

Lemma flat_map_utf16_small bs :
  Forall (λ b, 0 ≤ b < 0x80) bs → flat_map utf16 bs = bs.
Proof.
  induction 1 as [|b bs Hb _ IH]; [done |]. simpl. unfold utf16 at 1.
  replace (b <? 65536) with true by lia. simpl. by rewrite IH.
Qed.

Lemma byte_values_small chunk :
  ascii_bytes chunk → Forall (λ b, 0 ≤ b < 0x80) (map byte_value chunk).
Proof.
  unfold ascii_bytes. intros H. apply Forall_fmap. eapply Forall_impl; [exact H |].
  intros b Hb. simpl. unfold byte_value in *. lia.
Qed.

(** An ASCII chunk comes out of a decoder that holds no partial sequence
    as it went in, and leaves none behind. *)
Lemma decode_ascii chunk t :
  streaming t → Utf8.bytes_needed (decoder t) = 0 → ascii_bytes chunk →
  (decode chunk true t).2 = map byte_value chunk
  ∧ Utf8.bytes_needed (decoder (decode chunk true t).1) = 0.
Proof.
  intros Hs Hn Ha. pose proof (byte_values_small chunk Ha) as Hsmall.
  unfold decode. rewrite (streaming_keeps t Hs).
  rewrite (utf8_run_ascii _ _ Hn Hsmall). rewrite app_nil_r.
  destruct (map byte_value chunk) as [|c cs] eqn:E; simpl; [done |].
  apply Forall_cons in Hsmall as [Hc Hcs].
  replace (c =? 65279) with false by lia. rewrite andb_false_r. simpl.
  unfold utf16 at 1. replace (c <? 65536) with true by lia. simpl.
  by rewrite (flat_map_utf16_small cs Hcs).
Qed.

Lemma read_loop_ascii id t chunks :
  streaming t → Utf8.bytes_needed (decoder t) = 0 → Forall ascii_bytes chunks →
  (read_loop id t chunks).2
  = map (λ c, SendToServer (WSStreamChunkMessage id (map byte_value c))) chunks
  ∧ (decode [] false (read_loop id t chunks).1).2 = [].
Proof.
  intros Hs Hn Ha. revert t Hs Hn.
  induction Ha as [|chunk chunks Hc _ IH]; intros t Hs Hn.
  - simpl. split; [done |]. unfold decode. rewrite (streaming_keeps t Hs). simpl.
    unfold Utf8.finish. rewrite Hn. simpl. by destruct (BOM_seen t).
  - simpl. destruct (decode_ascii chunk t Hs Hn Hc) as [Hdata Hn1].
    pose proof (decode_stream_streaming chunk t) as Hs1.
    destruct (decode chunk true t) as [t1 chunkData]; simpl in *. subst chunkData.
    destruct (IH t1 Hs1 Hn1) as [Hacts Hres].
    destruct (read_loop id t1 chunks) as [t2 acts]; simpl in *. by subst acts.
Qed.

(** X17: a streamed body of plain ASCII bytes (all below 0x80) is relayed
    read by read: after [stream_start], each read becomes one
    [stream_chunk] whose text is exactly the bytes read, an empty read
    included, and [stream_end] follows with no residue chunk; a body with
    no reads at all yields just [stream_start] and [stream_end]. *)
Theorem X17_ascii_stream_is_relayed_read_by_read request st hs chunks :
  Forall ascii_bytes chunks →
  sent (handle request (Resolved (mkResponse st hs (Readable chunks None))))
  = WSStreamStartMessage (id request) st (collect_headers hs)
    :: map (λ c, WSStreamChunkMessage (id request) (map byte_value c)) chunks
    ++ [WSStreamEndMessage (id request)].
Proof.
  intros Ha. rewrite sent_handleHttpRequest. unfold relay; simpl.
  destruct (read_loop_ascii (id request) new_TextDecoder chunks) as [Hacts Hres];
    [by right | done | done |].
  destruct (read_loop (id request) new_TextDecoder chunks) as [t acts]; simpl in *.
  subst acts. rewrite Hres. simpl. rewrite sent_app. simpl. f_equal. f_equal.
  clear. induction chunks as [|c cs IH]; [done |]. simpl. by rewrite <- IH.
Qed.

End DispatcherMore.

(** * The callers *)

(** X18: for every status exactly one of the Connect and Disconnect
    buttons is rendered. With the header rendered as the app renders it,
    a click on Connect calls [connect], with the configured token, exactly
    when the status is IDLE, DISCONNECTED or ERROR, nothing is loading and
    the token is not empty, and it reports the missing token in the same
    situation with an empty or missing token; a click on Disconnect calls
    [disconnect] exactly when the status is CONNECTED or RECONNECTING and
    nothing is loading. No click does anything else; in particular, while
    CONNECTING the Disconnect button is rendered but disabled, so that no
    click reaches the manager. *)
Theorem X18_buttons_and_handlers_agree isLoading isModelsLoading jwtToken webSocketStatus :
  let press b := click b isLoading isModelsLoading jwtToken webSocketStatus in
  let resting := webSocketStatus = IDLE ∨ webSocketStatus = DISCONNECTED
                 ∨ webSocketStatus = ERROR in
  let idle_ui := isLoading = false ∧ isModelsLoading = false in
  connect_button_rendered webSocketStatus
  = negb (disconnect_button_rendered webSocketStatus)
  ∧ (∀ t, press connect_button = calls_connect t
          ↔ resting ∧ idle_ui ∧ jwtToken = Some t ∧ truthy jwtToken = true)
  ∧ (press connect_button = reports_missing_token
     ↔ resting ∧ idle_ui ∧ truthy jwtToken = false)
  ∧ (press disconnect_button = calls_disconnect
     ↔ (webSocketStatus = CONNECTED ∨ webSocketStatus = RECONNECTING) ∧ idle_ui)
  ∧ press connect_button ≠ calls_disconnect
  ∧ (∀ t, press disconnect_button ≠ calls_connect t)
  ∧ press disconnect_button ≠ reports_missing_token
  ∧ (webSocketStatus = CONNECTING →
     disconnect_button_rendered webSocketStatus = true
     ∧ ∀ b, press b = calls_nothing).
Proof.
  cbv zeta.
  split; [by destruct webSocketStatus |].
  split.
  { intros t.
    destruct webSocketStatus, isLoading, isModelsLoading, jwtToken as [[|c tok]|];
      vm_compute; split; try naive_solver. }
  split.
  { destruct webSocketStatus, isLoading, isModelsLoading, jwtToken as [[|c tok]|];
      vm_compute; split; try naive_solver. }
  split.
  { destruct webSocketStatus, isLoading, isModelsLoading;
      vm_compute; split; try naive_solver. }
  split.
  { by destruct webSocketStatus, isLoading, isModelsLoading, jwtToken as [[|c tok]|]. }
  split.
  { intros t. by destruct webSocketStatus, isLoading, isModelsLoading. }
  split.
  { by destruct webSocketStatus, isLoading, isModelsLoading. }
  intros ->. split; [done |].
  intros []; by destruct isLoading, isModelsLoading.
Qed.

(** * The further properties on the sample host *)

Local Abbreviation sample_step :=
  (step None sample_JSON_parse sample_WebSocket_throws sample_Math_random).
Local Abbreviation sample_run :=
  (run None sample_JSON_parse sample_WebSocket_throws sample_Math_random).
Local Abbreviation sample_reach :=
  (reachable None sample_JSON_parse sample_WebSocket_throws sample_Math_random).
Local Abbreviation sample_connect :=
  (connect None sample_WebSocket_throws sample_Math_random).

Ltac sample_reached := apply sample_reachable; vm_compute; eauto.

(** X1 with a retry pending: one timeout, the remembered one. *)
Lemma X1_witness :
  timeouts sample_retrying = [2]
  ∧ (length (timeouts sample_retrying) ≤ 1)%nat
  ∧ (2 ∈ timeouts sample_retrying ↔ reconnectTimeoutId sample_retrying = Some 2).
Proof.
  assert (sample_reach sample_retrying) as Hr by sample_reached.
  destruct (X1_timers_never_pile_up _ _ _ _ sample_retrying Hr) as (H1 & _ & H3 & _).
  split; [reflexivity |]. split; [exact H1 | exact (H3 2)].
Defined.

(** X2 on a connected manager: the heartbeat armed at the opening is gone
    after [disconnect]. *)
Lemma X2_witness :
  intervals sample_connected = [1]
  ∧ intervals (disconnect sample_Math_random sample_connected) = []
  ∧ sample_step (Interval_fires 1) (disconnect sample_Math_random sample_connected) = None.
Proof.
  assert (sample_reach sample_connected) as Hr by sample_reached.
  destruct (X2_no_heartbeat_after_close _ sample_JSON_parse _ _ sample_connected Hr)
    as (_ & Hi & _ & Hno).
  split; [reflexivity |]. split; [exact Hi | exact (Hno 1)].
Defined.

(** X3 when the first socket opens. *)
Lemma X3_witness :
  sample_step (Socket_open 0) sample_connecting = Some sample_connected
  ∧ currentStatus sample_connected = CONNECTED
  ∧ timeouts sample_connected = []
  ∧ ∃ h, intervals sample_connected = [h]
         ∧ heartbeats (trace sample_connected)
           = (h, 25000) :: heartbeats (trace sample_connecting).
Proof.
  assert (sample_reach sample_connecting) as Hr by sample_reached.
  assert (sample_step (Socket_open 0) sample_connecting = Some sample_connected) as Hs
    by (vm_compute; reflexivity).
  destruct (X3_open_starts_one_heartbeat _ _ _ _ 0%nat sample_connecting
              sample_connected Hr Hs) as (Hst & _ & Hto & h & _ & Hi & Hh).
  split; [exact Hs |]. split; [exact Hst |]. split; [exact Hto |].
  exists h. split; [exact Hi | exact Hh].
Defined.

Lemma sample_Math_random_unit_interval : unit_interval sample_Math_random.
Proof. intros n. unfold sample_Math_random. split; lra. Qed.

(** X4 with a retry pending: the one delay passed so far is in bounds. *)
Lemma X4_witness :
  length (scheduled (trace sample_retrying)) = 1%nat
  ∧ Forall (λ hd, (1000 <= hd.2)%Q ∧ (hd.2 <= 30500)%Q) (scheduled (trace sample_retrying)).
Proof.
  assert (sample_reach sample_retrying) as Hr by sample_reached.
  split; [reflexivity |].
  exact (proj1 (X4_reconnect_delays_within_bounds _ _ _ _ sample_retrying
                  sample_Math_random_unit_interval Hr)).
Defined.

(** X5 from a connected manager: three retries take 1000 ms to 8000 ms. *)
Lemma X5_witness :
  currentReconnectDelay sample_connected = 1000
  ∧ currentReconnectDelay
      (Nat.iter 3 (scheduleReconnect sample_Math_random) sample_connected) = 8000.
Proof.
  split; [reflexivity |].
  exact (proj1 (X5_backoff_closed_form sample_Math_random 3 sample_connected
                  eq_refl eq_refl ltac:(vm_compute; discriminate))).
Defined.

(** X6 on a connected manager whose socket closes with code 1006. *)
Lemma X6_witness :
  ∃ h s1 s2,
    sample_step (Socket_close 0 1006 EmptyString) sample_connected = Some s1
    ∧ currentStatus s1 = RECONNECTING
    ∧ timeouts s1 = [h]
    ∧ sample_step (Timeout_fires h) s1 = Some s2
    ∧ currentStatus s2 = CONNECTING
    ∧ timeouts s2 = [].
Proof.
  assert (sample_reach sample_connected) as Hr by sample_reached.
  destruct (X6_unexpected_close_reconnects None sample_JSON_parse sample_WebSocket_throws
              sample_Math_random 0%nat
              (mkWebSocket "ws://127.0.0.1:5345/v1/ws?auth_token=a" WS_OPEN)
              1006 EmptyString "a" sample_connected Hr
              eq_refl eq_refl eq_refl eq_refl eq_refl ltac:(discriminate) eq_refl)
    as (h & s1 & s2 & H1 & H2 & _ & _ & H3 & H4 & H5 & _ & _ & _ & H6 & _).
  exists h, s1, s2. repeat (split; [assumption |]). assumption.
Defined.

(** X7 on a connected manager. *)
Lemma X7_witness :
  currentJwtToken (disconnect sample_Math_random sample_connected) = None
  ∧ intervals (disconnect sample_Math_random sample_connected) = []
  ∧ currentStatus (disconnect sample_Math_random sample_connected) = CONNECTED
  ∧ ∃ s2, sample_step (Socket_close 0 1000 "bye")
            (disconnect sample_Math_random sample_connected) = Some s2
          ∧ currentStatus s2 = IDLE ∧ timeouts s2 = [].
Proof.
  assert (sample_reach sample_connected) as Hr by sample_reached.
  destruct (X7_explicit_disconnect_ends_idle None sample_JSON_parse
              sample_WebSocket_throws sample_Math_random sample_connected Hr)
    as ((Htok & _ & _ & _ & Hiv & _) & _ & _ & Hopen).
  destruct (Hopen 0%nat eq_refl eq_refl) as (Hst & _ & _ & _ & Hclose).
  split; [exact Htok |]. split; [exact Hiv |]. split; [exact Hst |].
  destruct (Hclose 1000 "bye") as (s2 & H1 & H2 & _ & _ & H3 & _).
  exists s2. split; [exact H1 |]. split; [exact H2 | exact H3].
Defined.

(** X8 with a retry pending while a second socket is connecting: the close
    of that socket is ignored, the status stays [CONNECTING]. *)
Lemma X8_witness :
  reconnectTimeoutId sample_overlapping = Some 1
  ∧ currentStatus sample_overlapping = CONNECTING
  ∧ ∃ s', sample_step (Socket_close 1 1006 EmptyString) sample_overlapping = Some s'
          ∧ currentStatus s' = CONNECTING ∧ socket s' = Some 1%nat
          ∧ timeouts s' = [1].
Proof.
  assert (sample_reach sample_overlapping) as Hr by sample_reached.
  split; [reflexivity |]. split; [reflexivity |].
  eexists. split; [vm_compute; reflexivity |].
  destruct (X8_close_ignored_while_reconnect_pending None sample_JSON_parse
              sample_WebSocket_throws sample_Math_random 1%nat 1006 EmptyString 1
              sample_overlapping _ Hr eq_refl ltac:(vm_compute; reflexivity))
    as (H1 & H2 & _ & _ & _ & _ & H3 & _).
  split; [exact H1 |]. split; [exact H2 | exact H3].
Defined.

(** X9 for an observer registered before the first [connect]. *)
Lemma X9_witness :
  observer_informed
    (default initial
       (sample_run [Call_setOnStatusChange true; Call_connect "a"; Socket_open 0]
          initial))
  ∧ head (callbacks (trace
            (default initial
               (sample_run [Call_setOnStatusChange true; Call_connect "a"; Socket_open 0]
                  initial))))
    = Some (CONNECTED, None).
Proof.
  split; [| reflexivity].
  refine (proj1 (X9_observer_knows_current_status None sample_JSON_parse
                   sample_WebSocket_throws sample_Math_random _ _)).
  sample_reached.
Defined.

(** X12 for the first [connect]. *)
Lemma X12_witness :
  sockets (sample_connect "a" initial)
  = [mkWebSocket "ws://127.0.0.1:5345/v1/ws?auth_token=a" WS_CONNECTING]
  ∧ currentStatus (sample_connect "a" initial) = CONNECTING
  ∧ socket (sample_connect "a" initial) = Some 0%nat.
Proof.
  destruct (X12_connect_opens_one_socket None sample_WebSocket_throws sample_Math_random
              "a" initial eq_refl eq_refl eq_refl) as (H1 & H2 & H3 & _).
  split; [exact H2 |]. split; [exact H1 | exact H3].
Defined.

(** X17 on a body read as "hi", an empty chunk and "!". *)
Lemma X17_witness :
  sent (handleHttpRequest PlainURL.new_URL PlainURL.toString
          (mkRequest "X" (mkPayload "POST" "https://h/v1beta/chat" ∅ None))
          (Resolved (mkResponse 200 [] (Readable [[x68; x69]; []; [x21]] None))))
  = [ WSStreamStartMessage "X" 200 ∅;
      WSStreamChunkMessage "X" [104; 105];
      WSStreamChunkMessage "X" [];
      WSStreamChunkMessage "X" [33];
      WSStreamEndMessage "X" ].
Proof.
  refine (X17_ascii_stream_is_relayed_read_by_read PlainURL.new_URL PlainURL.toString
            (mkRequest "X" (mkPayload "POST" "https://h/v1beta/chat" ∅ None))
            200 [] [[x68; x69]; []; [x21]] _).
  repeat (constructor; try reflexivity).
Defined.
